(** * Route and cluster translation of the adapter (package [envoyconf])

    A shallow embedding of
    [adapter/internal/oasparser/envoyconf/routes_with_clusters.go]:
    cluster-name minting, endpoint compilation, route construction and the
    orchestrating [CreateRoutesWithClusters], followed by the properties
    the specification states about them.

    Go strings are byte sequences and are modelled as [string] (a list of
    8-bit [ascii]); Go [int]/[int64]/[time.Duration] values are modelled
    as [Z] with the 64-bit wrap-around written out where the source
    multiplies. *)

From Stdlib Require Import ZArith String Ascii List Bool Lia DecimalString.
From stdpp Require Import base option list gmap strings.

Local Open Scope string_scope.
Local Open Scope Z_scope.

Local Arguments String.append : simpl nomatch.

(* ===================================================================== *)
(** ** Part I. Definitions                                                *)
(* ===================================================================== *)

(** *** The Go standard library functions the source calls *)

Module strings.

Fixpoint rev (s : string) : string :=
  match s with
  | "" => ""
  | String a s' => rev s' ++ String a ""
  end.

Fixpoint drop (n : nat) (s : string) : string :=
  match n, s with
  | O, _ => s
  | S _, "" => ""
  | S n', String _ s' => drop n' s'
  end.

Fixpoint take (n : nat) (s : string) : string :=
  match n, s with
  | O, _ => ""
  | S _, "" => ""
  | S n', String a s' => String a (take n' s')
  end.

(** [strings.HasPrefix(s, prefix)]. *)
Fixpoint HasPrefix (s prefix : string) {struct prefix} : bool :=
  match prefix with
  | "" => true
  | String b p' =>
      match s with
      | "" => false
      | String a s' => Ascii.eqb a b && HasPrefix s' p'
      end
  end.

(** [strings.HasSuffix(s, suffix)]:
    [len(s) >= len(suffix) && s[len(s)-len(suffix):] == suffix]. *)
Definition HasSuffix (s suffix : string) : bool :=
  (String.length suffix <=? String.length s)%nat
  && String.eqb (drop (String.length s - String.length suffix) s) suffix.

Definition TrimPrefix (s prefix : string) : string :=
  if HasPrefix s prefix then drop (String.length prefix) s else s.

(** [strings.TrimSuffix(s, suffix)]: [s[:len(s)-len(suffix)]] when [s]
    ends with [suffix], otherwise [s] itself. *)
Definition TrimSuffix (s suffix : string) : string :=
  if HasSuffix s suffix
  then take (String.length s - String.length suffix) s
  else s.

(** [strings.Contains(s, substr)]. *)
Fixpoint Contains (s substr : string) : bool :=
  HasPrefix s substr
  || match s with
     | "" => false
     | String _ s' => Contains s' substr
     end.

Fixpoint lastIndexFrom (i : nat) (s substr : string) : option nat :=
  match s with
  | "" => if HasPrefix "" substr then Some i else None
  | String _ s' =>
      match lastIndexFrom (S i) s' substr with
      | Some j => Some j
      | None => if HasPrefix s substr then Some i else None
      end
  end.

(** [strings.LastIndex(s, substr)]: byte index of the last occurrence,
    [-1] when there is none. *)
Definition LastIndex (s substr : string) : Z :=
  match lastIndexFrom 0 s substr with
  | Some j => Z.of_nat j
  | None => -1
  end.

(** The replacement budget of [strings.Replace]: [None] is "no limit". *)
Definition budget (n : Z) : option nat :=
  if n <? 0 then None else Some (Z.to_nat n).

Definition budgetLeft (b : option nat) : bool :=
  match b with
  | Some O => false
  | _ => true
  end.

Definition budgetPred (b : option nat) : option nat :=
  match b with
  | Some k => Some (Nat.pred k)
  | None => None
  end.

(** Left-to-right scan replacing non-overlapping occurrences of a
    non-empty [old]; [skip] counts the bytes of the occurrence just
    replaced that are still to be passed over. *)
Fixpoint replaceScan (s old new : string) (skip : nat) (b : option nat)
  : string :=
  match s with
  | "" => ""
  | String c s' =>
      match skip with
      | S k => replaceScan s' old new k b
      | O =>
          if budgetLeft b && HasPrefix s old
          then new ++ replaceScan s' old new
                        (Nat.pred (String.length old)) (budgetPred b)
          else String c (replaceScan s' old new O b)
      end
  end.

(** For an empty [old] Go inserts [new] before the string and after
    every UTF-8 sequence; the scan below does so after every byte, which
    is the same on ASCII input.  No call site of the translated file
    passes an empty [old]. *)
Fixpoint insertScan (s new : string) (b : option nat) : string :=
  if budgetLeft b
  then new ++ match s with
              | "" => ""
              | String c s' => String c (insertScan s' new (budgetPred b))
              end
  else s.

(** [strings.Replace(s, old, new, n)]: the first [n] non-overlapping
    occurrences of [old] replaced by [new]; every occurrence when
    [n < 0]. *)
Definition Replace (s old new : string) (n : Z) : string :=
  if String.eqb old new || (n =? 0) then s
  else match old with
       | "" => insertScan s new (budget n)
       | _ => replaceScan s old new O (budget n)
       end.

(** [strings.Join(elems, sep)]. *)
Fixpoint Join (elems : list string) (sep : string) : string :=
  match elems with
  | [] => ""
  | [x] => x
  | x :: rest => x ++ sep ++ Join rest sep
  end.

Fixpoint splitScan (s sep : string) (skip : nat) (cur : string)
  : list string :=
  match s with
  | "" => [cur]
  | String c s' =>
      match skip with
      | S k => splitScan s' sep k cur
      | O =>
          if HasPrefix s sep
          then cur :: splitScan s' sep (Nat.pred (String.length sep)) ""
          else splitScan s' sep O (cur ++ String c "")
      end
  end.

(** [strings.Split(s, sep)] for a non-empty [sep] (the source only
    splits at ["?"]); the result always has a first element. *)
Definition Split (s sep : string) : list string := splitScan s sep O "".

(** The six ASCII bytes [unicode.IsSpace] accepts. *)
Definition asciiSpace (a : ascii) : bool :=
  match a with
  | "009" | "010" | "011" | "012" | "013" | " " => true
  | _ => false
  end%char.

(** [unicode.IsSpace] on the two-byte UTF-8 sequences: U+0085 and
    U+00A0. *)
Definition space2 (a b : ascii) : bool :=
  Ascii.eqb a "194" && (Ascii.eqb b "133" || Ascii.eqb b "160").

(** [unicode.IsSpace] on the three-byte UTF-8 sequences: U+1680,
    U+2000..U+200A, U+2028, U+2029, U+202F, U+205F and U+3000. *)
Definition space3 (a b c : ascii) : bool :=
  let n := nat_of_ascii c in
  (Ascii.eqb a "225" && Ascii.eqb b "154" && Ascii.eqb c "128")
  || (Ascii.eqb a "226" && Ascii.eqb b "128"
      && (((128 <=? n)%nat && (n <=? 138)%nat)
          || Ascii.eqb c "168" || Ascii.eqb c "169" || Ascii.eqb c "175"))
  || (Ascii.eqb a "226" && Ascii.eqb b "129" && Ascii.eqb c "159")
  || (Ascii.eqb a "227" && Ascii.eqb b "128" && Ascii.eqb c "128").

(** Leading white space removed, one encoded rune at a time. *)
Fixpoint trimLeftSpace (s : string) : string :=
  match s with
  | "" => ""
  | String a s1 =>
      if asciiSpace a then trimLeftSpace s1
      else match s1 with
           | "" => s
           | String b s2 =>
               if space2 a b then trimLeftSpace s2
               else match s2 with
                    | "" => s
                    | String c s3 =>
                        if space3 a b c then trimLeftSpace s3 else s
                    end
           end
  end.

(** The same from the end, on the reversed string (so the bytes of a
    rune arrive last byte first). *)
Fixpoint trimLeftSpaceRev (s : string) : string :=
  match s with
  | "" => ""
  | String a s1 =>
      if asciiSpace a then trimLeftSpaceRev s1
      else match s1 with
           | "" => s
           | String b s2 =>
               if space2 b a then trimLeftSpaceRev s2
               else match s2 with
                    | "" => s
                    | String c s3 =>
                        if space3 c b a then trimLeftSpaceRev s3 else s
                    end
           end
  end.

(** [strings.TrimSpace(s)]: leading and trailing Unicode white space
    removed. *)
Definition TrimSpace (s : string) : string :=
  rev (trimLeftSpaceRev (rev (trimLeftSpace s))).

End strings.

Module strconv.

(** [strconv.FormatInt(i, 10)] and [strconv.Itoa]. *)
Definition FormatInt (i : Z) : string :=
  NilZero.string_of_int (Z.to_int i).

Definition Itoa (i : Z) : string := FormatInt i.

(** The value of a decimal digit byte. *)
Definition digit (c : ascii) : option Z :=
  let n := Z.of_nat (nat_of_ascii c) in
  if (48 <=? n) && (n <=? 57) then Some (n - 48) else None.

(** The loop of [strconv.ParseUint] in base 10: [None] is a syntax error
    (a byte that is not a decimal digit) or a range error (the value
    exceeds [maxVal]). *)
Fixpoint parseUintLoop (s : string) (maxVal n : Z) : option Z :=
  match s with
  | "" => Some n
  | String c s' =>
      match digit c with
      | None => None
      | Some d =>
          let n1 := n * 10 + d in
          if maxVal <? n1 then None else parseUintLoop s' maxVal n1
      end
  end.

(** [strconv.ParseUint(s, 10, bitSize)] for [0 < bitSize <= 64]; [None]
    is a non-nil error.  The empty string is a syntax error; no sign is
    accepted. *)
Definition ParseUint (s : string) (bitSize : Z) : option Z :=
  if String.eqb s "" then None
  else parseUintLoop s (2 ^ bitSize - 1) 0.

End strconv.

Module regexp.

(** [regexp.MustCompile(`{([^}]+)}`).ReplaceAllString(src, repl)] for a
    replacement without [$]: every leftmost match of an opening brace,
    one or more bytes other than the closing brace, and a closing brace
    is replaced by [repl].  [open] is [None] outside braces and
    [Some buf] after an opening brace followed by the bytes [buf]. *)
Fixpoint replaceAllParams (src repl : string) (open : option string)
  : string :=
  match src with
  | "" =>
      match open with
      | None => ""
      | Some buf => String "{" buf
      end
  | String c s' =>
      match open with
      | None =>
          if Ascii.eqb c "{"
          then replaceAllParams s' repl (Some "")
          else String c (replaceAllParams s' repl None)
      | Some buf =>
          if Ascii.eqb c "}"
          then match buf with
               | "" => "{}" ++ replaceAllParams s' repl None
               | _ => repl ++ replaceAllParams s' repl None
               end
          else replaceAllParams s' repl (Some (buf ++ String c ""))
      end
  end.

Definition ReplaceAllString (src repl : string) : string :=
  replaceAllParams src repl None.

End regexp.

(** *** Path and name construction *)

Module envoyconf_paths.
Import strings.

Definition getClusterName (epPrefix organizationID vHost swaggerTitle
                           swaggerVersion resourceID : string) : string :=
  if negb (String.eqb resourceID "")
  then TrimSpace (organizationID ++ "_" ++ epPrefix ++ "_" ++ vHost ++ "_"
                  ++ Replace swaggerTitle " " "" (-1) ++ swaggerVersion)
       ++ "_" ++ Replace resourceID " " "" (-1) ++ "0"
  else TrimSpace (organizationID ++ "_" ++ epPrefix ++ "_" ++ vHost ++ "_"
                  ++ Replace swaggerTitle " " "" (-1) ++ swaggerVersion).

Definition pathParaRegex : string := "([^/]+)".
Definition wildCardRegex : string := "((/(.*))*)".
Definition trailingSlashRegex : string := "(/{0,1})".

Definition generatePathRegexSegment (resourcePath : string) : string :=
  let resourceRegex := regexp.ReplaceAllString resourcePath pathParaRegex in
  if HasSuffix resourceRegex "/*"
  then TrimSuffix resourceRegex "/*" ++ wildCardRegex
  else TrimSuffix resourceRegex "/" ++ trailingSlashRegex.

(** The [for] loop of [generateSubstitutionString]: while a
    [pathParaRegex] remains, number its first occurrence.  [fuel] bounds
    the iterations; [substituteParams_enough_fuel] shows that the length
    of the string is enough, so the loop always leaves through its
    [break]. *)
Fixpoint substituteParams (fuel : nat) (resourceRegex : string)
                          (pathParamIndex : Z) : string :=
  match fuel with
  | O => resourceRegex
  | S fuel' =>
      if negb (Contains resourceRegex pathParaRegex) then resourceRegex
      else
        let pathParamIndex := pathParamIndex + 1 in
        substituteParams fuel'
          (Replace resourceRegex pathParaRegex
                   ("\" ++ strconv.Itoa pathParamIndex) 1)
          pathParamIndex
  end.

Definition generateSubstitutionString (resourcePath endpointBasepath : string)
  : string :=
  let resourceRegex := generatePathRegexSegment resourcePath in
  let resourceRegex :=
    substituteParams (S (String.length resourceRegex)) resourceRegex 0 in
  let resourceRegex :=
    if HasSuffix resourceRegex wildCardRegex
    then TrimSuffix resourceRegex wildCardRegex
    else if HasSuffix resourcePath "/"
         then TrimSuffix resourceRegex trailingSlashRegex ++ "/"
         else TrimSuffix resourceRegex trailingSlashRegex in
  endpointBasepath ++ resourceRegex.

Definition getFilteredBasePath (xWso2Basepath basePath : string) : string :=
  let modifiedBasePath :=
    if negb (String.eqb (TrimSpace xWso2Basepath) "")
    then xWso2Basepath else basePath in
  let modifiedBasePath :=
    if negb (HasPrefix modifiedBasePath "/")
    then "/" ++ modifiedBasePath else modifiedBasePath in
  TrimSuffix modifiedBasePath "/".

Definition generateRegex (fullpath : string) : string :=
  let endRegex := "(\?([^/]+))?" in
  let newPath := generatePathRegexSegment fullpath in
  "^" ++ newPath ++ endRegex ++ "$".

(** [strings.Split(resourcePath, "?")[0]] under the guard
    [strings.Contains(resourcePath, "?")]. *)
Definition dropQuery (resourcePath : string) : string :=
  if Contains resourcePath "?"
  then hd "" (Split resourcePath "?")
  else resourcePath.

Definition generateRoutePath (basePath resourcePath : string) : string :=
  let resourcePath := dropQuery resourcePath in
  let fullpath := basePath ++ resourcePath in
  generateRegex fullpath.

Definition getDefaultVersionBasepath (basePath version : string) : string :=
  let indexOfVersionString := LastIndex basePath ("/" ++ version) in
  let context := Replace basePath ("/" ++ version) "" indexOfVersionString in
  "(?:" ++ basePath ++ "|" ++ context ++ ")".

End envoyconf_paths.

(** *** Machine integers and execution outcomes *)

(** Two's-complement wrap-around of Go's [int64] and [int32] arithmetic. *)
Definition wrap64 (z : Z) : Z := (z + 2 ^ 63) mod 2 ^ 64 - 2 ^ 63.
Definition wrap32 (z : Z) : Z := (z + 2 ^ 31) mod 2 ^ 32 - 2 ^ 31.

(** The conversion [uint32(x)] of an integer of any width: its low 32
    bits. *)
Definition uint32 (z : Z) : Z := z mod 2 ^ 32.

(** [time.Second] and [time.Millisecond] in nanoseconds. *)
Definition Second : Z := 1000000000.
Definition Millisecond : Z := 1000000.

(** [d * e] on [time.Duration] (an [int64]). *)
Definition durationMul (d e : Z) : Z := wrap64 (d * e).

(** [Duration.Milliseconds]: [int64(d) / 1e6], truncating. *)
Definition Milliseconds (d : Z) : Z := Z.quot d 1000000.

(** A Go call either returns or panics at run time (index out of range,
    nil dereference). *)
Inductive exec (A : Type) : Type :=
| Return (a : A)
| Panic (msg : string).
Arguments Return {A} a.
Arguments Panic {A} msg.

Global Instance exec_bind : MBind exec :=
  fun A B (k : A -> exec B) (m : exec A) =>
    match m with
    | Return a => k a
    | Panic msg => Panic msg
    end.

Global Instance exec_ret : MRet exec := fun A a => Return a.

(** [s[0]] on a slice. *)
Definition index0 {A : Type} (s : list A) : exec A :=
  match s with
  | x :: _ => Return x
  | [] => Panic "index out of range [0] with length 0"
  end.

(** *** The API model (package [model]) *)

(** Vendor extensions ([map[string]interface{}]): only accessors of
    package [model] look inside the values, which are kept here in their
    serialized form. *)
Definition VendorExtensions : Type := gmap string string.

Record Endpoint : Type := {
  Host : string;
  Basepath : string;
  URLType : string;
  Port : Z;
  ServiceDiscoveryString : string;
  RawURL : string
}.

Record CircuitBreakers : Type := {
  MaxConnections : Z;
  MaxRequests : Z;
  MaxPendingRequests : Z;
  MaxRetries : Z;
  MaxConnectionPools : Z
}.

Record RetryConfig : Type := {
  Count : Z;
  StatusCodes : list Z
}.

Record EndpointConfig : Type := {
  RetryConfigOf : option RetryConfig;
  CircuitBreakersOf : option CircuitBreakers
}.

Record EndpointCluster : Type := {
  EndpointPrefix : string;
  Endpoints : list Endpoint;
  EndpointType : string;
  Config : option EndpointConfig;
  HTTP2BackendEnabled : bool
}.

Definition setHTTP2BackendEnabled (c : EndpointCluster) (b : bool)
  : EndpointCluster :=
  {| EndpointPrefix := EndpointPrefix c;
     Endpoints := Endpoints c;
     EndpointType := EndpointType c;
     Config := Config c;
     HTTP2BackendEnabled := b |}.

(** Modelled from the spec: the payload inclusions of an interceptor
    ("includes (set of optional payload inclusions)"); the struct
    [interceptor.RequestInclusions] is declared outside the translated
    file. *)
Definition RequestInclusions : Type := gset string.

Record InterceptEndpoint : Type := {
  Enable : bool;
  Level : string;
  InterceptCluster : EndpointCluster;
  ClusterName : string;
  ClusterTimeout : Z;
  RequestTimeout : Z;
  Includes : RequestInclusions
}.

(** The zero value [model.InterceptEndpoint{}]. *)
Definition InterceptEndpoint_zero : InterceptEndpoint :=
  {| Enable := false; Level := "";
     InterceptCluster :=
       {| EndpointPrefix := ""; Endpoints := []; EndpointType := "";
          Config := None; HTTP2BackendEnabled := false |};
     ClusterName := ""; ClusterTimeout := 0; RequestTimeout := 0;
     Includes := ∅ |}.

Definition setClusterName (i : InterceptEndpoint) (n : string)
  : InterceptEndpoint :=
  {| Enable := Enable i; Level := Level i;
     InterceptCluster := InterceptCluster i;
     ClusterName := n; ClusterTimeout := ClusterTimeout i;
     RequestTimeout := RequestTimeout i; Includes := Includes i |}.

Record CorsConfig : Type := {
  CorsEnabled : bool;
  AccessControlAllowCredentials : bool;
  AccessControlAllowHeaders : list string;
  AccessControlAllowMethods : list string;
  AccessControlAllowOrigins : list string;
  AccessControlExposeHeaders : list string
}.

(** A resource; [GetMethodList], [GetRewriteResource] and the operations
    behind [GetMethod] are results of accessors of package [model] and
    are carried as fields. *)
Record Resource : Type := {
  resourceID : string;
  resourcePath : string;
  resourceMethodList : list string;
  resourceProdEndpoints : option EndpointCluster;
  resourceSandEndpoints : option EndpointCluster;
  resourceVendorExtensions : VendorExtensions;
  resourceOperations : list (string * VendorExtensions);
  resourceRewritePath : string;
  resourceRewriteMethod : bool
}.

Record MgwSwagger : Type := {
  swaggerID : string;
  swaggerTitle : string;
  swaggerVersion : string;
  swaggerAPIType : string;
  swaggerXWso2Basepath : string;
  swaggerXWSO2AuthHeader : string;
  swaggerProdEndpoints : option EndpointCluster;
  swaggerSandEndpoints : option EndpointCluster;
  swaggerXWso2Endpoints : gmap string EndpointCluster;
  swaggerVendorExtensions : VendorExtensions;
  swaggerCorsConfig : option CorsConfig;
  swaggerResources : list Resource;
  swaggerXWso2HTTP2BackendEnabled : bool;
  swaggerXWso2RequestBodyPass : bool;
  IsDefaultVersion : bool
}.

(** *** The proxy configuration (xDS messages, the fields the translation
    sets) *)

Record Address : Type := {
  SocketAddress : string;
  PortValue : Z
}.

Inductive TlsProtocol : Type :=
| TLS_AUTO | TLSv1_0 | TLSv1_1 | TLSv1_2 | TLSv1_3.

Inductive SanType : Type := SAN_IP_ADDRESS | SAN_DNS.

Inductive DataSource : Type :=
| InlineBytes (b : list Byte.byte)
| Filename (f : string).

Record UpstreamTlsContext : Type := {
  TlsMinimumProtocolVersion : TlsProtocol;
  TlsMaximumProtocolVersion : TlsProtocol;
  CipherSuites : list string;
  TlsCertificates : list (string * string);
  AlpnProtocols : list string;
  Sni : string;
  TrustedCa : option DataSource;
  MatchTypedSubjectAltNames : list (SanType * string)
}.

Record TransportSocketMatch : Type := {
  tsmName : string;
  tsmLbID : string;
  tsmTransportSocketName : string;
  tsmTypedConfig : list Byte.byte
}.

Record LocalityLbEndpoints : Type := {
  Priority : Z;
  LbEndpointAddress : Address;
  LbEndpointLbID : option string
}.

Inductive HttpProtocolOptions : Type :=
| Http1ProtocolOptions (enableTrailers : bool)
| Http2ProtocolOptions (hpackTableSize maxConcurrentStreams : Z).

Record HealthCheck : Type := {
  hcTimeout : Z;
  hcInterval : Z;
  hcUnhealthyThreshold : Z;
  hcHealthyThreshold : Z
}.

Record Thresholds : Type := {
  thMaxConnections : option Z;
  thMaxConnectionPools : option Z;
  thMaxPendingRequests : option Z;
  thMaxRequests : option Z;
  thMaxRetries : option Z
}.

Record Cluster : Type := {
  clName : string;
  clConnectTimeout : Z;
  clLoadAssignment : list LocalityLbEndpoints;
  clTransportSocketMatches : list TransportSocketMatch;
  clDnsRefreshRate : Z;
  clRespectDnsTtl : bool;
  clHttpProtocolOptions : HttpProtocolOptions;
  clHealthChecks : list HealthCheck;
  clCircuitBreakers : option Thresholds
}.

Inductive StringMatcher : Type :=
| SafeRegex (regex : string)
| Exact (value : string).

Record HeaderMatcher : Type := {
  hmName : string;
  hmStringMatch : StringMatcher
}.

Record RouteMatch : Type := {
  rmSafeRegex : string;
  rmHeaders : list HeaderMatcher
}.

Record RegexMatchAndSubstitute : Type := {
  rwPattern : string;
  rwSubstitution : string
}.

Record RetryPolicy : Type := {
  RetryOn : string;
  NumRetries : Z;
  RetriableStatusCodes : list Z;
  RetryBackOffBaseIntervalNanos : Z
}.

Record CorsPolicy : Type := {
  AllowOriginStringMatch : list string;
  AllowMethods : string;
  AllowHeaders : string;
  ExposeHeaders : string;
  AllowCredentials : bool
}.

Record RouteAction : Type := {
  AutoHostRewrite : bool;
  RegexRewrite : option RegexMatchAndSubstitute;
  UpgradeConfigs : list (string * bool);
  MaxStreamDuration : option Z;
  raTimeout : option Z;
  raIdleTimeout : option Z;
  ClusterHeader : string;
  raRetryPolicy : option RetryPolicy;
  raCors : option CorsPolicy
}.

Record ExtAuthzPerRoute : Type := {
  ContextExtensions : gmap string string;
  DisableRequestBodyBuffering : bool
}.

Inductive LuaPerRoute : Type :=
| LuaDisabled
| LuaInlineString (script : string).

Record Route : Type := {
  rtName : string;
  rtMatch : RouteMatch;
  rtAction : RouteAction;
  rtDecorator : option string;
  rtExtAuthz : ExtAuthzPerRoute;
  rtLua : LuaPerRoute;
  rtResponseHeadersToRemove : list string;
  rtRequestHeadersToRemove : list string
}.

(** *** Interceptor template values (package [interceptor]) *)

Record WireLogConfig : Type := {
  LogBodyEnabled : bool;
  LogHeadersEnabled : bool;
  LogTrailersEnabled : bool
}.

Record InvocationContext : Type := {
  icOrganizationID : string;
  icBasePath : string;
  icSupportedMethods : string;
  icAPIName : string;
  icAPIVersion : string;
  icPathTemplate : string;
  icVhost : string;
  icProdClusterName : string;
  icSandClusterName : string
}.

Record HTTPCallConfig : Type := {
  callClusterName : string;
  callTimeout : string
}.

Record InterceptorConfig : Type := {
  ExternalCall : HTTPCallConfig;
  Include : RequestInclusions
}.

Record Interceptor : Type := {
  InvocationCtx : InvocationContext;
  RequestFlow : gmap string InterceptorConfig;
  ResponseFlow : gmap string InterceptorConfig;
  IsRequestFlowEnabled : bool;
  IsResponseFlowEnabled : bool
}.

Record CombinedTemplateValues : Type := {
  ctvLogConfig : WireLogConfig;
  ctvInterceptor : Interceptor
}.

(** *** What the translation takes from its environment *)

(** The values of [config.ReadConfigs()] and [config.ReadLogConfigs()]
    the translation reads. *)
Record AdapterConfig : Type := {
  ClusterTimeoutInSeconds : Z;
  WireLogsEnable : bool;
  WireLog : WireLogConfig;
  HpackTableSize : Z;
  MaxConcurrentStreams : Z;
  DNSRefreshRate : Z;
  RespectDNSTtl : bool;
  HealthTimeout : Z;
  HealthInterval : Z;
  HealthUnhealthyThreshold : Z;
  HealthHealthyThreshold : Z;
  KeyPath : string;
  CertPath : string;
  Ciphers : string;
  MinimumProtocolVersion : string;
  MaximumProtocolVersion : string;
  DisableSslVerification : bool;
  TrustedCertPath : string;
  VerifyHostName : bool;
  RouteTimeoutInSeconds : Z;
  RouteIdleTimeoutInSeconds : Z;
  RetryStatusCodes : list Z;
  RetryBaseIntervalInMillis : Z
}.

(** String constants of the package that are declared in another file. *)
Record Constants : Type := {
  xWso2EPClustersConfigNamePrefix : string;
  xWso2requestInterceptor : string;
  xWso2responseInterceptor : string;
  APILevelInterceptor : string;
  ResourceLevelInterceptor : string;
  OperationLevelInterceptor : string;
  requestInterceptClustersNamePrefix : string;
  responseInterceptClustersNamePrefix : string;
  transportSocketName : string;
  retryPolicyRetriableStatusCodes : string;
  pathContextExtension : string;
  vHostContextExtension : string;
  basePathContextExtension : string;
  methodContextExtension : string;
  apiVersionContextExtension : string;
  apiNameContextExtension : string;
  prodClusterNameContextExtension : string;
  sandClusterNameContextExtension : string
}.

(** Functions of other packages the translation calls. *)
Record Externals : Type := {
  (** [MgwSwagger.GetInterceptor(vendorExtensions, extensionName, level)] *)
  GetInterceptor : VendorExtensions -> string -> string -> InterceptEndpoint;
  (** [MgwSwagger.GetOperationInterceptors(api, resource, operations,
      isRequestFlow)] *)
  GetOperationInterceptors :
    InterceptEndpoint -> InterceptEndpoint -> list (string * VendorExtensions)
    -> bool -> gmap string InterceptEndpoint;
  (** [net.ParseIP(s) != nil] *)
  ParseIP : string -> bool;
  (** [generateTLSCert(keyPath, certPath)] *)
  generateTLSCert : string -> string -> string * string;
  (** [anypb.New] on an upstream TLS context; [None] is its error. *)
  marshalTLSContext : UpstreamTlsContext -> option (list Byte.byte);
  (** [interceptor.GetTemplate(isRequestFlow, isResponseFlow)] *)
  GetTemplate : bool -> bool -> string;
  (** [interceptor.GetInterceptor(values, template)] at its two value
      types *)
  renderInterceptor : CombinedTemplateValues -> string -> string;
  renderWireLog : WireLogConfig -> string -> string
}.

Record Env : Type := {
  conf : AdapterConfig;
  consts : Constants;
  ext : Externals
}.

(** Modelled from the spec: the header and type names the spec gives for
    constants declared outside the translated file: the [:method]
    pseudo-header, the cluster-selector header [x-wso2-cluster-header],
    the [x-envoy-upstream-service-time] response header, the TLS-bearing
    schemes [https] and [wss], and the API type [WS]. *)
Definition httpMethodHeader : string := ":method".
Definition clusterHeaderName : string := "x-wso2-cluster-header".
Definition upstreamServiceTimeHeader : string :=
  "x-envoy-upstream-service-time".
Definition httpsURLType : string := "https".
Definition wssURLType : string := "wss".
Definition WS : string := "WS".

(** The process-wide registry [svcdiscovery.ClusterConsulKeyMap]. *)
Definition ConsulKeyMap : Type := gmap string string.

(** *** Endpoint Compiler *)

Module envoyconf_clusters.
Import strings.

Definition createAddress (remoteHost : string) (port : Z) : Address :=
  {| SocketAddress := remoteHost; PortValue := port |}.

Definition createTLSProtocolVersion (tlsVersion : string) : TlsProtocol :=
  if String.eqb tlsVersion "TLS1_0" then TLSv1_0
  else if String.eqb tlsVersion "TLS1_1" then TLSv1_1
  else if String.eqb tlsVersion "TLS1_2" then TLSv1_2
  else if String.eqb tlsVersion "TLS1_3" then TLSv1_3
  else TLS_AUTO.

Definition createHealthCheck (env : Env) : list HealthCheck :=
  [ {| hcTimeout := durationMul (HealthTimeout (conf env)) Second;
       hcInterval := durationMul (HealthInterval (conf env)) Second;
       hcUnhealthyThreshold := uint32 (HealthUnhealthyThreshold (conf env));
       hcHealthyThreshold := uint32 (HealthHealthyThreshold (conf env)) |} ].

(** The configuration is taken as readable ([errReadConfig == nil]). *)
Definition createUpstreamTLSContext (env : Env)
    (upstreamCerts : list Byte.byte) (address : Address)
    (hTTP2BackendEnabled : bool) : UpstreamTlsContext :=
  let c := conf env in
  let tlsCert := generateTLSCert (ext env) (KeyPath c) (CertPath c) in
  let ciphersArray := map TrimSpace (Split (Ciphers c) ",") in
  let isHostname := negb (ParseIP (ext env) (SocketAddress address)) in
  let sanType := if isHostname then SAN_DNS else SAN_IP_ADDRESS in
  {| TlsMinimumProtocolVersion :=
       createTLSProtocolVersion (MinimumProtocolVersion c);
     TlsMaximumProtocolVersion :=
       createTLSProtocolVersion (MaximumProtocolVersion c);
     CipherSuites := ciphersArray;
     TlsCertificates := [tlsCert];
     AlpnProtocols := if hTTP2BackendEnabled then ["h2"; "http/1.1"] else [];
     Sni := if isHostname then SocketAddress address else "";
     TrustedCa :=
       if negb (DisableSslVerification c)
       then Some (if (0 <? length upstreamCerts)%nat
                  then InlineBytes upstreamCerts
                  else Filename (TrustedCertPath c))
       else None;
     MatchTypedSubjectAltNames :=
       if VerifyHostName c && negb (DisableSslVerification c)
       then [(sanType, SocketAddress address)]
       else [] |}.

(** The variables the [for] loop of [processEndpoints] updates. *)
Record EndpointsAcc : Type := {
  accAddresses : list Address;
  accLbEPs : list LocalityLbEndpoints;
  accTransportSocketMatches : list TransportSocketMatch;
  accPriority : Z
}.

(** The body of the loop over [clusterDetails.Endpoints]; [inl] is an
    early [return nil, nil, err]. *)
Fixpoint endpointsLoop (env : Env) (clusterDetails : EndpointCluster)
    (upstreamCerts : gmap string (list Byte.byte)) (basePath : string)
    (i : Z) (eps : list Endpoint) (acc : EndpointsAcc)
  : string + EndpointsAcc :=
  match eps with
  | [] => inr acc
  | ep :: rest =>
      if negb (String.eqb (TrimSuffix (Basepath ep) "/") basePath)
      then inl ("endpoint basepath mismatched for " ++ RawURL ep
                ++ ". expected : " ++ basePath ++ " but found : "
                ++ Basepath ep)
      else
        let address := createAddress (Host ep) (Port ep) in
        let addresses := (accAddresses acc ++ [address])%list in
        let next (tsm : list TransportSocketMatch) (lbID : option string) :=
          endpointsLoop env clusterDetails upstreamCerts basePath (i + 1) rest
            {| accAddresses := addresses;
               accLbEPs :=
                 (accLbEPs acc
                  ++ [ {| Priority := accPriority acc;
                          LbEndpointAddress := address;
                          LbEndpointLbID := lbID |} ])%list;
               accTransportSocketMatches := tsm;
               accPriority :=
                 if HasPrefix (EndpointType clusterDetails) "failover"
                 then accPriority acc + 1 else accPriority acc |} in
        if HasPrefix (URLType ep) httpsURLType
           || HasPrefix (URLType ep) wssURLType
        then
          let epCert :=
            match upstreamCerts !! RawURL ep with
            | Some cert => cert
            | None => default [] (upstreamCerts !! "default")
            end in
          let upstreamtlsContext :=
            createUpstreamTLSContext env epCert address
              (HTTP2BackendEnabled clusterDetails) in
          match marshalTLSContext (ext env) upstreamtlsContext with
          | None =>
              inl "internal Error while marshalling the upstream TLS Context"
          | Some marshalledTLSContext =>
              next (accTransportSocketMatches acc
                    ++ [ {| tsmName := ("ts" ++ strconv.Itoa i)%string;
                            tsmLbID := strconv.Itoa i;
                            tsmTransportSocketName :=
                              transportSocketName (consts env);
                            tsmTypedConfig := marshalledTLSContext |} ])%list
                   (Some (strconv.Itoa i))
          end
        else next (accTransportSocketMatches acc) None
  end.

Definition positive (z : Z) : option Z := if 0 <? z then Some z else None.

Definition circuitBreakerThresholds (cb : CircuitBreakers) : Thresholds :=
  {| thMaxConnections := positive (MaxConnections cb);
     thMaxConnectionPools := positive (MaxConnectionPools cb);
     thMaxPendingRequests := positive (MaxPendingRequests cb);
     thMaxRequests := positive (MaxRequests cb);
     thMaxRetries := positive (MaxRetries cb) |}.

(** [processEndpoints]: [inl err] is the returned error, [inr] the
    cluster and addresses together with the discovery registry the call
    leaves behind; [Panic] is the run-time panic of indexing
    [Endpoints[0]] of an empty list. *)
Definition processEndpoints (env : Env) (registry : ConsulKeyMap)
    (clusterName : string) (clusterDetails : EndpointCluster)
    (upstreamCerts : gmap string (list Byte.byte)) (timeout : Z)
    (basePath : string)
  : exec (string + (Cluster * list Address * ConsulKeyMap)) :=
  match endpointsLoop env clusterDetails upstreamCerts basePath 0
          (Endpoints clusterDetails)
          {| accAddresses := []; accLbEPs := [];
             accTransportSocketMatches := []; accPriority := 0 |} with
  | inl err => Return (inl err)
  | inr acc =>
      let c := conf env in
      let httpProtocolOptions :=
        if HTTP2BackendEnabled clusterDetails
        then Http2ProtocolOptions (HpackTableSize c) (MaxConcurrentStreams c)
        else Http1ProtocolOptions (LogTrailersEnabled (WireLog c)) in
      let cluster :=
        {| clName := clusterName;
           clConnectTimeout := durationMul timeout Second;
           clLoadAssignment := accLbEPs acc;
           clTransportSocketMatches := accTransportSocketMatches acc;
           clDnsRefreshRate := durationMul (DNSRefreshRate c) Millisecond;
           clRespectDnsTtl := RespectDNSTtl c;
           clHttpProtocolOptions := httpProtocolOptions;
           clHealthChecks :=
             if (1 <? length (Endpoints clusterDetails))%nat
             then createHealthCheck env else [];
           clCircuitBreakers :=
             match Config clusterDetails with
             | Some cfg =>
                 match CircuitBreakersOf cfg with
                 | Some cb => Some (circuitBreakerThresholds cb)
                 | None => None
                 end
             | None => None
             end |} in
      ep0 ← index0 (Endpoints clusterDetails);
      let serviceDiscoveryString := ServiceDiscoveryString ep0 in
      let registry :=
        if negb (String.eqb serviceDiscoveryString "")
        then <[clusterName := serviceDiscoveryString]> registry
        else registry in
      Return (inr (cluster, accAddresses acc, registry))
  end.

(** [CreateLuaCluster]: the base path argument [Endpoints[0].Basepath]
    is evaluated before the call. *)
Definition CreateLuaCluster (env : Env) (registry : ConsulKeyMap)
    (interceptorCerts : gmap string (list Byte.byte))
    (endpoint : InterceptEndpoint)
  : exec (string + (Cluster * list Address * ConsulKeyMap)) :=
  ep0 ← index0 (Endpoints (InterceptCluster endpoint));
  processEndpoints env registry (ClusterName endpoint)
    (InterceptCluster endpoint) interceptorCerts (ClusterTimeout endpoint)
    (Basepath ep0).

End envoyconf_clusters.

(** *** Route Compiler *)

Record routeCreateParams : Type := {
  organizationID : string;
  title : string;
  apiType : string;
  version : string;
  vHost : string;
  xWSO2BasePath : string;
  AuthHeader : string;
  prodClusterName : string;
  sandClusterName : string;
  endpointBasePath : string;
  corsPolicy : option CorsConfig;
  resourcePathParam : string;
  resourceMethods : list string;
  requestInterceptor : gmap string InterceptEndpoint;
  responseInterceptor : gmap string InterceptEndpoint;
  rewritePath : string;
  rewriteMethod : bool;
  passRequestPayloadToEnforcer : bool;
  isDefaultVersion : bool;
  isSandbox : bool;
  prodRouteConfig : option EndpointConfig;
  sandRouteConfig : option EndpointConfig
}.

Module envoyconf_routes.
Import strings envoyconf_paths.

Definition tab : string := String (ascii_of_nat 9) "".
Definition nl : string := String (ascii_of_nat 10) "".
Definition dq : string := String (ascii_of_nat 34) "".

(** The template literal of the wire-log Lua script. *)
Definition wireLogTemplate : string :=
  let q (s : string) := dq ++ s ++ dq in
  Join
    [ "";
      "local utils = require 'home.wso2.interceptor.lib.utils'";
      "local wire_log_config = {";
      tab ++ "log_body_enabled = {{ .LogConfig.LogBodyEnabled }},";
      tab ++ "log_headers_enabled = {{ .LogConfig.LogHeadersEnabled }},";
      tab ++ "log_trailers_enabled = {{ .LogConfig.LogTrailersEnabled }}";
      "}";
      "function envoy_on_request(request_handle)";
      tab ++ "utils.wire_log(request_handle, " ++ q " >> request body >> "
      ++ ", " ++ q " >> request headers >> " ++ ", "
      ++ q " >> request trailers >> " ++ ", wire_log_config)";
      "end";
      "";
      "function envoy_on_response(response_handle)";
      tab ++ "utils.wire_log(response_handle, " ++ q " << response body << "
      ++ ", " ++ q " << response headers << " ++ ", "
      ++ q " << response trailers << " ++ ", wire_log_config)";
      "end" ] nl.

Definition quoteMetaChar (a : ascii) : bool :=
  match a with
  | "\" | "." | "+" | "*" | "?" | "(" | ")" | "|" | "[" | "]" | "{" | "}"
  | "^" | "$" => true
  | _ => false
  end%char.

(** [regexp.QuoteMeta]. *)
Fixpoint QuoteMeta (s : string) : string :=
  match s with
  | "" => ""
  | String a s' =>
      if quoteMetaChar a then String "\" (String a (QuoteMeta s'))
      else String a (QuoteMeta s')
  end.

Definition getUpgradeConfig (apiType : string) : list (string * bool) :=
  if String.eqb apiType WS then [("websocket", true)]
  else [("websocket", false)].

Definition getMaxStreamDuration (apiType : string) : option Z :=
  if String.eqb apiType WS then Some (60 * 60 * 24) else None.

Definition getDefaultResourceMethods (apiType : string) : list string :=
  if String.eqb apiType WS then ["GET"] else [].

Definition getCorsPolicy (corsConfig : option CorsConfig)
  : option CorsPolicy :=
  match corsConfig with
  | None => None
  | Some cc =>
      if negb (CorsEnabled cc) then None
      else
        Some {| AllowOriginStringMatch :=
                  map QuoteMeta (AccessControlAllowOrigins cc);
                AllowMethods := Join (AccessControlAllowMethods cc) ", ";
                AllowHeaders := Join (AccessControlAllowHeaders cc) ", ";
                ExposeHeaders := Join (AccessControlExposeHeaders cc) ", ";
                AllowCredentials := AccessControlAllowCredentials cc |}
  end.

Definition genRouteCreateParams (swagger : MgwSwagger)
    (resource : option Resource) (vHost endpointBasePath : string)
    (prodClusterName sandClusterName : string)
    (requestInterceptor responseInterceptor : gmap string InterceptEndpoint)
    (organizationID : string) (isSandbox : bool) : routeCreateParams :=
  {| organizationID := organizationID;
     title := swaggerTitle swagger;
     apiType := swaggerAPIType swagger;
     version := swaggerVersion swagger;
     vHost := vHost;
     xWSO2BasePath := swaggerXWso2Basepath swagger;
     AuthHeader := swaggerXWSO2AuthHeader swagger;
     prodClusterName := prodClusterName;
     sandClusterName := sandClusterName;
     endpointBasePath := endpointBasePath;
     corsPolicy := swaggerCorsConfig swagger;
     resourcePathParam :=
       match resource with Some r => resourcePath r | None => "" end;
     resourceMethods :=
       match resource with
       | Some r => resourceMethodList r
       | None => getDefaultResourceMethods (swaggerAPIType swagger)
       end;
     requestInterceptor := requestInterceptor;
     responseInterceptor := responseInterceptor;
     rewritePath :=
       match resource with Some r => resourceRewritePath r | None => "" end;
     rewriteMethod :=
       match resource with
       | Some r => resourceRewriteMethod r
       | None => false
       end;
     passRequestPayloadToEnforcer := swaggerXWso2RequestBodyPass swagger;
     isDefaultVersion := IsDefaultVersion swagger;
     isSandbox := isSandbox;
     prodRouteConfig :=
       match swaggerProdEndpoints swagger with
       | Some e => Config e
       | None => None
       end;
     sandRouteConfig :=
       match swaggerSandEndpoints swagger with
       | Some e => Config e
       | None => None
       end |}.

(** The [Timeout] string of an interceptor call:
    [strconv.FormatInt((op.RequestTimeout * time.Second).Milliseconds(), 10)]. *)
Definition interceptorTimeout (requestTimeout : Z) : string :=
  strconv.FormatInt (Milliseconds (durationMul requestTimeout Second)).

Definition interceptorConfig (op : InterceptEndpoint) : InterceptorConfig :=
  {| ExternalCall := {| callClusterName := ClusterName op;
                        callTimeout := interceptorTimeout (RequestTimeout op) |};
     Include := Includes op |}.

(** The [interceptor.Interceptor] value [getInlineLuaScript] fills: one
    [Config] per method of each flow, the flow enabled when its map is
    non-empty. *)
Definition buildInterceptor
    (requestInterceptor responseInterceptor : gmap string InterceptEndpoint)
    (requestContext : InvocationContext) : Interceptor :=
  {| InvocationCtx := requestContext;
     RequestFlow := interceptorConfig <$> requestInterceptor;
     ResponseFlow := interceptorConfig <$> responseInterceptor;
     IsRequestFlowEnabled := (0 <? size requestInterceptor)%nat;
     IsResponseFlowEnabled := (0 <? size responseInterceptor)%nat |}.

Definition getInlineLuaScript (env : Env)
    (requestInterceptor responseInterceptor : gmap string InterceptEndpoint)
    (requestContext : InvocationContext) : string :=
  let i := buildInterceptor requestInterceptor responseInterceptor
             requestContext in
  let templateValues :=
    {| ctvLogConfig := WireLog (conf env); ctvInterceptor := i |} in
  let templateString :=
    GetTemplate (ext env) (IsRequestFlowEnabled i) (IsResponseFlowEnabled i) in
  renderInterceptor (ext env) templateValues templateString.

(** [m[k]] on a [map[string]string]. *)
Definition mapGet (m : gmap string string) (k : string) : string :=
  default "" (m !! k).

(** The header matchers [createRoute] puts on the route match. *)
Definition routeHeaders (params : routeCreateParams) : list HeaderMatcher :=
  if negb (rewriteMethod params) then
    let methodRegex := Join (resourceMethods params) "|" in
    let methodRegex :=
      if negb (Contains methodRegex "OPTIONS")
      then methodRegex ++ "|OPTIONS" else methodRegex in
    let headerMatcherArray :=
      {| hmName := httpMethodHeader;
         hmStringMatch := SafeRegex ("^(" ++ methodRegex ++ ")$") |} in
    if isSandbox params then
      let clusterHeaderMatcher :=
        {| hmName := clusterHeaderName;
           hmStringMatch := Exact (sandClusterName params) |} in
      ([headerMatcherArray] ++ [clusterHeaderMatcher])%list
    else [headerMatcherArray]
  else [].

(** The base path of the route regex: filtered, and aliased for a
    default version. *)
Definition routeBasePath (params : routeCreateParams) : string :=
  let basePath :=
    getFilteredBasePath (xWSO2BasePath params) (endpointBasePath params) in
  if isDefaultVersion params
  then getDefaultVersionBasepath basePath (version params)
  else basePath.

(** The regex to rewrite and its substitution. *)
Definition routeRewrite (params : routeCreateParams) (basePath routePath : string)
  : RegexMatchAndSubstitute :=
  if negb (String.eqb (rewritePath params) "") then
    {| rwPattern := routePath;
       rwSubstitution :=
         if negb (String.eqb (rewritePath params) "/")
         then endpointBasePath params ++ rewritePath params
         else endpointBasePath params |}
  else
    let resourcePath := dropQuery (resourcePathParam params) in
    let resourceRegex := generatePathRegexSegment resourcePath in
    let substitutionString :=
      generateSubstitutionString resourcePath (endpointBasePath params) in
    let resourceRegex :=
      if HasSuffix resourcePath "/*"
      then TrimSuffix resourceRegex "((/(.*))*)" else resourceRegex in
    {| rwPattern := "^" ++ basePath ++ resourceRegex;
       rwSubstitution := substitutionString |}.

Definition createRoute (env : Env) (params : routeCreateParams) : Route :=
  let k := consts env in
  let xWso2Basepath := xWSO2BasePath params in
  let endpointBasepath := endpointBasePath params in
  let basePath := routeBasePath params in
  let routePath := generateRoutePath basePath (resourcePathParam params) in
  let match_ :=
    {| rmSafeRegex := routePath; rmHeaders := routeHeaders params |} in
  let decorator :=
    if negb (String.eqb (TrimSpace routePath) "")
    then Some (vHost params ++ ":" ++ routePath) else None in
  let contextExtensions : gmap string string :=
    <[sandClusterNameContextExtension k := sandClusterName params]>
    (<[prodClusterNameContextExtension k := prodClusterName params]>
    (<[apiNameContextExtension k := title params]>
    (<[apiVersionContextExtension k := version params]>
    (<[methodContextExtension k := Join (resourceMethods params) " "]>
    (<[basePathContextExtension k :=
         if negb (String.eqb xWso2Basepath "")
         then xWso2Basepath else endpointBasepath]>
    (<[vHostContextExtension k := vHost params]>
    (<[pathContextExtension k := resourcePathParam params]> ∅))))))) in
  let extAuthPerFilterConfig :=
    {| ContextExtensions := contextExtensions;
       DisableRequestBodyBuffering :=
         negb (passRequestPayloadToEnforcer params) |} in
  let luaPerFilterConfig :=
    if (size (requestInterceptor params) <? 1)%nat
       && (size (responseInterceptor params) <? 1)%nat
    then
      if WireLogsEnable (conf env)
      then LuaInlineString
             (renderWireLog (ext env) (WireLog (conf env)) wireLogTemplate)
      else LuaDisabled
    else
      let iInvCtx :=
        {| icOrganizationID := organizationID params;
           icBasePath :=
             mapGet contextExtensions (basePathContextExtension k);
           icSupportedMethods :=
             mapGet contextExtensions (methodContextExtension k);
           icAPIName := mapGet contextExtensions (apiNameContextExtension k);
           icAPIVersion :=
             mapGet contextExtensions (apiVersionContextExtension k);
           icPathTemplate :=
             mapGet contextExtensions (pathContextExtension k);
           icVhost := mapGet contextExtensions (vHostContextExtension k);
           icProdClusterName :=
             mapGet contextExtensions (prodClusterNameContextExtension k);
           icSandClusterName :=
             mapGet contextExtensions (sandClusterNameContextExtension k) |} in
      LuaInlineString
        (getInlineLuaScript env (requestInterceptor params)
           (responseInterceptor params) iInvCtx) in
  let hasRetry (c : option EndpointConfig) : bool :=
    match c with
    | Some cfg => bool_decide (is_Some (RetryConfigOf cfg))
    | None => false
    end in
  let action :=
    {| AutoHostRewrite := true;
       RegexRewrite :=
         if negb (String.eqb xWso2Basepath "")
         then Some (routeRewrite params basePath routePath) else None;
       UpgradeConfigs :=
         if negb (String.eqb xWso2Basepath "")
         then getUpgradeConfig (apiType params) else [];
       MaxStreamDuration :=
         if negb (String.eqb xWso2Basepath "")
         then getMaxStreamDuration (apiType params) else None;
       raTimeout :=
         if negb (String.eqb xWso2Basepath "")
         then Some (durationMul (RouteTimeoutInSeconds (conf env)) Second)
         else None;
       raIdleTimeout :=
         if negb (String.eqb xWso2Basepath "")
         then Some (durationMul (RouteIdleTimeoutInSeconds (conf env)) Second)
         else None;
       ClusterHeader := clusterHeaderName;
       raRetryPolicy :=
         if hasRetry (prodRouteConfig params)
            || hasRetry (sandRouteConfig params)
         then Some {| RetryOn := retryPolicyRetriableStatusCodes k;
                      NumRetries := 0;
                      RetriableStatusCodes := RetryStatusCodes (conf env);
                      RetryBackOffBaseIntervalNanos :=
                        wrap32 (wrap32 (RetryBaseIntervalInMillis (conf env))
                                * 1000) |}
         else None;
       raCors := getCorsPolicy (corsPolicy params) |} in
  {| rtName := xWso2Basepath;
     rtMatch := match_;
     rtAction := action;
     rtDecorator := decorator;
     rtExtAuthz := extAuthPerFilterConfig;
     rtLua := luaPerFilterConfig;
     rtResponseHeadersToRemove := [upstreamServiceTimeHeader];
     rtRequestHeadersToRemove :=
       [clusterHeaderName; "x-envoy-expected-rq-timeout-ms"] |}.

End envoyconf_routes.

(** *** API Translator *)

(** The output lists [clusters] and [endpoints] under construction,
    together with the process-wide discovery registry. *)
Record Outputs : Type := {
  outClusters : list Cluster;
  outEndpoints : list Address;
  outRegistry : ConsulKeyMap
}.

(** The API-level variables that are fixed once the resource loop starts. *)
Record ApiScope : Type := {
  apiLevelBasePathProd : string;
  strictBasePath : bool;
  apiLevelClusterNameProd : string;
  apiLevelClusterNameSand : string;
  apiRequestInterceptor : InterceptEndpoint;
  apiResponseInterceptor : InterceptEndpoint
}.

(** The variables the resource loop carries from one resource to the
    next: the outputs and [apiLevelBasePathSand], which an iteration may
    assign. *)
Record LoopState : Type := {
  lsRoutes : list Route;
  lsOut : Outputs;
  lsApiLevelBasePathSand : string
}.

Module envoyconf.
Import strings.
Export envoyconf_paths envoyconf_clusters envoyconf_routes.

Definition CertStore : Type := gmap string (list Byte.byte).

(** [clusters = append(clusters, cluster)] and
    [endpoints = append(endpoints, address...)]. *)
Definition appendCluster (out : Outputs)
    (built : Cluster * list Address * ConsulKeyMap) : Outputs :=
  let '(cluster, address, registry) := built in
  {| outClusters := (outClusters out ++ [cluster])%list;
     outEndpoints := (outEndpoints out ++ address)%list;
     outRegistry := registry |}.

(** [g != nil && len(g.Endpoints) > 0]. *)
Definition available (g : option EndpointCluster) : option EndpointCluster :=
  match g with
  | Some c => if (0 <? length (Endpoints c))%nat then Some c else None
  | None => None
  end.

(** [*g] on a possibly nil pointer. *)
Definition deref {A : Type} (g : option A) : exec A :=
  match g with
  | Some c => Return c
  | None => Panic "invalid memory address or nil pointer dereference"
  end.

Definition isEmpty (s : string) : bool := String.eqb s "".

(** API-level production endpoints: yields [apiLevelBasePathProd] and
    [apiLevelClusterNameProd]. *)
Definition apiLevelProd (env : Env) (mgwSwagger : MgwSwagger)
    (upstreamCerts : CertStore) (vHost organizationID : string)
    (out : Outputs) : exec (string * string * Outputs) :=
  match available (swaggerProdEndpoints mgwSwagger) with
  | Some g =>
      let apiLevelEndpointProd :=
        setHTTP2BackendEnabled g (swaggerXWso2HTTP2BackendEnabled mgwSwagger) in
      ep0 ← index0 (Endpoints apiLevelEndpointProd);
      let apiLevelBasePathProd := TrimSuffix (Basepath ep0) "/" in
      let apiLevelClusterNameProd :=
        getClusterName (EndpointPrefix apiLevelEndpointProd) organizationID
          vHost (swaggerTitle mgwSwagger) (swaggerVersion mgwSwagger) "" in
      if negb (Contains (EndpointPrefix apiLevelEndpointProd)
                 (xWso2EPClustersConfigNamePrefix (consts env)))
      then
        r ← processEndpoints env (outRegistry out) apiLevelClusterNameProd
              apiLevelEndpointProd upstreamCerts
              (ClusterTimeoutInSeconds (conf env)) apiLevelBasePathProd;
        match r with
        | inl _ => Return (apiLevelBasePathProd, "", out)
        | inr built =>
            Return (apiLevelBasePathProd, apiLevelClusterNameProd,
                    appendCluster out built)
        end
      else Return (apiLevelBasePathProd, apiLevelClusterNameProd, out)
  | None => Return ("", "", out)
  end.

(** The base paths the API-level sandbox block settles before it compiles
    its group: [apiLevelBasePathProd], [apiLevelBasePathSand] and
    [selectedBasePathSand], the base path expected of the sandbox
    endpoints; [s0] is the first sandbox endpoint. *)
Definition apiLevelSandBasePaths (mgwSwagger : MgwSwagger)
    (apiLevelBasePathProd apiLevelClusterNameProd : string) (s0 : Endpoint)
  : exec (string * string * string) :=
  if isEmpty apiLevelBasePathProd && isEmpty apiLevelClusterNameProd
  then
    let b := TrimSuffix (Basepath s0) "/" in
    Return (b, "", b)
  else
    prod ← deref (swaggerProdEndpoints mgwSwagger);
    p0 ← index0 (Endpoints prod);
    if negb (String.eqb (TrimSuffix (Basepath p0) "/")
                        (TrimSuffix (Basepath s0) "/"))
    then
      let b := TrimSuffix (Basepath s0) "/" in
      Return (apiLevelBasePathProd, b, b)
    else Return (apiLevelBasePathProd, "", apiLevelBasePathProd).

(** API-level sandbox endpoints: yields the possibly updated
    [apiLevelBasePathProd], [apiLevelBasePathSand] and
    [apiLevelClusterNameSand]. *)
Definition apiLevelSand (env : Env) (mgwSwagger : MgwSwagger)
    (upstreamCerts : CertStore) (vHost organizationID : string)
    (apiLevelBasePathProd apiLevelClusterNameProd : string) (out : Outputs)
  : exec (string * string * string * Outputs) :=
  match available (swaggerSandEndpoints mgwSwagger) with
  | Some g =>
      let apiLevelEndpointSand :=
        setHTTP2BackendEnabled g (swaggerXWso2HTTP2BackendEnabled mgwSwagger) in
      s0 ← index0 (Endpoints apiLevelEndpointSand);
      '(apiLevelBasePathProd, apiLevelBasePathSand, selectedBasePathSand) ←
        apiLevelSandBasePaths mgwSwagger apiLevelBasePathProd
          apiLevelClusterNameProd s0;
      let apiLevelClusterNameSand :=
        getClusterName (EndpointPrefix apiLevelEndpointSand) organizationID
          vHost (swaggerTitle mgwSwagger) (swaggerVersion mgwSwagger) "" in
      if negb (Contains (EndpointPrefix apiLevelEndpointSand)
                 (xWso2EPClustersConfigNamePrefix (consts env)))
      then
        r ← processEndpoints env (outRegistry out) apiLevelClusterNameSand
              apiLevelEndpointSand upstreamCerts
              (ClusterTimeoutInSeconds (conf env)) selectedBasePathSand;
        match r with
        | inl _ =>
            Return (apiLevelBasePathProd, apiLevelBasePathSand, "", out)
        | inr built =>
            Return (apiLevelBasePathProd, apiLevelBasePathSand,
                    apiLevelClusterNameSand, appendCluster out built)
        end
      else Return (apiLevelBasePathProd, apiLevelBasePathSand,
                   apiLevelClusterNameSand, out)
  | None => Return (apiLevelBasePathProd, "", "", out)
  end.

(** [apiLevelBasePathProd] as an iteration over [x-wso2-endpoints] sets
    it before it compiles its group. *)
Definition xWso2EndpointsBasePath
    (apiLevelBasePathProd apiLevelClusterNameProd : string)
    (endpointCluster : EndpointCluster) : exec string :=
  if isEmpty apiLevelBasePathProd && isEmpty apiLevelClusterNameProd
  then ep0 ← index0 (Endpoints endpointCluster);
       Return (TrimSuffix (Basepath ep0) "/")
  else Return apiLevelBasePathProd.

(** One iteration of the loop over [x-wso2-endpoints]; the state is
    [apiLevelBasePathProd], [strictBasePath] and the outputs. *)
Definition xWso2EndpointsStep (env : Env) (mgwSwagger : MgwSwagger)
    (upstreamCerts : CertStore) (vHost organizationID : string)
    (apiLevelClusterNameProd : string)
    (st : string * bool * Outputs) (endpointCluster : EndpointCluster)
  : exec (string * bool * Outputs) :=
  let '(apiLevelBasePathProd, strictBasePath, out) := st in
  apiLevelBasePathProd ←
    xWso2EndpointsBasePath apiLevelBasePathProd apiLevelClusterNameProd
      endpointCluster;
  let epClusterName :=
    getClusterName (EndpointPrefix endpointCluster) organizationID vHost
      (swaggerTitle mgwSwagger) (swaggerVersion mgwSwagger) "" in
  r ← processEndpoints env (outRegistry out) epClusterName endpointCluster
        upstreamCerts (ClusterTimeoutInSeconds (conf env))
        apiLevelBasePathProd;
  match r with
  | inl _ => Return (apiLevelBasePathProd, strictBasePath, out)
  | inr built => Return (apiLevelBasePathProd, true, appendCluster out built)
  end.

(** A [for ... range] loop whose body may panic. *)
Fixpoint forEach {S A : Type} (body : S -> A -> exec S) (st : S)
    (items : list A) : exec S :=
  match items with
  | [] => Return st
  | x :: rest => st' ← body st x; forEach body st' rest
  end.

(** The loop over the map [x-wso2-endpoints].  Go leaves the iteration
    order of a map unspecified; the model iterates in the order of
    [map_to_list]. *)
Definition xWso2EndpointsLoop (env : Env) (mgwSwagger : MgwSwagger)
    (upstreamCerts : CertStore) (vHost organizationID : string)
    (apiLevelClusterNameProd : string) (st : string * bool * Outputs)
  : exec (string * bool * Outputs) :=
  forEach (xWso2EndpointsStep env mgwSwagger upstreamCerts vHost
             organizationID apiLevelClusterNameProd)
    st (snd <$> map_to_list (swaggerXWso2Endpoints mgwSwagger)).

(** An API-level interceptor ([extensionName] and [prefix] select the
    request or the response one) and its cluster. *)
Definition apiLevelInterceptor (env : Env) (mgwSwagger : MgwSwagger)
    (interceptorCerts : CertStore) (vHost organizationID : string)
    (extensionName prefix : string) (out : Outputs)
  : exec (InterceptEndpoint * Outputs) :=
  let apiInterceptor :=
    GetInterceptor (ext env) (swaggerVendorExtensions mgwSwagger)
      extensionName (APILevelInterceptor (consts env)) in
  if Enable apiInterceptor then
    let apiInterceptor :=
      setClusterName apiInterceptor
        (getClusterName prefix organizationID vHost
           (swaggerTitle mgwSwagger) (swaggerVersion mgwSwagger) "") in
    r ← CreateLuaCluster env (outRegistry out) interceptorCerts
          apiInterceptor;
    match r with
    | inl _ => Return (InterceptEndpoint_zero, out)
    | inr built => Return (apiInterceptor, appendCluster out built)
    end
  else Return (apiInterceptor, out).

(** A resource-level interceptor and its cluster; [current] is the
    interceptor inherited from the API level. *)
Definition resourceLevelInterceptor (env : Env) (mgwSwagger : MgwSwagger)
    (interceptorCerts : CertStore) (vHost organizationID : string)
    (resource : Resource) (extensionName prefix : string)
    (current : InterceptEndpoint) (out : Outputs)
  : exec (InterceptEndpoint * Outputs) :=
  let interceptorVal :=
    GetInterceptor (ext env) (resourceVendorExtensions resource)
      extensionName (ResourceLevelInterceptor (consts env)) in
  if Enable interceptorVal then
    let interceptorVal :=
      setClusterName interceptorVal
        (getClusterName prefix organizationID vHost
           (swaggerTitle mgwSwagger) (swaggerVersion mgwSwagger)
           (resourceID resource)) in
    r ← CreateLuaCluster env (outRegistry out) interceptorCerts
          interceptorVal;
    match r with
    | inl _ => Return (current, out)
    | inr built => Return (interceptorVal, appendCluster out built)
    end
  else Return (current, out).

(** One iteration of the loop over the operation-level interceptors of
    a resource; the state is the interceptor map and the outputs. *)
Definition operationInterceptorStep (env : Env) (mgwSwagger : MgwSwagger)
    (interceptorCerts : CertStore) (vHost organizationID : string)
    (prefix : string) (resourceInterceptor : InterceptEndpoint)
    (st : gmap string InterceptEndpoint * Outputs)
    (entry : string * InterceptEndpoint)
  : exec (gmap string InterceptEndpoint * Outputs) :=
  let '(interceptors, out) := st in
  let '(method, opI) := entry in
  if Enable opI
     && String.eqb (Level opI) (OperationLevelInterceptor (consts env))
  then
    let opID := ClusterName opI in
    let opI :=
      setClusterName opI
        (getClusterName prefix organizationID vHost
           (swaggerTitle mgwSwagger) (swaggerVersion mgwSwagger) opID) in
    let interceptors := <[method := opI]> interceptors in
    r ← CreateLuaCluster env (outRegistry out) interceptorCerts opI;
    match r with
    | inl _ => Return (<[method := resourceInterceptor]> interceptors, out)
    | inr built => Return (interceptors, appendCluster out built)
    end
  else Return (interceptors, out).

Definition operationInterceptors (env : Env) (mgwSwagger : MgwSwagger)
    (interceptorCerts : CertStore) (vHost organizationID : string)
    (resource : Resource) (isRequestFlow : bool) (prefix : string)
    (apiInterceptor resourceInterceptor : InterceptEndpoint) (out : Outputs)
  : exec (gmap string InterceptEndpoint * Outputs) :=
  let operational :=
    GetOperationInterceptors (ext env) apiInterceptor resourceInterceptor
      (resourceOperations resource) isRequestFlow in
  forEach (operationInterceptorStep env mgwSwagger interceptorCerts vHost
             organizationID prefix resourceInterceptor)
    (operational, out) (map_to_list operational).

(** The base path of a resource-level group: the one inherited, or that
    of the first endpoint [ep0] of the group when none is. *)
Definition resourceBasePathOf (resourceBasePath : string) (ep0 : Endpoint)
  : string :=
  if isEmpty resourceBasePath
  then TrimSuffix (Basepath ep0) "/" else resourceBasePath.

(** Resource-level production endpoints: yields [clusterNameProd] and
    [resourceBasePath]. *)
Definition resourceProd (env : Env) (mgwSwagger : MgwSwagger)
    (upstreamCerts : CertStore) (vHost organizationID : string)
    (api : ApiScope) (resource : Resource) (resourceBasePath : string)
    (out : Outputs) : exec (string * string * Outputs) :=
  match available (resourceProdEndpoints resource) with
  | Some endpointProd =>
      let prevResourceBasePath := resourceBasePath in
      ep0 ← index0 (Endpoints endpointProd);
      let resourceBasePath := resourceBasePathOf resourceBasePath ep0 in
      if negb (Contains (EndpointPrefix endpointProd)
                 (xWso2EPClustersConfigNamePrefix (consts env)))
      then
        let clusterNameProd :=
          getClusterName (EndpointPrefix endpointProd) organizationID vHost
            (swaggerTitle mgwSwagger) (swaggerVersion mgwSwagger)
            (resourceID resource) in
        r ← processEndpoints env (outRegistry out) clusterNameProd
              endpointProd upstreamCerts
              (ClusterTimeoutInSeconds (conf env)) resourceBasePath;
        match r with
        | inl _ =>
            Return (apiLevelClusterNameProd api, prevResourceBasePath, out)
        | inr built =>
            Return (clusterNameProd, resourceBasePath,
                    appendCluster out built)
        end
      else
        Return (getClusterName (EndpointPrefix endpointProd) organizationID
                  vHost (swaggerTitle mgwSwagger)
                  (swaggerVersion mgwSwagger) "",
                resourceBasePath, out)
  | None => Return (apiLevelClusterNameProd api, resourceBasePath, out)
  end.

(** Resource-level sandbox endpoints: yields [clusterNameSand],
    [resourceBasePathSand] and [isResourceBasePathSandAvailable]. *)
Definition resourceSand (env : Env) (mgwSwagger : MgwSwagger)
    (upstreamCerts : CertStore) (vHost organizationID : string)
    (api : ApiScope) (apiLevelBasePathSand : string) (resource : Resource)
    (resourceBasePathSand : string) (out : Outputs)
  : exec (string * string * bool * Outputs) :=
  match available (resourceSandEndpoints resource) with
  | Some endpointSand =>
      let prevResourceBasePath :=
        if negb (isEmpty apiLevelBasePathSand)
        then apiLevelBasePathSand else apiLevelBasePathProd api in
      ep0 ← index0 (Endpoints endpointSand);
      let resourceBasePathSand :=
        resourceBasePathOf resourceBasePathSand ep0 in
      if negb (Contains (EndpointPrefix endpointSand)
                 (xWso2EPClustersConfigNamePrefix (consts env)))
      then
        let clusterNameSand :=
          getClusterName (EndpointPrefix endpointSand) organizationID vHost
            (swaggerTitle mgwSwagger) (swaggerVersion mgwSwagger)
            (resourceID resource) in
        r ← processEndpoints env (outRegistry out) clusterNameSand
              endpointSand upstreamCerts
              (ClusterTimeoutInSeconds (conf env)) resourceBasePathSand;
        match r with
        | inl _ =>
            Return (apiLevelClusterNameSand api, prevResourceBasePath,
                    false, out)
        | inr built =>
            Return (clusterNameSand, resourceBasePathSand, true,
                    appendCluster out built)
        end
      else
        Return (getClusterName (EndpointPrefix endpointSand) organizationID
                  vHost (swaggerTitle mgwSwagger)
                  (swaggerVersion mgwSwagger) "",
                resourceBasePathSand, false, out)
  | None =>
      Return (apiLevelClusterNameSand api, resourceBasePathSand, false, out)
  end.

(** The base paths and cluster names of a resource after the
    reconciliation that follows the two endpoint blocks. *)
Record Reconciled : Type := {
  rcApiLevelBasePathSand : string;
  rcResourceBasePath : string;
  rcResourceBasePathSand : string;
  rcClusterNameProd : string;
  rcClusterNameSand : string
}.

Definition reconcile (api : ApiScope) (apiLevelBasePathSand : string)
    (resourceBasePath resourceBasePathSand : string)
    (clusterNameProd clusterNameSand : string) : Reconciled :=
  let '(apiLevelBasePathSand, resourceBasePath, resourceBasePathSand) :=
    if negb (isEmpty resourceBasePath) && isEmpty resourceBasePathSand then
      let apiLevelBasePathSand :=
        if isEmpty apiLevelBasePathSand
        then apiLevelBasePathProd api else apiLevelBasePathSand in
      (apiLevelBasePathSand, resourceBasePath, apiLevelBasePathSand)
    else if isEmpty resourceBasePath && negb (isEmpty resourceBasePathSand)
    then (apiLevelBasePathSand, apiLevelBasePathProd api,
          resourceBasePathSand)
    else (apiLevelBasePathSand, resourceBasePath, resourceBasePathSand) in
  let resourceBasePathSand :=
    if String.eqb clusterNameProd (apiLevelClusterNameProd api)
       && String.eqb clusterNameSand (apiLevelClusterNameSand api)
    then if negb (isEmpty apiLevelBasePathSand)
         then apiLevelBasePathSand else apiLevelBasePathProd api
    else resourceBasePathSand in
  let clusterNameProd' :=
    if negb (isEmpty clusterNameProd)
       && String.eqb clusterNameProd (apiLevelClusterNameProd api)
       && negb (String.eqb resourceBasePath (apiLevelBasePathProd api))
       && negb (isEmpty resourceBasePath)
    then "" else clusterNameProd in
  let clusterNameSand' :=
    if negb (isEmpty clusterNameSand)
       && negb (isEmpty apiLevelBasePathSand)
       && String.eqb clusterNameSand (apiLevelClusterNameSand api)
       && negb (String.eqb resourceBasePathSand apiLevelBasePathSand)
    then "" else clusterNameSand in
  {| rcApiLevelBasePathSand := apiLevelBasePathSand;
     rcResourceBasePath := resourceBasePath;
     rcResourceBasePathSand := resourceBasePathSand;
     rcClusterNameProd := clusterNameProd';
     rcClusterNameSand := clusterNameSand' |}.

(** What one iteration of the resource loop hands to [createRoute]. *)
Record RoutePlan : Type := {
  planResourceBasePath : string;
  planResourceBasePathSand : string;
  planClusterNameProd : string;
  planClusterNameSand : string;
  planRequestInterceptors : gmap string InterceptEndpoint;
  planResponseInterceptors : gmap string InterceptEndpoint;
  planSandbox : bool
}.

(** The production route of a resource. *)
Definition prodRoute (env : Env) (mgwSwagger : MgwSwagger)
    (vHost organizationID : string) (resource : Resource) (p : RoutePlan)
  : Route :=
  createRoute env
    (genRouteCreateParams mgwSwagger (Some resource) vHost
       (planResourceBasePath p) (planClusterNameProd p)
       (planClusterNameSand p) (planRequestInterceptors p)
       (planResponseInterceptors p) organizationID false).

(** The sandbox route of a resource. *)
Definition sandRoute (env : Env) (mgwSwagger : MgwSwagger)
    (vHost organizationID : string) (resource : Resource) (p : RoutePlan)
  : Route :=
  createRoute env
    (genRouteCreateParams mgwSwagger (Some resource) vHost
       (planResourceBasePathSand p) (planClusterNameProd p)
       (planClusterNameSand p) (planRequestInterceptors p)
       (planResponseInterceptors p) organizationID true).

(** The routes one resource contributes, in the order they are appended:
    the sandbox route, when there is one, then the production route. *)
Definition emitRoutes (env : Env) (mgwSwagger : MgwSwagger)
    (vHost organizationID : string) (resource : Resource) (p : RoutePlan)
  : list Route :=
  let routeP := prodRoute env mgwSwagger vHost organizationID resource p in
  if planSandbox p
  then [sandRoute env mgwSwagger vHost organizationID resource p; routeP]
  else [routeP].

(** The body of the loop over the resources of a REST API, up to the
    creation of the routes: the clusters of the resource are added to
    the outputs and the arguments of [createRoute] are settled. *)
Definition planResource (env : Env) (mgwSwagger : MgwSwagger)
    (upstreamCerts interceptorCerts : CertStore)
    (vHost organizationID : string) (api : ApiScope)
    (apiLevelBasePathSand : string) (out : Outputs) (resource : Resource)
  : exec (RoutePlan * string * Outputs) :=
  let k := consts env in
  let inherit :=
    strictBasePath api
    || (bool_decide (available (resourceProdEndpoints resource) = None)
        && bool_decide (available (resourceSandEndpoints resource) = None)) in
  let resourceBasePath :=
    if inherit then apiLevelBasePathProd api else "" in
  let resourceBasePathSand :=
    if inherit
    then if negb (isEmpty apiLevelBasePathSand)
         then apiLevelBasePathSand else apiLevelBasePathProd api
    else "" in
  '(clusterNameProd, resourceBasePath, out) ←
    resourceProd env mgwSwagger upstreamCerts vHost organizationID api
      resource resourceBasePath out;
  '(clusterNameSand, resourceBasePathSand,
    isResourceBasePathSandAvailable, out) ←
    resourceSand env mgwSwagger upstreamCerts vHost organizationID api
      apiLevelBasePathSand resource resourceBasePathSand out;
  let rc := reconcile api apiLevelBasePathSand resourceBasePath
              resourceBasePathSand clusterNameProd clusterNameSand in
  '(resourceRequestInterceptor, out) ←
    resourceLevelInterceptor env mgwSwagger interceptorCerts vHost
      organizationID resource (xWso2requestInterceptor k)
      (requestInterceptClustersNamePrefix k) (apiRequestInterceptor api) out;
  '(operationalReqInterceptors, out) ←
    operationInterceptors env mgwSwagger interceptorCerts vHost
      organizationID resource true (requestInterceptClustersNamePrefix k)
      (apiRequestInterceptor api) resourceRequestInterceptor out;
  '(resourceResponseInterceptor, out) ←
    resourceLevelInterceptor env mgwSwagger interceptorCerts vHost
      organizationID resource (xWso2responseInterceptor k)
      (responseInterceptClustersNamePrefix k) (apiResponseInterceptor api)
      out;
  '(operationalRespInterceptorVal, out) ←
    operationInterceptors env mgwSwagger interceptorCerts vHost
      organizationID resource false (responseInterceptClustersNamePrefix k)
      (apiResponseInterceptor api) resourceResponseInterceptor out;
  Return
    ({| planResourceBasePath := rcResourceBasePath rc;
        planResourceBasePathSand := rcResourceBasePathSand rc;
        planClusterNameProd := rcClusterNameProd rc;
        planClusterNameSand := rcClusterNameSand rc;
        planRequestInterceptors := operationalReqInterceptors;
        planResponseInterceptors := operationalRespInterceptorVal;
        planSandbox :=
          negb (isEmpty (rcApiLevelBasePathSand rc))
          || isResourceBasePathSandAvailable |},
     rcApiLevelBasePathSand rc, out).

(** One iteration of the resource loop of a REST API. *)
Definition resourceStep (env : Env) (mgwSwagger : MgwSwagger)
    (upstreamCerts interceptorCerts : CertStore)
    (vHost organizationID : string) (api : ApiScope)
    (st : LoopState) (resource : Resource) : exec LoopState :=
  '(plan, apiLevelBasePathSand, out) ←
    planResource env mgwSwagger upstreamCerts interceptorCerts vHost
      organizationID api (lsApiLevelBasePathSand st) (lsOut st) resource;
  Return
    {| lsRoutes :=
         (lsRoutes st
          ++ emitRoutes env mgwSwagger vHost organizationID resource plan)%list;
       lsOut := out;
       lsApiLevelBasePathSand := apiLevelBasePathSand |}.

(** The route of a resource of a WebSocket API. *)
Definition wsRoute (env : Env) (mgwSwagger : MgwSwagger)
    (vHost organizationID : string) (api : ApiScope) (resource : Resource)
  : Route :=
  createRoute env
    (genRouteCreateParams mgwSwagger (Some resource) vHost
       (apiLevelBasePathProd api) (apiLevelClusterNameProd api)
       (apiLevelClusterNameSand api) ∅ ∅ organizationID false).

(** The API-level part of [CreateRoutesWithClusters]: everything before
    the loops over the resources. *)
Definition apiLevel (env : Env) (mgwSwagger : MgwSwagger)
    (upstreamCerts interceptorCerts : CertStore)
    (vHost organizationID : string)
    (registry : ConsulKeyMap) : exec (ApiScope * string * Outputs) :=
  let k := consts env in
  let out :=
    {| outClusters := []; outEndpoints := []; outRegistry := registry |} in
  '(apiLevelBasePathProd, apiLevelClusterNameProd, out) ←
    apiLevelProd env mgwSwagger upstreamCerts vHost organizationID out;
  '(apiLevelBasePathProd, apiLevelBasePathSand, apiLevelClusterNameSand,
    out) ←
    apiLevelSand env mgwSwagger upstreamCerts vHost organizationID
      apiLevelBasePathProd apiLevelClusterNameProd out;
  '(apiLevelBasePathProd, strictBasePath, out) ←
    xWso2EndpointsLoop env mgwSwagger upstreamCerts vHost organizationID
      apiLevelClusterNameProd (apiLevelBasePathProd, false, out);
  '(apiRequestInterceptor, out) ←
    apiLevelInterceptor env mgwSwagger interceptorCerts vHost
      organizationID (xWso2requestInterceptor k)
      (requestInterceptClustersNamePrefix k) out;
  '(apiResponseInterceptor, out) ←
    apiLevelInterceptor env mgwSwagger interceptorCerts vHost
      organizationID (xWso2responseInterceptor k)
      (responseInterceptClustersNamePrefix k) out;
  Return
    ({| apiLevelBasePathProd := apiLevelBasePathProd;
        strictBasePath := strictBasePath;
        apiLevelClusterNameProd := apiLevelClusterNameProd;
        apiLevelClusterNameSand := apiLevelClusterNameSand;
        apiRequestInterceptor := apiRequestInterceptor;
        apiResponseInterceptor := apiResponseInterceptor |},
     apiLevelBasePathSand, out).

(** [CreateRoutesWithClusters]: the routes, clusters and addresses of an
    API, and the discovery registry the call leaves behind. *)
Definition CreateRoutesWithClusters (env : Env) (registry : ConsulKeyMap)
    (mgwSwagger : MgwSwagger) (upstreamCerts interceptorCerts : CertStore)
    (vHost organizationID : string)
  : exec (list Route * list Cluster * list Address * ConsulKeyMap) :=
  '(api, apiLevelBasePathSand, out) ←
    apiLevel env mgwSwagger upstreamCerts interceptorCerts vHost
      organizationID registry;
  if String.eqb (swaggerAPIType mgwSwagger) WS then
    Return (wsRoute env mgwSwagger vHost organizationID api
              <$> swaggerResources mgwSwagger,
            outClusters out, outEndpoints out, outRegistry out)
  else
    st ← forEach (resourceStep env mgwSwagger upstreamCerts
                    interceptorCerts vHost organizationID api)
           {| lsRoutes := []; lsOut := out;
              lsApiLevelBasePathSand := apiLevelBasePathSand |}
           (swaggerResources mgwSwagger);
    Return (lsRoutes st, outClusters (lsOut st), outEndpoints (lsOut st),
            outRegistry (lsOut st)).

End envoyconf.

(** *** The tracing cluster *)

Module envoyconf_tracing.
Import strings envoyconf.

(** String constants of the package that [CreateTracingCluster] reads
    and another file declares. *)
Record TracingConstants : Type := {
  tracerHost : string;
  tracerEndpoint : string;
  tracerPort : string;
  tracingClusterName : string
}.

(** The fields of the [*config.Config] argument that are read:
    [Envoy.ClusterTimeoutInSeconds] and [Tracing.ConfigProperties]. *)
Record TracingConfig : Type := {
  tcClusterTimeoutInSeconds : Z;
  tcConfigProperties : gmap string string
}.

(** The endpoint group [CreateTracingCluster] builds once host, path and
    port are read. *)
Definition tracingEndpointCluster (epHost epPath : string) (epPort : Z)
  : EndpointCluster :=
  {| EndpointPrefix := "";
     Endpoints :=
       [ {| Host := epHost; Basepath := epPath; URLType := "http";
            Port := epPort; ServiceDiscoveryString := ""; RawURL := "" |} ];
     EndpointType := "";
     Config := None;
     HTTP2BackendEnabled := false |}.

Definition CreateTracingCluster (env : Env) (tk : TracingConstants)
    (registry : ConsulKeyMap) (conf : TracingConfig)
  : exec (string + (Cluster * list Address * ConsulKeyMap)) :=
  let epTimeout := tcClusterTimeoutInSeconds conf in
  let epHost := mapGet (tcConfigProperties conf) (tracerHost tk) in
  if (String.length epHost <=? 0)%nat
  then Return (inl "invalid host provided for tracing endpoint")
  else
    let epPath := mapGet (tcConfigProperties conf) (tracerEndpoint tk) in
    if (String.length epPath <=? 0)%nat
    then Return (inl "invalid endpoint path provided for tracing endpoint")
    else
      match strconv.ParseUint
              (mapGet (tcConfigProperties conf) (tracerPort tk)) 32 with
      | Some port =>
          processEndpoints env registry (tracingClusterName tk)
            (tracingEndpointCluster epHost epPath port) ∅ epTimeout epPath
      | None =>
          Return (inl "invalid port provided for tracing endpoint")
      end.

End envoyconf_tracing.

(** *** Definitions that follow the words of the specification

    These are compared, in Part II, with the definitions translated from
    the source. *)

Module spec.
Import strings.

(** "whitespace stripped": every space byte removed. *)
Fixpoint stripSpaces (s : string) : string :=
  match s with
  | "" => ""
  | String a s' =>
      if Ascii.eqb a " " then stripSpaces s' else String a (stripSpaces s')
  end.

(** The cluster name as section 4.1 of the specification gives it. *)
Definition clusterName (prefix org vHost title version resourceID : string)
  : string :=
  let name :=
    TrimSpace (org ++ "_" ++ prefix ++ "_" ++ vHost ++ "_"
               ++ stripSpaces title ++ version) in
  if decide (resourceID = "") then name
  else name ++ "_" ++ stripSpaces resourceID ++ "0".

(** The byte [c] occurs in [s]. *)
Fixpoint occurs (c : ascii) (s : string) : bool :=
  match s with
  | "" => false
  | String a s' => Ascii.eqb a c || occurs c s'
  end.

(** The number of bytes [c] in [s]. *)
Fixpoint count (c : ascii) (s : string) : nat :=
  match s with
  | "" => O
  | String a s' => ((if Ascii.eqb a c then 1 else 0) + count c s')%nat
  end.

(** "OPTIONS is injected if absent". *)
Definition withOptions (methods : list string) : list string :=
  if decide ("OPTIONS" ∈ methods) then methods
  else (methods ++ ["OPTIONS"])%list.

(** The method regex [^(M1|M2|...|OPTIONS)$]. *)
Definition methodRegex (methods : list string) : string :=
  "^(" ++ Join (withOptions methods) "|" ++ ")$".

(** "a header matcher on the pseudo-header [:method]" with the regex
    [regex]. *)
Definition methodMatcher (regex : string) : HeaderMatcher :=
  {| hmName := ":method"; hmStringMatch := SafeRegex regex |}.

(** "an additional header matcher requiring exact equality of the
    cluster-selector header to the sandbox cluster name". *)
Definition sandboxMatcher (params : routeCreateParams) : HeaderMatcher :=
  {| hmName := "x-wso2-cluster-header";
     hmStringMatch := Exact (sandClusterName params) |}.

(** [s] with its last occurrence of [old] removed ("the version suffix
    is removed only at its last occurrence"). *)
Definition removeLast (s old : string) : string :=
  match lastIndexFrom 0 s old with
  | Some j => take j s ++ drop (j + String.length old) s
  | None => s
  end.

(** The default-version alias of a base path. *)
Definition defaultVersionBasepath (basePath version : string) : string :=
  "(?:" ++ basePath ++ "|" ++ removeLast basePath ("/" ++ version) ++ ")".

(** A resource path template: literal text and [{name}] parameters in
    turn, ending in literal text.  [tplSegments] lists each parameter
    with the literal text in front of it. *)
Record Template : Type := {
  tplSegments : list (string * string);
  tplLast : string
}.

Fixpoint pathBody (segs : list (string * string)) : string :=
  match segs with
  | [] => ""
  | (lit, name) :: rest => lit ++ "{" ++ name ++ "}" ++ pathBody rest
  end.

(** The path a template stands for. *)
Definition pathOf (t : Template) : string :=
  pathBody (tplSegments t) ++ tplLast t.

(** The parameters numbered from [i + 1]. *)
Fixpoint numberedBody (i : Z) (segs : list (string * string)) : string :=
  match segs with
  | [] => ""
  | (lit, _) :: rest =>
      lit ++ "\" ++ strconv.Itoa (i + 1) ++ numberedBody (i + 1) rest
  end.

(** The path regex of a template body: every parameter replaced by the
    capture group [([^/]+)]. *)
Fixpoint regexBody (segs : list (string * string)) : string :=
  match segs with
  | [] => ""
  | (lit, _) :: rest => lit ++ "([^/]+)" ++ regexBody rest
  end.

(** A text is shielded from the suffix [suffix] when it is empty or ends
    in a byte that does not occur in [suffix]: whether a longer text ends
    with [suffix] is then decided behind it. *)
Definition shielded (suffix body : string) : Prop :=
  body = "" \/ exists a c, body = a ++ String c ""
                           /\ occurs c (rev suffix) = false.

(** A template without the wildcard [/*] at its end. *)
Definition dropWildcard (t : Template) : Template :=
  {| tplSegments := tplSegments t;
     tplLast := TrimSuffix (tplLast t) "/*" |}.

(** "the resource path with the i-th {param} segment replaced by \i". *)
Definition numbered (t : Template) : string :=
  numberedBody 0 (tplSegments t) ++ tplLast t.

(** Literal text holds no opening brace (it would start a parameter)
    and no opening parenthesis (path templates are not regexes); a
    parameter name is non-empty and holds no closing brace. *)
Definition wellFormed (t : Template) : Prop :=
  Forall (fun seg : string * string =>
            occurs "{" (fst seg) = false /\ occurs "(" (fst seg) = false
            /\ snd seg <> "" /\ occurs "}" (snd seg) = false)
         (tplSegments t)
  /\ occurs "{" (tplLast t) = false /\ occurs "(" (tplLast t) = false.

(** "Endpoint Group: ordered non-empty list of Endpoints", for the groups
    whose emptiness the translation does not check itself: the named
    endpoints of the API and the endpoint groups of enabled
    interceptors. *)
Definition groupsNonEmpty (env : Env) (mgwSwagger : MgwSwagger) : Prop :=
  (forall name g,
      swaggerXWso2Endpoints mgwSwagger !! name = Some g -> Endpoints g <> [])
  /\ (forall vendorExtensions name level,
         let i := GetInterceptor (ext env) vendorExtensions name level in
         Enable i = true -> Endpoints (InterceptCluster i) <> [])
  /\ (forall api resource operations isRequestFlow method i,
         GetOperationInterceptors (ext env) api resource operations
           isRequestFlow !! method = Some i ->
         Enable i = true -> Endpoints (InterceptCluster i) <> []).

(** The routes of one resource in the emitted list. *)
Record RouteBlock : Type := {
  blockSandbox : option Route;
  blockProduction : Route
}.

Definition blockRoutes (b : RouteBlock) : list Route :=
  match blockSandbox b with
  | Some s => [s; blockProduction b]
  | None => [blockProduction b]
  end.

(** The block of routes a resource contributes under a plan. *)
Definition blockOf (env : Env) (mgwSwagger : MgwSwagger)
    (vHost organizationID : string) (resource : Resource)
    (plan : envoyconf.RoutePlan) : RouteBlock :=
  {| blockSandbox :=
       if envoyconf.planSandbox plan
       then Some (envoyconf.sandRoute env mgwSwagger vHost organizationID
                    resource plan)
       else None;
     blockProduction :=
       envoyconf.prodRoute env mgwSwagger vHost organizationID resource plan |}.

(** The index in the route list at which the block of the [i]-th
    resource starts. *)
Definition blockStart (blocks : list RouteBlock) (i : nat) : nat :=
  length (concat (blockRoutes <$> firstn i blocks)).

(** The plan of a resource of a WebSocket API: the API-level base path
    and cluster names, no interceptor and no sandbox route. *)
Definition wsPlan (api : ApiScope) : envoyconf.RoutePlan :=
  {| envoyconf.planResourceBasePath := apiLevelBasePathProd api;
     envoyconf.planResourceBasePathSand := "";
     envoyconf.planClusterNameProd := apiLevelClusterNameProd api;
     envoyconf.planClusterNameSand := apiLevelClusterNameSand api;
     envoyconf.planRequestInterceptors := ∅;
     envoyconf.planResponseInterceptors := ∅;
     envoyconf.planSandbox := false |}.

(** The plans the resource loop settles, resource after resource: an
    iteration starts from the [apiLevelBasePathSand] and the outputs the
    iteration before it has left. *)
Fixpoint resourcePlans (env : Env) (mgwSwagger : MgwSwagger)
    (upstreamCerts interceptorCerts : envoyconf.CertStore)
    (vHost organizationID : string) (api : ApiScope)
    (apiLevelBasePathSand : string) (out : Outputs)
    (resources : list Resource) : exec (list envoyconf.RoutePlan) :=
  match resources with
  | [] => Return []
  | resource :: rest =>
      '(plan, apiLevelBasePathSand, out) ←
        envoyconf.planResource env mgwSwagger upstreamCerts interceptorCerts
          vHost organizationID api apiLevelBasePathSand out resource;
      plans ←
        resourcePlans env mgwSwagger upstreamCerts interceptorCerts vHost
          organizationID api apiLevelBasePathSand out rest;
      Return (plan :: plans)
  end.

(** The plans of a translation, one per resource in the order of the
    model: what [CreateRoutesWithClusters] computes, for each resource,
    before it calls [createRoute]. *)
Definition plansOf (env : Env) (registry : ConsulKeyMap)
    (mgwSwagger : MgwSwagger)
    (upstreamCerts interceptorCerts : envoyconf.CertStore)
    (vHost organizationID : string) : exec (list envoyconf.RoutePlan) :=
  '(api, apiLevelBasePathSand, out) ←
    envoyconf.apiLevel env mgwSwagger upstreamCerts interceptorCerts vHost
      organizationID registry;
  if String.eqb (swaggerAPIType mgwSwagger) WS
  then Return ((fun _ => wsPlan api) <$> swaggerResources mgwSwagger)
  else resourcePlans env mgwSwagger upstreamCerts interceptorCerts vHost
         organizationID api apiLevelBasePathSand out
         (swaggerResources mgwSwagger).

(** The blocks of the resources under their plans. *)
Definition blocksOf (env : Env) (mgwSwagger : MgwSwagger)
    (vHost organizationID : string) (plans : list envoyconf.RoutePlan)
  : list RouteBlock :=
  zip_with (blockOf env mgwSwagger vHost organizationID)
    (swaggerResources mgwSwagger) plans.

(** One call of the Endpoint Compiler: the arguments of
    [processEndpoints] other than the discovery registry. *)
Record Attempt : Type := {
  atName : string;
  atGroup : EndpointCluster;
  atCerts : envoyconf.CertStore;
  atTimeout : Z;
  atBasePath : string
}.

(** "A failed endpoint group causes its cluster to be omitted": the
    outputs after an attempt are the outputs before it, with the cluster
    and the addresses of the group appended when the group compiles. *)
Definition attempt (env : Env) (out : Outputs) (a : Attempt) : Outputs :=
  match envoyconf_clusters.processEndpoints env (outRegistry out) (atName a)
          (atGroup a) (atCerts a) (atTimeout a) (atBasePath a) with
  | Return (inr built) => envoyconf.appendCluster out built
  | _ => out
  end.

(** "Accumulating clusters and addresses": the outputs of a sequence of
    attempts, each of them made whatever became of those before it. *)
Definition outputsOf (env : Env) (registry : ConsulKeyMap)
    (attempts : list Attempt) : Outputs :=
  fold_left (attempt env) attempts
    {| outClusters := []; outEndpoints := []; outRegistry := registry |}.

(** *** The calls of the Endpoint Compiler, call site after call site *)

Import envoyconf.

(** [g.Endpoints[0].Basepath]. *)
Definition firstBasePath (g : EndpointCluster) : string :=
  match Endpoints g with
  | ep0 :: _ => Basepath ep0
  | [] => ""
  end.

(** An endpoint group the pass over its own level compiles: it is there,
    it has an endpoint and its prefix does not hold the marker of the
    named endpoints. *)
Definition ownGroup (env : Env) (g : option EndpointCluster)
  : list EndpointCluster :=
  match envoyconf.available g with
  | Some g =>
      if Contains (EndpointPrefix g)
           (xWso2EPClustersConfigNamePrefix (consts env))
      then [] else [g]
  | None => []
  end.

(** The endpoint group of an API-level or resource-level interceptor. *)
Definition interceptorGroup (i : InterceptEndpoint) : list EndpointCluster :=
  if Enable i then [InterceptCluster i] else [].

(** The endpoint groups of the operation-level interceptors of a map of
    interceptors. *)
Definition operationGroups (env : Env)
    (interceptors : gmap string InterceptEndpoint) : list EndpointCluster :=
  omap (fun entry : string * InterceptEndpoint =>
          if Enable (snd entry)
             && String.eqb (Level (snd entry))
                  (OperationLevelInterceptor (consts env))
          then Some (InterceptCluster (snd entry)) else None)
       (map_to_list interceptors).

(** The endpoint groups of the API level in the traversal order of
    section 4.5: production, sandbox, named endpoints, request and
    response interceptor. *)
Definition apiGroups (env : Env) (mgwSwagger : MgwSwagger)
  : list EndpointCluster :=
  let k := consts env in
  let http2 g :=
    setHTTP2BackendEnabled g (swaggerXWso2HTTP2BackendEnabled mgwSwagger) in
  ((http2 <$> ownGroup env (swaggerProdEndpoints mgwSwagger))
   ++ (http2 <$> ownGroup env (swaggerSandEndpoints mgwSwagger))
   ++ (snd <$> map_to_list (swaggerXWso2Endpoints mgwSwagger))
   ++ interceptorGroup
        (GetInterceptor (ext env) (swaggerVendorExtensions mgwSwagger)
           (xWso2requestInterceptor k) (APILevelInterceptor k))
   ++ interceptorGroup
        (GetInterceptor (ext env) (swaggerVendorExtensions mgwSwagger)
           (xWso2responseInterceptor k) (APILevelInterceptor k)))%list.

(** The endpoint groups of a resource in traversal order: production,
    sandbox, request interceptor, operation-level request interceptors,
    response interceptor, operation-level response interceptors. *)
Definition resourceGroups (env : Env) (resource : Resource)
    (operationalReq operationalResp : gmap string InterceptEndpoint)
  : list EndpointCluster :=
  let k := consts env in
  (ownGroup env (resourceProdEndpoints resource)
   ++ ownGroup env (resourceSandEndpoints resource)
   ++ interceptorGroup
        (GetInterceptor (ext env) (resourceVendorExtensions resource)
           (xWso2requestInterceptor k) (ResourceLevelInterceptor k))
   ++ operationGroups env operationalReq
   ++ interceptorGroup
        (GetInterceptor (ext env) (resourceVendorExtensions resource)
           (xWso2responseInterceptor k) (ResourceLevelInterceptor k))
   ++ operationGroups env operationalResp)%list.

(** The call [processEndpoints(getClusterName(g.EndpointPrefix, ...,
    resourceID), g, upstreamCerts, timeout, basePath)] on an upstream
    endpoint group. *)
Definition upstreamCall (env : Env) (mgwSwagger : MgwSwagger)
    (upstreamCerts : CertStore) (vHost organizationID : string)
    (g : EndpointCluster) (resourceID basePath : string) : Attempt :=
  {| atName :=
       getClusterName (EndpointPrefix g) organizationID vHost
         (swaggerTitle mgwSwagger) (swaggerVersion mgwSwagger) resourceID;
     atGroup := g;
     atCerts := upstreamCerts;
     atTimeout := ClusterTimeoutInSeconds (conf env);
     atBasePath := basePath |}.

(** The call [CreateLuaCluster] makes for the interceptor [i] once it is
    named [name]: [processEndpoints(name, i.InterceptCluster,
    interceptorCerts, i.ClusterTimeout, Endpoints[0].Basepath)]. *)
Definition interceptorCall (interceptorCerts : CertStore)
    (i : InterceptEndpoint) (name : string) : Attempt :=
  {| atName := name;
     atGroup := InterceptCluster i;
     atCerts := interceptorCerts;
     atTimeout := ClusterTimeout i;
     atBasePath := firstBasePath (InterceptCluster i) |}.

(** The call on the API-level production group (source lines 108-128). *)
Definition apiProdCalls (env : Env) (mgwSwagger : MgwSwagger)
    (upstreamCerts : CertStore) (vHost organizationID : string)
  : list Attempt :=
  (fun g =>
     let g :=
       setHTTP2BackendEnabled g (swaggerXWso2HTTP2BackendEnabled mgwSwagger) in
     upstreamCall env mgwSwagger upstreamCerts vHost organizationID g ""
       (TrimSuffix (firstBasePath g) "/"))
    <$> ownGroup env (swaggerProdEndpoints mgwSwagger).

(** The call on the API-level sandbox group (source lines 133-164), with
    [selectedBasePathSand] as the expected base path. *)
Definition apiSandCalls (env : Env) (mgwSwagger : MgwSwagger)
    (upstreamCerts : CertStore) (vHost organizationID : string)
    (apiLevelBasePathProd apiLevelClusterNameProd : string)
  : exec (list Attempt) :=
  match ownGroup env (swaggerSandEndpoints mgwSwagger) with
  | g :: _ =>
      let g :=
        setHTTP2BackendEnabled g (swaggerXWso2HTTP2BackendEnabled mgwSwagger) in
      s0 ← index0 (Endpoints g);
      '(_, _, selectedBasePathSand) ←
        apiLevelSandBasePaths mgwSwagger apiLevelBasePathProd
          apiLevelClusterNameProd s0;
      Return [upstreamCall env mgwSwagger upstreamCerts vHost organizationID
                g "" selectedBasePathSand]
  | [] => Return []
  end.

(** The calls on the named endpoint groups (source lines 172-186): each
    with the [apiLevelBasePathProd] of its iteration. *)
Fixpoint namedCalls (env : Env) (mgwSwagger : MgwSwagger)
    (upstreamCerts : CertStore) (vHost organizationID : string)
    (apiLevelClusterNameProd apiLevelBasePathProd : string)
    (groups : list EndpointCluster) : exec (list Attempt) :=
  match groups with
  | [] => Return []
  | g :: rest =>
      apiLevelBasePathProd ←
        xWso2EndpointsBasePath apiLevelBasePathProd apiLevelClusterNameProd g;
      later ←
        namedCalls env mgwSwagger upstreamCerts vHost organizationID
          apiLevelClusterNameProd apiLevelBasePathProd rest;
      Return (upstreamCall env mgwSwagger upstreamCerts vHost organizationID
                g "" apiLevelBasePathProd :: later)
  end.

(** The call for an API-level interceptor (source lines 189-219). *)
Definition apiInterceptorCalls (env : Env) (mgwSwagger : MgwSwagger)
    (interceptorCerts : CertStore) (vHost organizationID : string)
    (extensionName prefix : string) : list Attempt :=
  let i :=
    GetInterceptor (ext env) (swaggerVendorExtensions mgwSwagger)
      extensionName (APILevelInterceptor (consts env)) in
  if Enable i
  then [interceptorCall interceptorCerts i
          (getClusterName prefix organizationID vHost
             (swaggerTitle mgwSwagger) (swaggerVersion mgwSwagger) "")]
  else [].

(** The calls of the API level, in the order of the source; the state the
    sandbox and the named groups depend on is that the steps of the
    translation leave. *)
Definition apiCalls (env : Env) (mgwSwagger : MgwSwagger)
    (upstreamCerts interceptorCerts : CertStore)
    (vHost organizationID : string) (registry : ConsulKeyMap)
  : exec (list Attempt) :=
  let k := consts env in
  let out :=
    {| outClusters := []; outEndpoints := []; outRegistry := registry |} in
  '(apiLevelBasePathProd, apiLevelClusterNameProd, out) ←
    apiLevelProd env mgwSwagger upstreamCerts vHost organizationID out;
  sand ←
    apiSandCalls env mgwSwagger upstreamCerts vHost organizationID
      apiLevelBasePathProd apiLevelClusterNameProd;
  '(apiLevelBasePathProd, _, _, _) ←
    apiLevelSand env mgwSwagger upstreamCerts vHost organizationID
      apiLevelBasePathProd apiLevelClusterNameProd out;
  named ←
    namedCalls env mgwSwagger upstreamCerts vHost organizationID
      apiLevelClusterNameProd apiLevelBasePathProd
      (snd <$> map_to_list (swaggerXWso2Endpoints mgwSwagger));
  Return
    (apiProdCalls env mgwSwagger upstreamCerts vHost organizationID
     ++ sand ++ named
     ++ apiInterceptorCalls env mgwSwagger interceptorCerts vHost
          organizationID (xWso2requestInterceptor k)
          (requestInterceptClustersNamePrefix k)
     ++ apiInterceptorCalls env mgwSwagger interceptorCerts vHost
          organizationID (xWso2responseInterceptor k)
          (responseInterceptClustersNamePrefix k))%list.

(** The call on a resource-level upstream group [endpoints] (source
    lines 254-277 and 284-312): the expected base path is the inherited
    one, or that of the first endpoint of the group when none is. *)
Definition resourceUpstreamCalls (env : Env) (mgwSwagger : MgwSwagger)
    (upstreamCerts : CertStore) (vHost organizationID : string)
    (resource : Resource) (endpoints : option EndpointCluster)
    (resourceBasePath : string) : list Attempt :=
  (fun g =>
     upstreamCall env mgwSwagger upstreamCerts vHost organizationID g
       (resourceID resource)
       (if isEmpty resourceBasePath
        then TrimSuffix (firstBasePath g) "/" else resourceBasePath))
    <$> ownGroup env endpoints.

(** The call for a resource-level interceptor (source lines 351-365 and
    390-404). *)
Definition resourceInterceptorCalls (env : Env) (mgwSwagger : MgwSwagger)
    (interceptorCerts : CertStore) (vHost organizationID : string)
    (resource : Resource) (extensionName prefix : string) : list Attempt :=
  let i :=
    GetInterceptor (ext env) (resourceVendorExtensions resource)
      extensionName (ResourceLevelInterceptor (consts env)) in
  if Enable i
  then [interceptorCall interceptorCerts i
          (getClusterName prefix organizationID vHost
             (swaggerTitle mgwSwagger) (swaggerVersion mgwSwagger)
             (resourceID resource))]
  else [].

(** The calls for the operation-level interceptors of a map of
    interceptors (source lines 369-387 and 409-427). *)
Definition operationCalls (env : Env) (mgwSwagger : MgwSwagger)
    (interceptorCerts : CertStore) (vHost organizationID : string)
    (prefix : string) (interceptors : gmap string InterceptEndpoint)
  : list Attempt :=
  omap (fun entry : string * InterceptEndpoint =>
          let opI := snd entry in
          if Enable opI
             && String.eqb (Level opI) (OperationLevelInterceptor (consts env))
          then Some (interceptorCall interceptorCerts opI
                       (getClusterName prefix organizationID vHost
                          (swaggerTitle mgwSwagger)
                          (swaggerVersion mgwSwagger) (ClusterName opI)))
          else None)
       (map_to_list interceptors).

(** The calls of one iteration of the resource loop, in the order of the
    source; the resource-level interceptors the operation-level ones fall
    back to are those the steps of the translation leave. *)
Definition resourceCalls (env : Env) (mgwSwagger : MgwSwagger)
    (upstreamCerts interceptorCerts : CertStore)
    (vHost organizationID : string) (api : ApiScope)
    (apiLevelBasePathSand : string) (out : Outputs) (resource : Resource)
  : exec (list Attempt) :=
  let k := consts env in
  let inherit :=
    strictBasePath api
    || (bool_decide (available (resourceProdEndpoints resource) = None)
        && bool_decide (available (resourceSandEndpoints resource) = None)) in
  let resourceBasePath :=
    if inherit then apiLevelBasePathProd api else "" in
  let resourceBasePathSand :=
    if inherit
    then if negb (isEmpty apiLevelBasePathSand)
         then apiLevelBasePathSand else apiLevelBasePathProd api
    else "" in
  '(_, _, out) ←
    resourceProd env mgwSwagger upstreamCerts vHost organizationID api
      resource resourceBasePath out;
  '(_, _, _, out) ←
    resourceSand env mgwSwagger upstreamCerts vHost organizationID api
      apiLevelBasePathSand resource resourceBasePathSand out;
  '(resourceRequestInterceptor, out) ←
    resourceLevelInterceptor env mgwSwagger interceptorCerts vHost
      organizationID resource (xWso2requestInterceptor k)
      (requestInterceptClustersNamePrefix k) (apiRequestInterceptor api) out;
  '(_, out) ←
    operationInterceptors env mgwSwagger interceptorCerts vHost
      organizationID resource true (requestInterceptClustersNamePrefix k)
      (apiRequestInterceptor api) resourceRequestInterceptor out;
  '(resourceResponseInterceptor, _) ←
    resourceLevelInterceptor env mgwSwagger interceptorCerts vHost
      organizationID resource (xWso2responseInterceptor k)
      (responseInterceptClustersNamePrefix k) (apiResponseInterceptor api)
      out;
  Return
    (resourceUpstreamCalls env mgwSwagger upstreamCerts vHost organizationID
       resource (resourceProdEndpoints resource) resourceBasePath
     ++ resourceUpstreamCalls env mgwSwagger upstreamCerts vHost
          organizationID resource (resourceSandEndpoints resource)
          resourceBasePathSand
     ++ resourceInterceptorCalls env mgwSwagger interceptorCerts vHost
          organizationID resource (xWso2requestInterceptor k)
          (requestInterceptClustersNamePrefix k)
     ++ operationCalls env mgwSwagger interceptorCerts vHost organizationID
          (requestInterceptClustersNamePrefix k)
          (GetOperationInterceptors (ext env) (apiRequestInterceptor api)
             resourceRequestInterceptor (resourceOperations resource) true)
     ++ resourceInterceptorCalls env mgwSwagger interceptorCerts vHost
          organizationID resource (xWso2responseInterceptor k)
          (responseInterceptClustersNamePrefix k)
     ++ operationCalls env mgwSwagger interceptorCerts vHost organizationID
          (responseInterceptClustersNamePrefix k)
          (GetOperationInterceptors (ext env) (apiResponseInterceptor api)
             resourceResponseInterceptor (resourceOperations resource)
             false))%list.

(** The calls of the resource loop: an iteration starts from the
    [apiLevelBasePathSand] and the outputs the iteration before it has
    left. *)
Fixpoint resourcesCalls (env : Env) (mgwSwagger : MgwSwagger)
    (upstreamCerts interceptorCerts : CertStore)
    (vHost organizationID : string) (api : ApiScope)
    (apiLevelBasePathSand : string) (out : Outputs)
    (resources : list Resource) : exec (list Attempt) :=
  match resources with
  | [] => Return []
  | resource :: rest =>
      here ←
        resourceCalls env mgwSwagger upstreamCerts interceptorCerts vHost
          organizationID api apiLevelBasePathSand out resource;
      '(_, apiLevelBasePathSand, out) ←
        planResource env mgwSwagger upstreamCerts interceptorCerts vHost
          organizationID api apiLevelBasePathSand out resource;
      later ←
        resourcesCalls env mgwSwagger upstreamCerts interceptorCerts vHost
          organizationID api apiLevelBasePathSand out rest;
      Return (here ++ later)%list
  end.

(** The calls of the Endpoint Compiler a translation makes, in the order
    it makes them: those of the API level, then, unless the API is a
    WebSocket API, those of each resource in model order. *)
Definition attemptsOf (env : Env) (registry : ConsulKeyMap)
    (mgwSwagger : MgwSwagger) (upstreamCerts interceptorCerts : CertStore)
    (vHost organizationID : string) : exec (list Attempt) :=
  here ←
    apiCalls env mgwSwagger upstreamCerts interceptorCerts vHost
      organizationID registry;
  '(api, apiLevelBasePathSand, out) ←
    apiLevel env mgwSwagger upstreamCerts interceptorCerts vHost
      organizationID registry;
  if String.eqb (swaggerAPIType mgwSwagger) WS then Return here
  else
    later ←
      resourcesCalls env mgwSwagger upstreamCerts interceptorCerts vHost
        organizationID api apiLevelBasePathSand out
        (swaggerResources mgwSwagger);
    Return (here ++ later)%list.

(** [groups] is the endpoint hierarchy of the API in traversal order:
    the groups of the API level, then those of each resource in model
    order (none for a WebSocket API); the operation-level interceptors of
    a resource are those [GetOperationInterceptors] gives for its
    operations. *)
Definition hierarchy (env : Env) (mgwSwagger : MgwSwagger)
    (groups : list EndpointCluster) : Prop :=
  exists perResource : list (list EndpointCluster),
    groups = (apiGroups env mgwSwagger ++ concat perResource)%list
    /\ if String.eqb (swaggerAPIType mgwSwagger) WS
       then perResource = []
       else Forall2
              (fun resource gs =>
                 exists a r a' r',
                   gs = resourceGroups env resource
                          (GetOperationInterceptors (ext env) a r
                             (resourceOperations resource) true)
                          (GetOperationInterceptors (ext env) a' r'
                             (resourceOperations resource) false))
              (swaggerResources mgwSwagger) perResource.

End spec.

(** *** Concrete inputs

    Used to evaluate the translation: scenario S2 of the specification
    (production [/v2], sandbox [/v2-sand]) and variations of it. *)

Module sample.
Import envoyconf.

Definition constants : Constants :=
  {| xWso2EPClustersConfigNamePrefix := "xwso2cluster";
     xWso2requestInterceptor := "x-wso2-request-interceptor";
     xWso2responseInterceptor := "x-wso2-response-interceptor";
     APILevelInterceptor := "api";
     ResourceLevelInterceptor := "resource";
     OperationLevelInterceptor := "operation";
     requestInterceptClustersNamePrefix := "reqInterceptor";
     responseInterceptClustersNamePrefix := "resInterceptor";
     transportSocketName := "envoy.transport_sockets.tls";
     retryPolicyRetriableStatusCodes := "retriable-status-codes";
     pathContextExtension := "path";
     vHostContextExtension := "vHost";
     basePathContextExtension := "basePath";
     methodContextExtension := "method";
     apiVersionContextExtension := "version";
     apiNameContextExtension := "name";
     prodClusterNameContextExtension := "prodClusterName";
     sandClusterNameContextExtension := "sandClusterName" |}.

Definition config : AdapterConfig :=
  {| ClusterTimeoutInSeconds := 20;
     WireLogsEnable := false;
     WireLog := {| LogBodyEnabled := false; LogHeadersEnabled := false;
                   LogTrailersEnabled := false |};
     HpackTableSize := 4096;
     MaxConcurrentStreams := 2147483647;
     DNSRefreshRate := 5000;
     RespectDNSTtl := false;
     HealthTimeout := 1;
     HealthInterval := 10;
     HealthUnhealthyThreshold := 2;
     HealthHealthyThreshold := 2;
     KeyPath := "/home/wso2/security/keystore/mg.key";
     CertPath := "/home/wso2/security/keystore/mg.pem";
     Ciphers := "ECDHE-ECDSA-AES128-GCM-SHA256, ECDHE-RSA-AES128-GCM-SHA256";
     MinimumProtocolVersion := "TLS1_1";
     MaximumProtocolVersion := "TLS1_2";
     DisableSslVerification := false;
     TrustedCertPath := "/etc/ssl/certs/ca-certificates.crt";
     VerifyHostName := true;
     RouteTimeoutInSeconds := 60;
     RouteIdleTimeoutInSeconds := 300;
     RetryStatusCodes := [504];
     RetryBaseIntervalInMillis := 25 |}.

(** No interceptors are configured; TLS contexts always marshal. *)
Definition externals : Externals :=
  {| GetInterceptor := fun _ _ _ => InterceptEndpoint_zero;
     GetOperationInterceptors := fun _ _ _ _ => ∅;
     ParseIP := fun _ => false;
     generateTLSCert := fun key cert => (key, cert);
     marshalTLSContext := fun _ => Some [];
     GetTemplate := fun _ _ => "";
     renderInterceptor := fun _ t => t;
     renderWireLog := fun _ t => t |}.

Definition env : Env :=
  {| conf := config; consts := constants; ext := externals |}.

Definition endpoint (host basepath : string) : Endpoint :=
  {| Host := host; Basepath := basepath; URLType := "http"; Port := 80;
     ServiceDiscoveryString := "";
     RawURL := "http://" ++ host ++ basepath |}.

Definition group (prefix : string) (eps : list Endpoint) : EndpointCluster :=
  {| EndpointPrefix := prefix; Endpoints := eps;
     EndpointType := "loadbalance"; Config := None;
     HTTP2BackendEnabled := false |}.

Definition resource (id path : string) (methods : list string)
    (prod sand : option EndpointCluster) : Resource :=
  {| resourceID := id; resourcePath := path;
     resourceMethodList := methods;
     resourceProdEndpoints := prod; resourceSandEndpoints := sand;
     resourceVendorExtensions := ∅; resourceOperations := [];
     resourceRewritePath := ""; resourceRewriteMethod := false |}.

Definition swagger (prod sand : option EndpointCluster)
    (resources : list Resource) : MgwSwagger :=
  {| swaggerID := "api-1"; swaggerTitle := "petstore";
     swaggerVersion := "v1"; swaggerAPIType := "HTTP";
     swaggerXWso2Basepath := "/api"; swaggerXWSO2AuthHeader := "";
     swaggerProdEndpoints := prod; swaggerSandEndpoints := sand;
     swaggerXWso2Endpoints := ∅; swaggerVendorExtensions := ∅;
     swaggerCorsConfig := None; swaggerResources := resources;
     swaggerXWso2HTTP2BackendEnabled := false;
     swaggerXWso2RequestBodyPass := false;
     IsDefaultVersion := false |}.

(** Scenario S2: production [/v2], sandbox [/v2-sand], two resources. *)
Definition petstore : MgwSwagger :=
  swagger (Some (group "clusterProd" [endpoint "a.example" "/v2"]))
          (Some (group "clusterSand" [endpoint "s.example" "/v2-sand"]))
          [ resource "r1" "/pets" ["GET"; "POST"] None None;
            resource "r2" "/pets/{id}" ["GET"] None None ].

(** One API-level production group whose second endpoint has another
    base path. *)
Definition mismatched : MgwSwagger :=
  swagger (Some (group "clusterProd"
                   [endpoint "a.example" "/v2"; endpoint "b.example" "/v3"]))
          None
          [ resource "r1" "/pets" ["GET"] None None ].

(** The arguments of a [createRoute] call. *)
Definition params (basePath version : string) (methods : list string)
    (rewriteMethod isDefaultVersion isSandbox : bool) : routeCreateParams :=
  {| organizationID := "org"; title := "petstore"; apiType := "HTTP";
     version := version; vHost := "gw.example.com";
     xWSO2BasePath := basePath; AuthHeader := "";
     prodClusterName := "org_clusterProd_gw.example.com_petstorev1";
     sandClusterName := "org_clusterSand_gw.example.com_petstorev1";
     endpointBasePath := "/v3"; corsPolicy := None;
     resourcePathParam := "/users/{id}"; resourceMethods := methods;
     requestInterceptor := ∅; responseInterceptor := ∅;
     rewritePath := ""; rewriteMethod := rewriteMethod;
     passRequestPayloadToEnforcer := false;
     isDefaultVersion := isDefaultVersion; isSandbox := isSandbox;
     prodRouteConfig := None; sandRouteConfig := None |}.

(** An enabled interceptor with the given request timeout. *)
Definition interceptEndpoint (requestTimeout : Z) : InterceptEndpoint :=
  {| Enable := true; Level := "api";
     InterceptCluster := group "" [endpoint "interceptor.example" ""];
     ClusterName := "org_reqInterceptor_gw.example.com_petstorev1";
     ClusterTimeout := 20; RequestTimeout := requestTimeout;
     Includes := ∅ |}.

Definition invocationContext : InvocationContext :=
  {| icOrganizationID := "org"; icBasePath := "/api";
     icSupportedMethods := "GET"; icAPIName := "petstore";
     icAPIVersion := "v1"; icPathTemplate := "/pets";
     icVhost := "gw.example.com";
     icProdClusterName := "org_clusterProd_gw.example.com_petstorev1";
     icSandClusterName := "org_clusterSand_gw.example.com_petstorev1" |}.

(** Scenario S2 with a resource that rewrites the method: its routes
    carry no header matcher. *)
Definition rewriting : MgwSwagger :=
  swagger (Some (group "clusterProd" [endpoint "a.example" "/v2"]))
          (Some (group "clusterSand" [endpoint "s.example" "/v2-sand"]))
          [ {| resourceID := "r1"; resourcePath := "/pets";
               resourceMethodList := ["GET"];
               resourceProdEndpoints := None; resourceSandEndpoints := None;
               resourceVendorExtensions := ∅; resourceOperations := [];
               resourceRewritePath := ""; resourceRewriteMethod := true |};
            resource "r2" "/pets/{id}" ["GET"] None None ].

(** An API-level production group and a resource-level production group
    with a base-path mismatch, each followed by a group that compiles. *)
Definition partial : MgwSwagger :=
  swagger (Some (group "clusterProd"
                   [endpoint "a.example" "/v2"; endpoint "b.example" "/v3"]))
          (Some (group "clusterSand" [endpoint "s.example" "/v2-sand"]))
          [ resource "r1" "/pets" ["GET"]
              (Some (group "r1Prod"
                       [endpoint "c.example" "/v5";
                        endpoint "d.example" "/v6"]))
              None;
            resource "r2" "/orders" ["GET"]
              (Some (group "r2Prod" [endpoint "e.example" "/v7"])) None ].

(** The configuration with other health-check thresholds. *)
Definition healthEnv (unhealthy healthy : Z) : Env :=
  {| conf :=
       {| ClusterTimeoutInSeconds := ClusterTimeoutInSeconds config;
          WireLogsEnable := WireLogsEnable config;
          WireLog := WireLog config;
          HpackTableSize := HpackTableSize config;
          MaxConcurrentStreams := MaxConcurrentStreams config;
          DNSRefreshRate := DNSRefreshRate config;
          RespectDNSTtl := RespectDNSTtl config;
          HealthTimeout := HealthTimeout config;
          HealthInterval := HealthInterval config;
          HealthUnhealthyThreshold := unhealthy;
          HealthHealthyThreshold := healthy;
          KeyPath := KeyPath config;
          CertPath := CertPath config;
          Ciphers := Ciphers config;
          MinimumProtocolVersion := MinimumProtocolVersion config;
          MaximumProtocolVersion := MaximumProtocolVersion config;
          DisableSslVerification := DisableSslVerification config;
          TrustedCertPath := TrustedCertPath config;
          VerifyHostName := VerifyHostName config;
          RouteTimeoutInSeconds := RouteTimeoutInSeconds config;
          RouteIdleTimeoutInSeconds := RouteIdleTimeoutInSeconds config;
          RetryStatusCodes := RetryStatusCodes config;
          RetryBaseIntervalInMillis := RetryBaseIntervalInMillis config |};
     consts := constants; ext := externals |}.

End sample.

(** *** The REST API of the adapter (package [operations]) *)

Module restserver.

(** [strings.ToUpper]: a string of ASCII bytes has its letters [a..z]
    mapped to [A..Z]; a string with a byte from 0x80 on is mapped rune by
    rune with [unicode.ToUpper], for which [unicodeToUpper] stands. *)
Definition upperByte (c : ascii) : ascii :=
  let n := nat_of_ascii c in
  if (97 <=? n)%nat && (n <=? 122)%nat then ascii_of_nat (n - 32) else c.

Fixpoint isASCII (s : string) : bool :=
  match s with
  | "" => true
  | String c s' => (nat_of_ascii c <? 128)%nat && isASCII s'
  end.

Fixpoint mapBytes (f : ascii -> ascii) (s : string) : string :=
  match s with
  | "" => ""
  | String c s' => String (f c) (mapBytes f s')
  end.

Definition ToUpper (unicodeToUpper : string -> string) (s : string)
  : string :=
  if isASCII s then mapBytes upperByte s else unicodeToUpper s.

(** What the generated code takes from the go-openapi runtime and from
    the operation packages: the types of handlers, consumers, producers
    and of the middleware context and API document, the constructor of
    the routable context, and the constructors of the four operation
    handlers (each from the context and the registered operation
    handler, which may be nil). *)
Record Runtime : Type := {
  Handler : Type;
  Consumer : Type;
  Producer : Type;
  MiddlewareContext : Type;
  Document : Type;
  OperationHandler : Type;
  unicodeToUpper : string -> string;
  NewRoutableContext : Document -> MiddlewareContext;
  NewDeleteApis : MiddlewareContext -> option OperationHandler -> Handler;
  NewGetApis : MiddlewareContext -> option OperationHandler -> Handler;
  NewPostApis : MiddlewareContext -> option OperationHandler -> Handler;
  NewPostOauth2Token :
    MiddlewareContext -> option OperationHandler -> Handler
}.

(** The fields of [RestapiAPI] the modelled methods use.  A map field is
    [None] when it is nil, and so is an interface field; of the two
    authentication functions only whether they are set is kept.  The
    inner maps of [handlers] are never nil: the field is unexported and
    every inner map stored in it is made by [initHandlerCache]. *)
Record RestapiAPI (rt : Runtime) : Type := {
  spec : Document rt;
  context : option (MiddlewareContext rt);
  handlers : option (gmap string (gmap string (Handler rt)));
  customConsumers : option (gmap string (option (Consumer rt)));
  customProducers : option (gmap string (option (Producer rt)));
  JSONConsumer : option (Consumer rt);
  MultipartformConsumer : option (Consumer rt);
  JSONProducer : option (Producer rt);
  BasicAuthAuth : bool;
  BearerTokenAuth : bool;
  APIIndividualDeleteApisHandler : option (OperationHandler rt);
  APICollectionGetApisHandler : option (OperationHandler rt);
  APIIndividualPostApisHandler : option (OperationHandler rt);
  AuthorizationPostOauth2TokenHandler : option (OperationHandler rt)
}.
Arguments spec {rt} _.
Arguments context {rt} _.
Arguments handlers {rt} _.
Arguments customConsumers {rt} _.
Arguments customProducers {rt} _.
Arguments JSONConsumer {rt} _.
Arguments MultipartformConsumer {rt} _.
Arguments JSONProducer {rt} _.
Arguments BasicAuthAuth {rt} _.
Arguments BearerTokenAuth {rt} _.
Arguments APIIndividualDeleteApisHandler {rt} _.
Arguments APICollectionGetApisHandler {rt} _.
Arguments APIIndividualPostApisHandler {rt} _.
Arguments AuthorizationPostOauth2TokenHandler {rt} _.

Section methods.
Context {rt : Runtime}.

Definition setHandlers (o : RestapiAPI rt)
    (h : option (gmap string (gmap string (Handler rt)))) : RestapiAPI rt :=
  {| spec := spec o; context := context o; handlers := h;
     customConsumers := customConsumers o;
     customProducers := customProducers o;
     JSONConsumer := JSONConsumer o;
     MultipartformConsumer := MultipartformConsumer o;
     JSONProducer := JSONProducer o;
     BasicAuthAuth := BasicAuthAuth o; BearerTokenAuth := BearerTokenAuth o;
     APIIndividualDeleteApisHandler := APIIndividualDeleteApisHandler o;
     APICollectionGetApisHandler := APICollectionGetApisHandler o;
     APIIndividualPostApisHandler := APIIndividualPostApisHandler o;
     AuthorizationPostOauth2TokenHandler :=
       AuthorizationPostOauth2TokenHandler o |}.

Definition setContext (o : RestapiAPI rt)
    (c : option (MiddlewareContext rt)) : RestapiAPI rt :=
  {| spec := spec o; context := c; handlers := handlers o;
     customConsumers := customConsumers o;
     customProducers := customProducers o;
     JSONConsumer := JSONConsumer o;
     MultipartformConsumer := MultipartformConsumer o;
     JSONProducer := JSONProducer o;
     BasicAuthAuth := BasicAuthAuth o; BearerTokenAuth := BearerTokenAuth o;
     APIIndividualDeleteApisHandler := APIIndividualDeleteApisHandler o;
     APICollectionGetApisHandler := APICollectionGetApisHandler o;
     APIIndividualPostApisHandler := APIIndividualPostApisHandler o;
     AuthorizationPostOauth2TokenHandler :=
       AuthorizationPostOauth2TokenHandler o |}.

Definition setCustomConsumers (o : RestapiAPI rt)
    (m : option (gmap string (option (Consumer rt)))) : RestapiAPI rt :=
  {| spec := spec o; context := context o; handlers := handlers o;
     customConsumers := m;
     customProducers := customProducers o;
     JSONConsumer := JSONConsumer o;
     MultipartformConsumer := MultipartformConsumer o;
     JSONProducer := JSONProducer o;
     BasicAuthAuth := BasicAuthAuth o; BearerTokenAuth := BearerTokenAuth o;
     APIIndividualDeleteApisHandler := APIIndividualDeleteApisHandler o;
     APICollectionGetApisHandler := APICollectionGetApisHandler o;
     APIIndividualPostApisHandler := APIIndividualPostApisHandler o;
     AuthorizationPostOauth2TokenHandler :=
       AuthorizationPostOauth2TokenHandler o |}.

(** [Validate]: [None] is the nil error. *)
Definition Validate (o : RestapiAPI rt) : option string :=
  let missing {A} (field : option A) (name : string) : list string :=
    match field with None => [name] | Some _ => [] end in
  let unregistered :=
    (missing (JSONConsumer o) "JSONConsumer"
     ++ missing (MultipartformConsumer o) "MultipartformConsumer"
     ++ missing (JSONProducer o) "JSONProducer"
     ++ (if BasicAuthAuth o then [] else ["BasicAuthAuth"])
     ++ (if BearerTokenAuth o then [] else ["BearerTokenAuth"])
     ++ missing (APIIndividualDeleteApisHandler o)
          "api_individual.DeleteApisHandler"
     ++ missing (APICollectionGetApisHandler o)
          "api_collection.GetApisHandler"
     ++ missing (APIIndividualPostApisHandler o)
          "api_individual.PostApisHandler"
     ++ missing (AuthorizationPostOauth2TokenHandler o)
          "authorization.PostOauth2TokenHandler")%list in
  if (0 <? length unregistered)%nat
  then Some ("missing registration: " ++ strings.Join unregistered ", ")
  else None.

(** [m[k]] on a possibly nil map: the value and [ok]. *)
Definition mapLookup {V : Type} (m : option (gmap string V)) (k : string)
  : option V :=
  match m with
  | Some m => m !! k
  | None => None
  end.

(** [ConsumersFor]: one iteration of the loop over the media types. *)
Definition consumersStep (o : RestapiAPI rt)
    (result : gmap string (option (Consumer rt))) (mt : string)
  : gmap string (option (Consumer rt)) :=
  let result :=
    if String.eqb mt "application/json"
    then <["application/json" := JSONConsumer o]> result
    else if String.eqb mt "multipart/form-data"
         then <["multipart/form-data" := MultipartformConsumer o]> result
         else result in
  match mapLookup (customConsumers o) mt with
  | Some c => <[mt := c]> result
  | None => result
  end.

Definition ConsumersFor (o : RestapiAPI rt) (mediaTypes : list string)
  : gmap string (option (Consumer rt)) :=
  fold_left (consumersStep o) mediaTypes ∅.

(** [RegisterConsumer]: a write to a nil map panics. *)
Definition RegisterConsumer (o : RestapiAPI rt) (mediaType : string)
    (consumer : option (Consumer rt)) : exec (RestapiAPI rt) :=
  match customConsumers o with
  | Some m => Return (setCustomConsumers o (Some (<[mediaType := consumer]> m)))
  | None => Panic "assignment to entry in nil map"
  end.

(** [HandlerFor]: the handler and [ok]. *)
Definition HandlerFor (o : RestapiAPI rt) (method path : string)
  : option (Handler rt) :=
  match handlers o with
  | None => None
  | Some hs =>
      let um := ToUpper (unicodeToUpper rt) method in
      match hs !! um with
      | None => None
      | Some byPath =>
          let path := if String.eqb path "/" then "" else path in
          byPath !! path
      end
  end.

(** [Context]: the middleware context, made on first use. *)
Definition Context (o : RestapiAPI rt)
  : RestapiAPI rt * MiddlewareContext rt :=
  match context o with
  | Some c => (o, c)
  | None =>
      let c := NewRoutableContext rt (spec o) in
      (setContext o (Some c), c)
  end.

(** [o.handlers[method][path] = h] after
    [if o.handlers[method] == nil { o.handlers[method] = make(...) }]. *)
Definition register (hs : gmap string (gmap string (Handler rt)))
    (method path : string) (h : Handler rt)
  : gmap string (gmap string (Handler rt)) :=
  <[method := <[path := h]> (default ∅ (hs !! method))]> hs.

Definition initHandlerCache (o : RestapiAPI rt) : RestapiAPI rt :=
  let '(o, c) := Context o in
  let hs := default ∅ (handlers o) in
  let hs := register hs "DELETE" "/apis"
              (NewDeleteApis rt c (APIIndividualDeleteApisHandler o)) in
  let hs := register hs "GET" "/apis"
              (NewGetApis rt c (APICollectionGetApisHandler o)) in
  let hs := register hs "POST" "/apis"
              (NewPostApis rt c (APIIndividualPostApisHandler o)) in
  let hs := register hs "POST" "/oauth2/token"
              (NewPostOauth2Token rt c
                 (AuthorizationPostOauth2TokenHandler o)) in
  setHandlers o (Some hs).

(** [Init]: [len(o.handlers) == 0] holds of a nil and of an empty map. *)
Definition Init (o : RestapiAPI rt) : RestapiAPI rt :=
  if (size (default ∅ (handlers o)) =? 0)%nat then initHandlerCache o
  else o.

(** [AddMiddlewareFor]: the handler is looked up under the upper-cased
    method and stored under the method as it was given; the store
    panics when there is no inner map under that key. *)
Definition AddMiddlewareFor (o : RestapiAPI rt) (method path : string)
    (builder : Handler rt -> Handler rt) : exec (RestapiAPI rt) :=
  let um := ToUpper (unicodeToUpper rt) method in
  let path := if String.eqb path "/" then "" else path in
  let o := Init o in
  let hs := default ∅ (handlers o) in
  match default ∅ (hs !! um) !! path with
  | Some h =>
      match hs !! method with
      | Some byPath =>
          Return (setHandlers o
                    (Some (<[method := <[path := builder h]> byPath]> hs)))
      | None => Panic "assignment to entry in nil map"
      end
  | None => Return o
  end.

End methods.

(** A runtime for evaluation: handlers, consumers and producers are
    named by strings. *)
Definition sampleRuntime : Runtime :=
  {| Handler := string; Consumer := string; Producer := string;
     MiddlewareContext := unit; Document := unit;
     OperationHandler := string;
     unicodeToUpper := fun s => s;
     NewRoutableContext := fun _ => tt;
     NewDeleteApis := fun _ _ => "DeleteApis";
     NewGetApis := fun _ _ => "GetApis";
     NewPostApis := fun _ _ => "PostApis";
     NewPostOauth2Token := fun _ _ => "PostOauth2Token" |}.

(** An API as [NewRestapiAPI] leaves it: empty maps, everything
    registered. *)
Definition sampleAPI : RestapiAPI sampleRuntime :=
  Build_RestapiAPI sampleRuntime tt None (Some ∅) (Some ∅) (Some ∅)
    (Some "json") (Some "discard") (Some "json") true true
    (Some "delete") (Some "get") (Some "post") (Some "token").

End restserver.

(* ===================================================================== *)
(** ** Part II. Properties                                                *)
(* ===================================================================== *)

Import strings envoyconf.

(** *** Sanity checks of the library models on concrete inputs *)

Example strings_examples :
  TrimSuffix "/api/" "/" = "/api"
  /\ TrimSuffix "/api" "/" = "/api"
  /\ LastIndex "/foo/v2/v2" "/v2" = 7
  /\ LastIndex "/foo" "/v2" = -1
  /\ Replace "a b c" " " "" (-1) = "abc"
  /\ Replace "/foo/v2/v2" "/v2" "" 1 = "/foo/v2"
  /\ Join ["GET"; "POST"] "|" = "GET|POST"
  /\ Split "/a?b?c" "?" = ["/a"; "b"; "c"]
  /\ TrimSpace "  a b   " = "a b"
  /\ strconv.FormatInt (-120) = "-120"
  /\ strconv.FormatInt 0 = "0"
  /\ regexp.ReplaceAllString "/a/{x}/{}/{y" "P" = "/a/P/{}/{y".
Proof. vm_compute. repeat split. Qed.

(** *** Facts about strings *)

Section string_facts.

Lemma append_nil_r (s : string) : s ++ "" = s.
Proof. induction s as [|a s IH]; simpl; [done | by rewrite IH]. Qed.

Lemma append_nil_l (s : string) : "" ++ s = s.
Proof. done. Qed.

Lemma append_assoc (s t u : string) : (s ++ t) ++ u = s ++ t ++ u.
Proof. induction s as [|a s IH]; simpl; [done | by rewrite IH]. Qed.

Lemma length_append (s t : string) :
  String.length (s ++ t) = (String.length s + String.length t)%nat.
Proof. induction s as [|a s IH]; simpl; [done | by rewrite IH]. Qed.

Lemma append_inv_head (s t u : string) : s ++ t = s ++ u -> t = u.
Proof. induction s as [|a s IH]; simpl; [done | intros [=]; auto]. Qed.

Lemma append_inv_tail (s t u : string) : s ++ u = t ++ u -> s = t.
Proof.
  revert t. induction s as [|a s IH]; intros [|b t] H; simpl in *.
  - done.
  - apply (f_equal String.length) in H. simpl in H.
    rewrite length_append in H. lia.
  - apply (f_equal String.length) in H. simpl in H.
    rewrite length_append in H. lia.
  - injection H as -> H. f_equal. auto.
Qed.

Lemma drop_length_append (s t : string) : drop (String.length s) (s ++ t) = t.
Proof. induction s as [|a s IH]; simpl; [by destruct t | done]. Qed.

Lemma take_length_append (s t : string) : take (String.length s) (s ++ t) = s.
Proof.
  induction s as [|a s IH]; simpl; [by destruct t | by rewrite IH].
Qed.

Lemma HasSuffix_append (s suffix : string) : HasSuffix (s ++ suffix) suffix = true.
Proof.
  unfold HasSuffix. rewrite length_append.
  replace (String.length s + String.length suffix - String.length suffix)%nat
    with (String.length s) by lia.
  rewrite drop_length_append, String.eqb_refl, andb_true_r.
  apply Nat.leb_le. lia.
Qed.

Lemma TrimSuffix_append (s suffix : string) : TrimSuffix (s ++ suffix) suffix = s.
Proof.
  unfold TrimSuffix. rewrite HasSuffix_append, length_append.
  replace (String.length s + String.length suffix - String.length suffix)%nat
    with (String.length s) by lia.
  apply take_length_append.
Qed.

Lemma occurs_append (c : ascii) (s t : string) :
  spec.occurs c (s ++ t) = spec.occurs c s || spec.occurs c t.
Proof.
  induction s as [|a s IH]; [done|].
  change (String a s ++ t) with (String a (s ++ t)).
  cbn [spec.occurs]. by rewrite IH, orb_assoc.
Qed.

End string_facts.

(** *** Name Mint *)

Section name_mint.

Lemma replaceScan_spaces (s : string) :
  replaceScan s " " "" 0 None = spec.stripSpaces s.
Proof.
  induction s as [|a s IH]; [done|].
  cbn [replaceScan spec.stripSpaces budgetLeft HasPrefix andb].
  rewrite andb_true_r. destruct (Ascii.eqb a " "); simpl; by rewrite IH.
Qed.

(** [strings.Replace(s, " ", "", -1)] removes every space. *)
Lemma Replace_spaces (s : string) : Replace s " " "" (-1) = spec.stripSpaces s.
Proof. unfold Replace. simpl. apply replaceScan_spaces. Qed.

(** C3: [getClusterName] returns
    [trim(org + "_" + prefix + "_" + vHost + "_" + stripSpaces(title) + version)]
    when [resourceID] is empty, and that string followed by
    ["_" + stripSpaces(resourceID) + "0"] when it is not. *)
Theorem getClusterName_spec (prefix org vHost title version resourceID : string) :
  getClusterName prefix org vHost title version resourceID
  = spec.clusterName prefix org vHost title version resourceID.
Proof.
  unfold getClusterName, spec.clusterName.
  rewrite !Replace_spaces.
  destruct (decide (resourceID = "")) as [->|Hne]; [done|].
  apply String.eqb_neq in Hne. by rewrite Hne.
Qed.

Lemma clusterName_resource_inv (name r1 r2 : string) :
  name ++ "_" ++ r1 ++ "0" = name ++ "_" ++ r2 ++ "0" -> r1 = r2.
Proof.
  intros H. apply append_inv_head in H. simpl in H. injection H as H.
  by apply append_inv_tail in H.
Qed.

Lemma clusterName_resource_longer (name r : string) :
  name <> name ++ "_" ++ r ++ "0".
Proof.
  intros H. apply (f_equal String.length) in H.
  rewrite !length_append in H. simpl in H. lia.
Qed.

(** [getClusterName] is not injective over the tuple: the separator may
    occur inside a component, title and version are concatenated without
    a separator, and spaces are stripped from the resource identifier. *)
Lemma getClusterName_not_injective :
  getClusterName "c" "a_b" "h" "t" "v" "" = getClusterName "b_c" "a" "h" "t" "v" ""
  /\ getClusterName "p" "o" "h" "t1" "v" "" = getClusterName "p" "o" "h" "t" "1v" ""
  /\ getClusterName "p" "o" "h" "t" "v" "a b" = getClusterName "p" "o" "h" "t" "v" "ab".
Proof. vm_compute. done. Qed.

(** C8, as the claim states it, fails: the tuples
    [(o, p, h, t, v, "a b")] and [(o, p, h, t, v, "ab")] differ, and only
    in the resource identifier, but yield the same cluster name. *)
Lemma getClusterName_injective_counterexample :
  ~ (forall prefix org vHost title version r prefix' org' vHost' title'
            version' r' : string,
        getClusterName prefix org vHost title version r
        = getClusterName prefix' org' vHost' title' version' r' ->
        (org, prefix, vHost, spec.stripSpaces title, version, r)
        = (org', prefix', vHost', spec.stripSpaces title', version', r')).
Proof.
  intros H.
  specialize (H "p" "o" "h" "t" "v" "a b" "p" "o" "h" "t" "v" "ab" eq_refl).
  discriminate H.
Qed.

Lemma getClusterName_unfold (prefix org vHost title version r : string) :
  getClusterName prefix org vHost title version r
  = let name :=
      TrimSpace (org ++ "_" ++ prefix ++ "_" ++ vHost ++ "_"
                 ++ spec.stripSpaces title ++ version) in
    if String.eqb r "" then name
    else name ++ "_" ++ spec.stripSpaces r ++ "0".
Proof.
  unfold getClusterName. rewrite !Replace_spaces. by destruct (String.eqb r "").
Qed.

(** Two texts cut at their first separator agree part by part. *)
Lemma split_at_separator (c : ascii) (a a' b b' : string) :
  spec.occurs c a = false ->
  spec.occurs c a' = false ->
  a ++ String c b = a' ++ String c b' ->
  a = a' /\ b = b'.
Proof.
  revert a'. induction a as [|x a IH]; intros [|x' a'] Ha Ha'.
  - by intros [= ->].
  - intros [= <- _]. cbn [spec.occurs] in Ha'.
    by rewrite Ascii.eqb_refl in Ha'.
  - intros [= -> _]. cbn [spec.occurs] in Ha.
    by rewrite Ascii.eqb_refl in Ha.
  - cbn [spec.occurs] in Ha, Ha'.
    apply orb_false_elim in Ha as [_ Ha]. apply orb_false_elim in Ha' as [_ Ha'].
    change (String x a ++ String c b) with (String x (a ++ String c b)).
    change (String x' a' ++ String c b') with (String x' (a' ++ String c b')).
    intros [= -> H]. destruct (IH a' Ha Ha' H) as [-> ->]. done.
Qed.

(** The cluster name of components that are free of the separator and
    need no trimming determines them, the title and the version only
    jointly. *)
Lemma getClusterName_separator_free
    (prefix org vHost title version r prefix' org' vHost' title' version' r' : string) :
  let joined o p h t v :=
    o ++ "_" ++ p ++ "_" ++ h ++ "_" ++ spec.stripSpaces t ++ v in
  Forall (fun s => spec.occurs "_" s = false)
         [org; prefix; vHost; spec.stripSpaces title ++ version;
          org'; prefix'; vHost'; spec.stripSpaces title' ++ version'] ->
  TrimSpace (joined org prefix vHost title version)
  = joined org prefix vHost title version ->
  TrimSpace (joined org' prefix' vHost' title' version')
  = joined org' prefix' vHost' title' version' ->
  getClusterName prefix org vHost title version r
  = getClusterName prefix' org' vHost' title' version' r' ->
  org = org' /\ prefix = prefix' /\ vHost = vHost'
  /\ spec.stripSpaces title ++ version = spec.stripSpaces title' ++ version'
  /\ (r = "" <-> r' = "")
  /\ spec.stripSpaces r = spec.stripSpaces r'.
Proof.
  intros joined Hfree Htrim Htrim'.
  rewrite !getClusterName_unfold. cbv zeta. fold (joined org prefix vHost title version).
  fold (joined org' prefix' vHost' title' version'). rewrite Htrim, Htrim'.
  unfold joined. clear joined Htrim Htrim'.
  set (tv := spec.stripSpaces title ++ version) in *.
  set (tv' := spec.stripSpaces title' ++ version') in *.
  repeat (apply Forall_cons in Hfree as [? Hfree]).
  assert (forall e e' : string,
             org ++ "_" ++ prefix ++ "_" ++ vHost ++ "_" ++ tv ++ e
             = org' ++ "_" ++ prefix' ++ "_" ++ vHost' ++ "_" ++ tv' ++ e' ->
             org = org' /\ prefix = prefix' /\ vHost = vHost'
             /\ tv ++ e = tv' ++ e') as Hsplit.
  { intros e e' He.
    apply (split_at_separator "_") in He as [-> He]; [|done..].
    apply (split_at_separator "_") in He as [-> He]; [|done..].
    apply (split_at_separator "_") in He as [-> He]; [|done..].
    done. }
  destruct (String.eqb_spec r "") as [->|Hr],
           (String.eqb_spec r' "") as [->|Hr'].
  - intros He. rewrite <- (append_nil_r tv), <- (append_nil_r tv') in He.
    apply Hsplit in He as (-> & -> & -> & He).
    by rewrite !append_nil_r in He.
  - intros He. rewrite <- (append_nil_r tv) in He.
    rewrite !append_assoc in He.
    apply Hsplit in He as (_ & _ & _ & He).
    rewrite append_nil_r in He.
    assert (spec.occurs "_" tv = true) as Habs; [|congruence].
    rewrite He, occurs_append. cbn. by rewrite orb_true_r.
  - intros He. rewrite <- (append_nil_r tv') in He.
    rewrite !append_assoc in He.
    apply Hsplit in He as (_ & _ & _ & He).
    rewrite append_nil_r in He.
    assert (spec.occurs "_" tv' = true) as Habs; [|congruence].
    rewrite <- He, occurs_append. cbn. by rewrite orb_true_r.
  - intros He. rewrite !append_assoc in He.
    apply Hsplit in He as (-> & -> & -> & He).
    change ("_" ++ ?x) with (String "_" x) in He.
    apply (split_at_separator "_") in He as [-> He]; [|done..].
    apply append_inv_tail in He. done.
Qed.

(** C8 (amended): [getClusterName] is a function of its arguments; with
    all other arguments equal, two resource identifiers yield the same
    cluster name exactly when both are empty or both are non-empty and
    equal once their spaces are removed; and when organization, endpoint
    prefix, vHost and the stripped title joined with the version hold no
    underscore and the joined name needs no trimming, equal cluster names
    have equal organization, prefix, vHost, title joined with version,
    and space-stripped resource identifier. *)
Theorem getClusterName_resourceID (prefix org vHost title version r1 r2 : string) :
  (forall prefix' org' vHost' title' version' r1',
      (prefix, org, vHost, title, version, r1)
      = (prefix', org', vHost', title', version', r1') ->
      getClusterName prefix org vHost title version r1
      = getClusterName prefix' org' vHost' title' version' r1')
  /\ (getClusterName prefix org vHost title version r1
      = getClusterName prefix org vHost title version r2
      <-> (r1 = "" /\ r2 = "")
          \/ (r1 <> "" /\ r2 <> ""
              /\ spec.stripSpaces r1 = spec.stripSpaces r2))
  /\ (forall prefix' org' vHost' title' version',
         let joined o p h t v :=
           o ++ "_" ++ p ++ "_" ++ h ++ "_" ++ spec.stripSpaces t ++ v in
         Forall (fun s => spec.occurs "_" s = false)
                [org; prefix; vHost; spec.stripSpaces title ++ version;
                 org'; prefix'; vHost'; spec.stripSpaces title' ++ version'] ->
         TrimSpace (joined org prefix vHost title version)
         = joined org prefix vHost title version ->
         TrimSpace (joined org' prefix' vHost' title' version')
         = joined org' prefix' vHost' title' version' ->
         getClusterName prefix org vHost title version r1
         = getClusterName prefix' org' vHost' title' version' r2 ->
         org = org' /\ prefix = prefix' /\ vHost = vHost'
         /\ spec.stripSpaces title ++ version
            = spec.stripSpaces title' ++ version'
         /\ (r1 = "" <-> r2 = "")
         /\ spec.stripSpaces r1 = spec.stripSpaces r2).
Proof.
  split; [by intros ?????? [= <- <- <- <- <- <-]|].
  split; [|intros; by eapply getClusterName_separator_free].
  rewrite !getClusterName_unfold. cbv zeta.
  destruct (String.eqb_spec r1 "") as [->|H1],
           (String.eqb_spec r2 "") as [->|H2].
  - split; [by left | done].
  - split; [|by intros [[_ ?]|(? & _)]].
    intros H. by apply clusterName_resource_longer in H.
  - split; [|by intros [[? _]|(_ & ? & _)]].
    intros H. symmetry in H. by apply clusterName_resource_longer in H.
  - split.
    + intros H%clusterName_resource_inv. auto.
    + intros [[? _]|(_ & _ & ->)]; done.
Qed.

Lemma getClusterName_resourceID_witness :
  getClusterName "p" "o" "h" "t" "v" "r1"
  <> getClusterName "p" "o" "h" "t" "v" "r2"
  /\ (getClusterName "p" "o" "h" "pet store" "v1" "r"
      = getClusterName "p" "o" "h" "petstore" "v1" "r" ->
      spec.stripSpaces "pet store" ++ "v1" = spec.stripSpaces "petstore" ++ "v1").
Proof.
  split.
  - intros H.
    destruct (getClusterName_resourceID "p" "o" "h" "t" "v" "r1" "r2")
      as (_ & [Hresource _] & _).
    destruct (Hresource H) as [[Habs _]|(_ & _ & Habs)]; discriminate Habs.
  - intros H.
    destruct (getClusterName_resourceID "p" "o" "h" "pet store" "v1" "r" "r")
      as (_ & _ & Htuple).
    apply (Htuple "p" "o" "h" "petstore" "v1");
      [repeat (constructor; [reflexivity|]); constructor
      | reflexivity | reflexivity | exact H].
Defined.

End name_mint.

(** *** Route Compiler: header matchers *)

Section headers.

Lemma HasPrefix_append_barrier (c : ascii) (p u v : string) :
  spec.occurs c p = false ->
  HasPrefix (u ++ String c v) p = HasPrefix u p.
Proof.
  revert u. induction p as [|b p IH]; intros u Hc; [done|].
  simpl in Hc. apply orb_false_elim in Hc as [Hb Hp].
  destruct u as [|a u]; simpl.
  - by rewrite Ascii.eqb_sym, Hb.
  - by rewrite IH.
Qed.

Lemma Contains_append_barrier (c : ascii) (sub s t : string) :
  spec.occurs c sub = false ->
  Contains (s ++ String c t) sub = Contains s sub || Contains t sub.
Proof.
  intros Hc. induction s as [|a s IH].
  - change ("" ++ String c t) with (String c t).
    cbn [Contains]. rewrite <- (HasPrefix_append_barrier c sub "" t Hc).
    by rewrite orb_false_r.
  - change (String a s ++ String c t) with (String a (s ++ String c t)).
    cbn [Contains]. rewrite IH.
    change (String a (s ++ String c t)) with (String a s ++ String c t).
    rewrite HasPrefix_append_barrier by done.
    by rewrite orb_assoc.
Qed.

Lemma HasPrefix_refl (s : string) : HasPrefix s s = true.
Proof. induction s as [|a s IH]; simpl; [done|]. by rewrite Ascii.eqb_refl. Qed.

Lemma Contains_refl (s : string) : Contains s s = true.
Proof. destruct s; simpl; [done|]. by rewrite Ascii.eqb_refl, HasPrefix_refl. Qed.

Lemma Join_cons (x y : string) (rest : list string) (sep : string) :
  Join (x :: y :: rest) sep = x ++ sep ++ Join (y :: rest) sep.
Proof. done. Qed.

Lemma Join_snoc (elems : list string) (x sep : string) :
  elems <> [] -> Join (elems ++ [x]) sep = Join elems sep ++ sep ++ x.
Proof.
  induction elems as [|a [|b rest] IH]; intros Hne; [done|done|].
  change ((a :: b :: rest) ++ [x])%list with (a :: b :: (rest ++ [x]))%list.
  rewrite !Join_cons, !append_assoc. do 2 f_equal.
  by apply (IH ltac:(done)).
Qed.

(** Whether the joined methods contain [OPTIONS] is decided method by
    method: the separator does not occur in [OPTIONS]. *)
Lemma Contains_Join_OPTIONS (methods : list string) :
  Contains (Join methods "|") "OPTIONS"
  = existsb (fun m => Contains m "OPTIONS") methods.
Proof.
  induction methods as [|a [|b rest] IH]; [done| |].
  - simpl Join. simpl existsb. by rewrite orb_false_r.
  - rewrite Join_cons.
    change (a ++ "|" ++ Join (b :: rest) "|")
      with (a ++ String "|" (Join (b :: rest) "|")).
    rewrite Contains_append_barrier by done.
    by rewrite IH.
Qed.

Lemma existsb_Contains_OPTIONS (methods : list string) :
  Forall (fun m => m = "OPTIONS" \/ Contains m "OPTIONS" = false) methods ->
  existsb (fun m => Contains m "OPTIONS") methods
  = bool_decide ("OPTIONS" ∈ methods).
Proof.
  induction 1 as [|m methods Hm _ IH]; [done|].
  simpl. rewrite IH. destruct Hm as [->|Hm].
  - rewrite Contains_refl. symmetry. apply bool_decide_eq_true.
    by left.
  - rewrite Hm. simpl. apply bool_decide_ext. rewrite elem_of_cons.
    split; [by right|]. intros [<-|?]; [|done].
    by rewrite Contains_refl in Hm.
Qed.

Lemma rmHeaders_createRoute (env : Env) (params : routeCreateParams) :
  rmHeaders (rtMatch (createRoute env params)) = routeHeaders params.
Proof. done. Qed.

(** C4, as the claim states it, fails: a route for an empty method list
    does not carry the method regex [^(OPTIONS)$] the claim gives but
    [^(|OPTIONS)$]. *)
Lemma createRoute_method_regex_counterexample :
  ~ (forall (env : Env) (params : routeCreateParams),
        rewriteMethod params = false ->
        exists rest,
          rmHeaders (rtMatch (createRoute env params))
          = spec.methodMatcher (spec.methodRegex (resourceMethods params)) :: rest).
Proof.
  intros H.
  destruct (H sample.env (sample.params "/api" "v1" [] false false false)
              eq_refl) as [rest Hrest].
  vm_compute in Hrest. discriminate Hrest.
Qed.

(** C4 (amended): with [rewriteMethod] false and a non-empty method list
    in which only [OPTIONS] itself contains the text [OPTIONS] (so every
    list of standard HTTP verbs), the first header matcher of the route
    is on [:method] with the regex [^(M1|M2|...|OPTIONS)$] over the
    method list, [OPTIONS] appended when it is not listed; for an empty
    method list the regex is [^(|OPTIONS)$]; with [rewriteMethod] true
    the route match has no header matcher. *)
Theorem createRoute_method_matcher (env : Env) (params : routeCreateParams) :
  (rewriteMethod params = false ->
   resourceMethods params <> [] ->
   Forall (fun m => m = "OPTIONS" \/ Contains m "OPTIONS" = false)
          (resourceMethods params) ->
   rmHeaders (rtMatch (createRoute env params))
   = spec.methodMatcher (spec.methodRegex (resourceMethods params))
     :: (if isSandbox params then [spec.sandboxMatcher params] else []))
  /\ (rewriteMethod params = false ->
      resourceMethods params = [] ->
      rmHeaders (rtMatch (createRoute env params))
      = spec.methodMatcher "^(|OPTIONS)$"
        :: (if isSandbox params then [spec.sandboxMatcher params] else []))
  /\ (rewriteMethod params = true ->
      rmHeaders (rtMatch (createRoute env params)) = []).
Proof.
  rewrite rmHeaders_createRoute. unfold routeHeaders.
  split; [|split].
  - intros -> Hne Hverbs. cbn [negb].
    rewrite Contains_Join_OPTIONS, existsb_Contains_OPTIONS by done.
    unfold spec.methodRegex, spec.withOptions, spec.methodMatcher.
    destruct (decide ("OPTIONS" ∈ resourceMethods params)) as [Hin|Hin].
    + rewrite bool_decide_eq_true_2 by done. cbn [negb].
      by destruct (isSandbox params).
    + rewrite bool_decide_eq_false_2 by done. cbn [negb].
      rewrite Join_snoc by done.
      by destruct (isSandbox params).
  - intros -> ->. by destruct (isSandbox params).
  - by intros ->.
Qed.

Lemma createRoute_method_matcher_witness :
  rmHeaders (rtMatch (createRoute sample.env
                        (sample.params "/api" "v1" ["GET"; "POST"] false false false)))
  = [spec.methodMatcher "^(GET|POST|OPTIONS)$"]
  /\ rmHeaders (rtMatch (createRoute sample.env
                           (sample.params "/api" "v1" [] false false true)))
     = [spec.methodMatcher "^(|OPTIONS)$";
        spec.sandboxMatcher (sample.params "/api" "v1" [] false false true)]
  /\ rmHeaders (rtMatch (createRoute sample.env
                           (sample.params "/api" "v1" ["GET"] true false false)))
     = [].
Proof.
  split; [|split].
  - apply (createRoute_method_matcher sample.env
             (sample.params "/api" "v1" ["GET"; "POST"] false false false));
      [reflexivity | discriminate
      | repeat (constructor; [right; reflexivity|]); constructor].
  - apply (createRoute_method_matcher sample.env
             (sample.params "/api" "v1" [] false false true)); reflexivity.
  - apply (createRoute_method_matcher sample.env
             (sample.params "/api" "v1" ["GET"] true false false)); reflexivity.
Defined.

(** C5 (the code at the failing input): a sandbox route carries the
    exact-match matcher on the cluster-selector header only when
    [rewriteMethod] is false; the sandbox route of a resource with a
    method-rewrite policy has no header matcher at all, so it is not
    told apart from the production route. *)
Theorem createRoute_sandbox_matcher (env : Env) (params : routeCreateParams) :
  (spec.sandboxMatcher params ∈ rmHeaders (rtMatch (createRoute env params))
   <-> isSandbox params = true /\ rewriteMethod params = false)
  /\ rmHeaders (rtMatch (createRoute env
                           (sample.params "/api" "v1" ["GET"] true false true)))
     = [].
Proof.
  split; [|done].
  rewrite rmHeaders_createRoute. unfold routeHeaders.
  destruct (rewriteMethod params), (isSandbox params); cbn [negb app].
  - split; [by intros ?%elem_of_nil | by intros [_ ?]].
  - split; [by intros ?%elem_of_nil | by intros [? _]].
  - split; [done|]. intros _. apply elem_of_cons. right. by left.
  - split; [|by intros [? _]].
    intros [H|H%elem_of_nil]%elem_of_cons; [|done]. discriminate H.
Qed.

End headers.

(** *** Route Compiler: default-version base path *)

Section default_version.

(** C6 (the code at the failing input): [getDefaultVersionBasepath]
    passes the index of the last occurrence of ["/" + version] to
    [strings.Replace] as the number of occurrences to replace.  For
    [/foo/v2] and [v2] the result is [(?:/foo/v2|/foo)] as specified,
    but for [/foo/v2/v2] every occurrence is removed, and for [/v2],
    where the index is 0, none is. *)
Theorem getDefaultVersionBasepath_replaces_by_index :
  (forall basePath version,
      getDefaultVersionBasepath basePath version
      = "(?:" ++ basePath ++ "|"
        ++ Replace basePath ("/" ++ version) ""
                   (LastIndex basePath ("/" ++ version)) ++ ")")
  /\ getDefaultVersionBasepath "/foo/v2" "v2" = "(?:/foo/v2|/foo)"
  /\ spec.defaultVersionBasepath "/foo/v2" "v2" = "(?:/foo/v2|/foo)"
  /\ getDefaultVersionBasepath "/foo/v2/v2" "v2" = "(?:/foo/v2/v2|/foo)"
  /\ spec.defaultVersionBasepath "/foo/v2/v2" "v2" = "(?:/foo/v2/v2|/foo/v2)"
  /\ getDefaultVersionBasepath "/v2" "v2" = "(?:/v2|/v2)"
  /\ spec.defaultVersionBasepath "/v2" "v2" = "(?:/v2|)"
  /\ (forall env,
         rmSafeRegex (rtMatch (createRoute env
           (sample.params "/foo/v2/v2" "v2" ["GET"] false true false)))
         = "^(?:/foo/v2/v2|/foo)/users/([^/]+)(/{0,1})(\?([^/]+))?$").
Proof. repeat split. Qed.

End default_version.

(** *** Interceptor Compiler: call timeouts *)

Section interceptor_timeout.

Lemma wrap64_small (z : Z) : - 2 ^ 63 <= z < 2 ^ 63 -> wrap64 z = z.
Proof. intros H. unfold wrap64. rewrite Z.mod_small; lia. Qed.

Lemma interceptorTimeout_in_range (d : Z) :
  -9223372036 <= d <= 9223372036 ->
  interceptorTimeout d = strconv.FormatInt (1000 * d).
Proof.
  intros H. unfold interceptorTimeout, durationMul, Milliseconds, Second.
  rewrite wrap64_small by lia. f_equal.
  replace (d * 1000000000) with (1000 * d * 1000000) by lia.
  apply Z.quot_mul. lia.
Qed.

(** C9, as the claim states it, fails: for a [RequestTimeout] of
    [10000000000] (ten seconds in nanoseconds) the multiplication by
    [time.Second] overflows [int64] and the emitted string is not one
    thousand times the value. *)
Lemma interceptor_timeout_counterexample :
  ~ (forall (req resp : gmap string InterceptEndpoint)
            (ctx : InvocationContext) (method : string)
            (op : InterceptEndpoint),
        req !! method = Some op ->
        callTimeout <$> (ExternalCall
                           <$> RequestFlow (buildInterceptor req resp ctx)
                                 !! method)
        = Some (strconv.FormatInt (1000 * RequestTimeout op))).
Proof.
  intros H.
  specialize (H {["GET" := sample.interceptEndpoint 10000000000]} ∅
                sample.invocationContext
                "GET" (sample.interceptEndpoint 10000000000)
                (lookup_singleton_eq _ _)).
  unfold buildInterceptor in H. cbn [RequestFlow] in H.
  rewrite lookup_fmap, lookup_singleton_eq in H.
  vm_compute in H. discriminate H.
Qed.

(** C9 (amended): for every record of the request or response
    interceptor map, the [Timeout] string put into the Lua interceptor
    configuration of its method is the decimal representation of
    [(d * time.Second).Milliseconds()] computed on [int64], where [d] is
    the record's [RequestTimeout]: the product wrapped to 64 bits and
    divided by one million; whenever [d * 10^9] fits in [int64], that is
    for [-9223372036 <= d <= 9223372036], it is the decimal
    representation of one thousand times [d]. *)
Theorem interceptor_timeout (req resp : gmap string InterceptEndpoint)
    (ctx : InvocationContext) (method : string) (op : InterceptEndpoint) :
  let i := buildInterceptor req resp ctx in
  let timeout := strconv.FormatInt
                   (Z.quot (wrap64 (RequestTimeout op * 1000000000)) 1000000) in
  (req !! method = Some op ->
   RequestFlow i !! method
   = Some {| ExternalCall := {| callClusterName := ClusterName op;
                                callTimeout := timeout |};
             Include := Includes op |})
  /\ (resp !! method = Some op ->
      ResponseFlow i !! method
      = Some {| ExternalCall := {| callClusterName := ClusterName op;
                                   callTimeout := timeout |};
                Include := Includes op |})
  /\ (-9223372036 <= RequestTimeout op <= 9223372036 ->
      timeout = strconv.FormatInt (1000 * RequestTimeout op)).
Proof.
  cbn zeta. split; [|split].
  - intros H. cbn [buildInterceptor RequestFlow].
    by rewrite lookup_fmap, H.
  - intros H. cbn [buildInterceptor ResponseFlow].
    by rewrite lookup_fmap, H.
  - apply interceptorTimeout_in_range.
Qed.

Lemma interceptor_timeout_witness :
  RequestFlow (buildInterceptor {["GET" := sample.interceptEndpoint 30]} ∅
                 sample.invocationContext) !! "GET"
  = Some {| ExternalCall :=
              {| callClusterName :=
                   ClusterName (sample.interceptEndpoint 30);
                 callTimeout :=
                   strconv.FormatInt
                     (Z.quot (wrap64 (RequestTimeout (sample.interceptEndpoint 30)
                                      * 1000000000)) 1000000) |};
            Include := Includes (sample.interceptEndpoint 30) |}
  /\ strconv.FormatInt
       (Z.quot (wrap64 (RequestTimeout (sample.interceptEndpoint 30)
                        * 1000000000)) 1000000)
     = strconv.FormatInt (1000 * RequestTimeout (sample.interceptEndpoint 30)).
Proof.
  destruct (interceptor_timeout {["GET" := sample.interceptEndpoint 30]} ∅
              sample.invocationContext "GET" (sample.interceptEndpoint 30))
    as (Hreq & _ & Hrange).
  split; [apply Hreq, lookup_singleton_eq | apply Hrange; simpl; lia].
Defined.

End interceptor_timeout.

(** *** Endpoint Compiler: the first endpoint *)

Section first_endpoint.

Lemma endpointsLoop_nil env cd certs basePath i acc :
  endpointsLoop env cd certs basePath i [] acc = inr acc.
Proof. done. Qed.

Lemma processEndpoints_returns env registry clusterName cd certs timeout basePath :
  Endpoints cd <> [] ->
  exists r,
    processEndpoints env registry clusterName cd certs timeout basePath
    = Return r.
Proof.
  intros H. unfold processEndpoints.
  destruct (endpointsLoop _ _ _ _ _ _ _); [by eexists|].
  destruct (Endpoints cd); [done|]. by eexists.
Qed.

Lemma CreateLuaCluster_returns env registry certs endpoint :
  Endpoints (InterceptCluster endpoint) <> [] ->
  exists r, CreateLuaCluster env registry certs endpoint = Return r.
Proof.
  intros H. unfold CreateLuaCluster.
  destruct (Endpoints (InterceptCluster endpoint)) as [|ep0 rest] eqn:Heps;
    [done|].
  cbn [index0 mbind exec_bind]. apply processEndpoints_returns.
  by rewrite Heps.
Qed.

(** C10: [processEndpoints] and [CreateLuaCluster] index [Endpoints[0]]
    without a check: on an endpoint group without endpoints both panic
    (index out of range) instead of returning an error, and
    [processEndpoints] panics on no other group. *)
Theorem empty_endpoints_panic (env : Env) (registry : ConsulKeyMap)
    (clusterName : string) (clusterDetails : EndpointCluster)
    (certs : CertStore) (timeout : Z) (basePath : string)
    (endpoint : InterceptEndpoint) :
  (Endpoints clusterDetails = [] ->
   processEndpoints env registry clusterName clusterDetails certs timeout
     basePath
   = Panic "index out of range [0] with length 0")
  /\ (Endpoints (InterceptCluster endpoint) = [] ->
      CreateLuaCluster env registry certs endpoint
      = Panic "index out of range [0] with length 0")
  /\ (Endpoints clusterDetails <> [] ->
      exists r,
        processEndpoints env registry clusterName clusterDetails certs
          timeout basePath = Return r).
Proof.
  split; [|split].
  - intros H. unfold processEndpoints. by rewrite H.
  - intros H. unfold CreateLuaCluster. by rewrite H.
  - apply processEndpoints_returns.
Qed.

Lemma empty_endpoints_panic_witness :
  processEndpoints sample.env ∅ "c" (sample.group "p" []) ∅ 20 "/v2"
  = Panic "index out of range [0] with length 0"
  /\ CreateLuaCluster sample.env ∅ ∅
       (setClusterName InterceptEndpoint_zero "c")
     = Panic "index out of range [0] with length 0"
  /\ exists r,
      processEndpoints sample.env ∅ "c"
        (sample.group "p" [sample.endpoint "a.example" "/v2"]) ∅ 20 "/v2"
      = Return r.
Proof.
  split; [|split].
  - apply (empty_endpoints_panic sample.env ∅ "c" (sample.group "p" []) ∅ 20
             "/v2" InterceptEndpoint_zero). reflexivity.
  - apply (empty_endpoints_panic sample.env ∅ "c" (sample.group "p" []) ∅ 20
             "/v2" (setClusterName InterceptEndpoint_zero "c")). reflexivity.
  - apply (empty_endpoints_panic sample.env ∅ "c"
             (sample.group "p" [sample.endpoint "a.example" "/v2"]) ∅ 20
             "/v2" InterceptEndpoint_zero). discriminate.
Defined.

End first_endpoint.

(** *** Endpoint Compiler and API Translator: base-path mismatch *)

Section base_path_mismatch.

Context (env : Env) (mgwSwagger : MgwSwagger)
        (upstreamCerts interceptorCerts : CertStore)
        (vHost organizationID : string).

(** Some endpoint of [eps] has, once a trailing slash is removed, a base
    path other than [basePath]. *)
Local Abbreviation mismatch basePath eps :=
  (Exists (fun ep : Endpoint => TrimSuffix (Basepath ep) "/" <> basePath) eps).

Lemma Endpoints_setHTTP2BackendEnabled g b :
  Endpoints (setHTTP2BackendEnabled g b) = Endpoints g.
Proof. done. Qed.

Lemma EndpointPrefix_setHTTP2BackendEnabled g b :
  EndpointPrefix (setHTTP2BackendEnabled g b) = EndpointPrefix g.
Proof. done. Qed.

Lemma endpointsLoop_mismatch cd certs basePath eps i acc :
  mismatch basePath eps ->
  exists err, endpointsLoop env cd certs basePath i eps acc = inl err.
Proof.
  revert i acc. induction eps as [|ep eps IH]; intros i acc H.
  - by apply Exists_nil in H.
  - cbn [endpointsLoop]. cbv zeta.
    destruct (String.eqb_spec (TrimSuffix (Basepath ep) "/") basePath)
      as [Heq|Hne]; cbn [negb]; [|by eexists].
    apply Exists_cons in H as [H|H]; [done|].
    destruct (_ || _).
    + destruct (marshalTLSContext _ _); [by apply IH | by eexists].
    + by apply IH.
Qed.

Lemma processEndpoints_mismatch registry clusterName cd certs timeout basePath :
  mismatch basePath (Endpoints cd) ->
  exists err,
    processEndpoints env registry clusterName cd certs timeout basePath
    = Return (inl err).
Proof.
  intros H. unfold processEndpoints.
  destruct (endpointsLoop_mismatch cd certs basePath (Endpoints cd) 0
              {| accAddresses := []; accLbEPs := [];
                 accTransportSocketMatches := []; accPriority := 0 |} H)
    as [err ->].
  by exists err.
Qed.

End base_path_mismatch.

(** *** API Translator: the translation returns *)

Section returns.

Context (env : Env) (mgwSwagger : MgwSwagger)
        (upstreamCerts interceptorCerts : CertStore)
        (vHost organizationID : string).

Lemma available_nonempty g c : available g = Some c -> Endpoints c <> [].
Proof.
  unfold available. destruct g as [c'|]; [|done].
  destruct (Endpoints c') eqn:Heps; cbn; [done|].
  intros [= <-]. by rewrite Heps.
Qed.

Lemma available_Some g c : available g = Some c -> g = Some c.
Proof.
  unfold available. destruct g as [c'|]; [|done].
  by destruct (_ <? _)%nat; [intros [= ->]|].
Qed.

Lemma forEach_returns {S A : Type} (body : S -> A -> exec S) (P : S -> Prop)
    (items : list A) (st : S) :
  P st ->
  (forall st x, P st -> x ∈ items -> exists st', body st x = Return st' /\ P st') ->
  exists st', forEach body st items = Return st' /\ P st'.
Proof.
  revert st. induction items as [|x items IH]; intros st Hst Hbody.
  - by exists st.
  - destruct (Hbody st x Hst ltac:(by left)) as (st1 & Hx & Hst1).
    cbn [forEach]. rewrite Hx. cbn [mbind exec_bind].
    apply IH; [done|]. intros st2 y Hst2 Hy. apply Hbody; [done | by right].
Qed.

(** The API-level production block returns, and without production
    endpoints it leaves base path and cluster name empty. *)
Lemma apiLevelProd_returns out :
  exists bp cn out',
    apiLevelProd env mgwSwagger upstreamCerts vHost organizationID out
    = Return (bp, cn, out')
    /\ (available (swaggerProdEndpoints mgwSwagger) = None ->
        bp = "" /\ cn = "").
Proof.
  unfold apiLevelProd.
  destruct (available (swaggerProdEndpoints mgwSwagger)) as [g|] eqn:Hg;
    [|by eexists _, _, _].
  apply available_nonempty in Hg.
  rewrite Endpoints_setHTTP2BackendEnabled.
  destruct (Endpoints g) as [|ep0 rest] eqn:Heps; [done|].
  cbn [index0 mbind exec_bind].
  destruct (negb _); [|by eexists _, _, _].
  edestruct (processEndpoints_returns env) as [[err|built] ->];
    [by rewrite Endpoints_setHTTP2BackendEnabled, Heps | |];
    by eexists _, _, _.
Qed.

Lemma apiLevelSand_returns bpProd cnProd out :
  (available (swaggerProdEndpoints mgwSwagger) = None ->
   bpProd = "" /\ cnProd = "") ->
  exists r,
    apiLevelSand env mgwSwagger upstreamCerts vHost organizationID bpProd
      cnProd out
    = Return r.
Proof.
  intros Hprod. unfold apiLevelSand.
  destruct (available (swaggerSandEndpoints mgwSwagger)) as [g|] eqn:Hg;
    [|by eexists].
  apply available_nonempty in Hg.
  rewrite Endpoints_setHTTP2BackendEnabled.
  destruct (Endpoints g) as [|s0 rest] eqn:Heps; [done|].
  cbn [index0 mbind exec_bind].
  assert (exists paths,
             apiLevelSandBasePaths mgwSwagger bpProd cnProd s0 = Return paths)
    as [[[bp1 bp2] selected] ->].
  { unfold apiLevelSandBasePaths.
    destruct (isEmpty bpProd && isEmpty cnProd) eqn:Hempty; [by eexists|].
    destruct (available (swaggerProdEndpoints mgwSwagger)) as [p|] eqn:Hp.
    - pose proof (available_nonempty _ _ Hp) as Hne.
      apply available_Some in Hp. rewrite Hp. cbn [deref mbind exec_bind].
      destruct (Endpoints p); [done|]. cbn [index0 mbind exec_bind].
      destruct (negb _); by eexists.
    - destruct (Hprod eq_refl) as [-> ->]. done. }
  cbn [mbind exec_bind].
  destruct (negb _); [|by eexists].
  edestruct (processEndpoints_returns env) as [[err|built] ->];
    [by rewrite Endpoints_setHTTP2BackendEnabled, Heps | |];
    by eexists.
Qed.

Lemma xWso2EndpointsStep_returns cnProd st g :
  Endpoints g <> [] ->
  exists st',
    xWso2EndpointsStep env mgwSwagger upstreamCerts vHost organizationID
      cnProd st g
    = Return st'.
Proof.
  intros Hne. destruct st as [[bpProd strict] out].
  unfold xWso2EndpointsStep, xWso2EndpointsBasePath.
  destruct (Endpoints g) as [|ep0 rest] eqn:Heps; [done|].
  assert (Endpoints g <> []) as Hne' by (by rewrite Heps).
  destruct (_ && _); cbn [index0 mbind exec_bind];
    edestruct (processEndpoints_returns env) as [[err|built] ->];
    try exact Hne'; by eexists.
Qed.

Lemma interceptor_returns registry (i : InterceptEndpoint) name :
  (Enable i = true -> Endpoints (InterceptCluster i) <> []) ->
  Enable i = true ->
  exists r,
    CreateLuaCluster env registry interceptorCerts (setClusterName i name)
    = Return r.
Proof. intros Hne Hen. apply CreateLuaCluster_returns. by apply Hne. Qed.

Lemma apiLevelInterceptor_returns extensionName prefix out :
  spec.groupsNonEmpty env mgwSwagger ->
  exists r,
    apiLevelInterceptor env mgwSwagger interceptorCerts vHost organizationID
      extensionName prefix out
    = Return r.
Proof.
  intros (_ & Hi & _). unfold apiLevelInterceptor.
  destruct (Enable _) eqn:Hen; [|by eexists].
  edestruct interceptor_returns as [[err|built] ->];
    [apply Hi | exact Hen | |]; by eexists.
Qed.

Lemma resourceLevelInterceptor_returns resource extensionName prefix current out :
  spec.groupsNonEmpty env mgwSwagger ->
  exists r,
    resourceLevelInterceptor env mgwSwagger interceptorCerts vHost
      organizationID resource extensionName prefix current out
    = Return r.
Proof.
  intros (_ & Hi & _). unfold resourceLevelInterceptor.
  destruct (Enable _) eqn:Hen; [|by eexists].
  edestruct interceptor_returns as [[err|built] ->];
    [apply Hi | exact Hen | |]; by eexists.
Qed.

Lemma operationInterceptors_returns resource isRequestFlow prefix api current out :
  spec.groupsNonEmpty env mgwSwagger ->
  exists r,
    operationInterceptors env mgwSwagger interceptorCerts vHost
      organizationID resource isRequestFlow prefix api current out
    = Return r.
Proof.
  intros (_ & _ & Hop). unfold operationInterceptors.
  edestruct (forEach_returns
               (operationInterceptorStep env mgwSwagger interceptorCerts
                  vHost organizationID prefix current)
               (fun _ => True)) as (st' & -> & _); [done | | by eexists].
  intros [interceptors out'] [method opI] _ Hin.
  apply elem_of_map_to_list in Hin. unfold operationInterceptorStep.
  destruct (Enable opI && _) eqn:Hen; [|by eexists].
  apply andb_true_iff in Hen as [Hen _].
  edestruct interceptor_returns as [[err|built] ->];
    [intros _; by eapply Hop | exact Hen | |]; by eexists.
Qed.

Lemma resourceProd_returns api resource resourceBasePath out :
  exists r,
    resourceProd env mgwSwagger upstreamCerts vHost organizationID api
      resource resourceBasePath out
    = Return r.
Proof.
  unfold resourceProd.
  destruct (available (resourceProdEndpoints resource)) as [g|] eqn:Hg;
    [|by eexists].
  apply available_nonempty in Hg.
  destruct (Endpoints g) as [|ep0 rest] eqn:Heps; [done|].
  cbn [index0 mbind exec_bind].
  destruct (negb _); [|by eexists].
  edestruct (processEndpoints_returns env) as [[err|built] ->];
    [by rewrite Heps | |]; by eexists.
Qed.

Lemma resourceSand_returns api bpSand resource resourceBasePathSand out :
  exists r,
    resourceSand env mgwSwagger upstreamCerts vHost organizationID api bpSand
      resource resourceBasePathSand out
    = Return r.
Proof.
  unfold resourceSand.
  destruct (available (resourceSandEndpoints resource)) as [g|] eqn:Hg;
    [|by eexists].
  apply available_nonempty in Hg.
  destruct (Endpoints g) as [|ep0 rest] eqn:Heps; [done|].
  cbn [index0 mbind exec_bind].
  destruct (negb _); [|by eexists].
  edestruct (processEndpoints_returns env) as [[err|built] ->];
    [by rewrite Heps | |]; by eexists.
Qed.

Lemma planResource_returns api bpSand out resource :
  spec.groupsNonEmpty env mgwSwagger ->
  exists r,
    planResource env mgwSwagger upstreamCerts interceptorCerts vHost
      organizationID api bpSand out resource
    = Return r.
Proof.
  intros Hgroups. unfold planResource. cbv zeta.
  edestruct resourceProd_returns as [[[cnP bpP] out1] ->].
  cbn [mbind exec_bind].
  edestruct resourceSand_returns as [[[[cnS bpS] avail] out2] ->].
  cbn [mbind exec_bind].
  edestruct resourceLevelInterceptor_returns as [[reqI out3] ->]; [done|].
  cbn [mbind exec_bind].
  edestruct operationInterceptors_returns as [[opReq out4] ->]; [done|].
  cbn [mbind exec_bind].
  edestruct resourceLevelInterceptor_returns as [[respI out5] ->]; [done|].
  cbn [mbind exec_bind].
  edestruct operationInterceptors_returns as [[opResp out6] ->]; [done|].
  by eexists.
Qed.

(** When the named endpoint groups and the groups of the enabled
    interceptors are non-empty, [CreateRoutesWithClusters] returns: no
    error of an endpoint group stops the translation. *)
Lemma CreateRoutesWithClusters_returns registry :
  spec.groupsNonEmpty env mgwSwagger ->
  exists routes clusters addresses registry',
    CreateRoutesWithClusters env registry mgwSwagger upstreamCerts
      interceptorCerts vHost organizationID
    = Return (routes, clusters, addresses, registry').
Proof.
  intros Hgroups. unfold CreateRoutesWithClusters, apiLevel. cbv zeta.
  edestruct apiLevelProd_returns as (bp & cn & out1 & -> & Hprod).
  cbn [mbind exec_bind].
  edestruct apiLevelSand_returns as [[[[bp2 bpS] cnS] out2] ->]; [done|].
  cbn [mbind exec_bind].
  unfold xWso2EndpointsLoop.
  edestruct (forEach_returns
               (xWso2EndpointsStep env mgwSwagger upstreamCerts vHost
                  organizationID cn) (fun _ => True))
    as ([[bp3 strict] out3] & -> & _); [done | |].
  { intros st g _ Hin. apply list_elem_of_fmap in Hin as ([name g'] & -> & Hin).
    apply elem_of_map_to_list in Hin.
    edestruct xWso2EndpointsStep_returns as [st' ->]; [|by eexists].
    destruct Hgroups as (Hnamed & _). by eapply Hnamed. }
  cbn [mbind exec_bind].
  edestruct apiLevelInterceptor_returns as [[reqI out4] ->]; [done|].
  cbn [mbind exec_bind].
  edestruct apiLevelInterceptor_returns as [[respI out5] ->]; [done|].
  cbn [mbind exec_bind].
  destruct (String.eqb _ WS); [by eexists _, _, _, _|].
  edestruct (forEach_returns
               (resourceStep env mgwSwagger upstreamCerts interceptorCerts
                  vHost organizationID
                  {| apiLevelBasePathProd := bp3; strictBasePath := strict;
                     apiLevelClusterNameProd := cn;
                     apiLevelClusterNameSand := cnS;
                     apiRequestInterceptor := reqI;
                     apiResponseInterceptor := respI |})
               (fun _ => True))
    as (st' & -> & _); [done | | by eexists _, _, _, _].
  intros st resource _ _. unfold resourceStep.
  edestruct planResource_returns as [[[plan bpSand'] out'] ->]; [done|].
  by eexists.
Qed.

End returns.

(** *** API Translator: order of the routes *)

Section route_order.

Context (env : Env) (mgwSwagger : MgwSwagger)
        (upstreamCerts interceptorCerts : CertStore)
        (vHost organizationID : string).

Local Abbreviation blockOf := (spec.blockOf env mgwSwagger vHost organizationID).

Lemma blockRoutes_blockOf (resource : Resource) (plan : RoutePlan) :
  spec.blockRoutes (blockOf resource plan)
  = emitRoutes env mgwSwagger vHost organizationID resource plan.
Proof.
  unfold spec.blockRoutes, spec.blockOf, emitRoutes.
  by destruct (planSandbox plan).
Qed.

(** The routes the resource loop appends are the blocks of the resources
    under the plans it settles. *)
Lemma forEach_resourceStep_plans api resources : forall st st',
  forEach (resourceStep env mgwSwagger upstreamCerts interceptorCerts vHost
             organizationID api) st resources = Return st' ->
  exists plans,
    spec.resourcePlans env mgwSwagger upstreamCerts interceptorCerts vHost
      organizationID api (lsApiLevelBasePathSand st) (lsOut st) resources
    = Return plans
    /\ length plans = length resources
    /\ lsRoutes st'
       = (lsRoutes st
          ++ concat (spec.blockRoutes <$> zip_with blockOf resources plans))%list.
Proof.
  induction resources as [|resource resources IH]; intros st st'.
  - intros [= <-]. exists []. split; [done|]. split; [done|].
    cbn [zip_with fmap list_fmap concat]. by rewrite app_nil_r.
  - cbn [forEach spec.resourcePlans]. intros H.
    destruct (resourceStep _ _ _ _ _ _ _ _ _) as [st1|msg] eqn:Hstep;
      cbn [mbind exec_bind] in H; [|done].
    unfold resourceStep in Hstep.
    destruct (planResource _ _ _ _ _ _ _ _ _ _) as [[[plan bp] out]|msg];
      cbn [mbind exec_bind] in Hstep |- *; [|done].
    injection Hstep as <-.
    apply IH in H as (plans & Hplans & Hlen & Hroutes).
    cbn [lsApiLevelBasePathSand lsOut lsRoutes] in Hplans, Hroutes.
    rewrite Hplans. cbn [mbind exec_bind]. exists (plan :: plans).
    split; [done|]. split; [by cbn [length]; rewrite Hlen|].
    rewrite Hroutes. cbn [zip_with fmap list_fmap concat].
    by rewrite blockRoutes_blockOf, app_assoc.
Qed.

Lemma wsRoute_plans api resources :
  wsRoute env mgwSwagger vHost organizationID api <$> resources
  = concat (spec.blockRoutes
              <$> zip_with blockOf resources
                    ((fun _ => spec.wsPlan api) <$> resources)).
Proof.
  induction resources as [|resource resources IH]; [done|].
  cbn [fmap list_fmap zip_with concat]. f_equal. apply IH.
Qed.

(** The routes of [CreateRoutesWithClusters] are the blocks of the
    resources, one after the other, under the plans of the translation. *)
Lemma CreateRoutesWithClusters_plans registry routes clusters addresses registry' :
  CreateRoutesWithClusters env registry mgwSwagger upstreamCerts
    interceptorCerts vHost organizationID
  = Return (routes, clusters, addresses, registry') ->
  exists plans,
    spec.plansOf env registry mgwSwagger upstreamCerts interceptorCerts vHost
      organizationID = Return plans
    /\ length plans = length (swaggerResources mgwSwagger)
    /\ routes
       = concat (spec.blockRoutes
                   <$> spec.blocksOf env mgwSwagger vHost organizationID plans).
Proof.
  unfold CreateRoutesWithClusters, spec.plansOf, spec.blocksOf.
  destruct (apiLevel _ _ _ _ _ _ _) as [[[api bpSand] out]|msg]; [|done].
  cbn [mbind exec_bind].
  destruct (String.eqb _ WS).
  - intros [= <- _ _ _]. eexists. split; [done|].
    split; [by rewrite length_fmap | apply wsRoute_plans].
  - destruct (forEach _ _ _) as [st|msg] eqn:Hloop; [|done].
    intros [= <- _ _ _].
    apply forEach_resourceStep_plans in Hloop as (plans & Hplans & Hlen & Hr).
    by exists plans.
Qed.

Lemma blockRoutes_length (block : spec.RouteBlock) :
  (1 <= length (spec.blockRoutes block))%nat.
Proof. unfold spec.blockRoutes. destruct (spec.blockSandbox block); simpl; lia. Qed.

Lemma blockStart_S (blocks : list spec.RouteBlock) (i : nat) block :
  blocks !! i = Some block ->
  spec.blockStart blocks (S i)
  = (spec.blockStart blocks i + length (spec.blockRoutes block))%nat.
Proof.
  intros Hi. unfold spec.blockStart.
  rewrite (take_S_r _ _ _ Hi), fmap_app, concat_app, length_app.
  cbn [fmap list_fmap concat]. by rewrite app_nil_r.
Qed.

Lemma lookup_block (blocks : list spec.RouteBlock) (i k : nat) block :
  blocks !! i = Some block ->
  (k < length (spec.blockRoutes block))%nat ->
  concat (spec.blockRoutes <$> blocks) !! (spec.blockStart blocks i + k)%nat
  = spec.blockRoutes block !! k.
Proof.
  intros Hi Hk. unfold spec.blockStart.
  set (pre := concat (spec.blockRoutes <$> firstn i blocks)).
  assert (concat (spec.blockRoutes <$> blocks)
          = (pre ++ spec.blockRoutes block
             ++ concat (spec.blockRoutes <$> skipn (S i) blocks))%list) as ->.
  { subst pre. rewrite <- (take_drop_middle _ _ _ Hi) at 1.
    by rewrite fmap_app, concat_app. }
  rewrite lookup_app_r by lia.
  replace (length pre + k - length pre)%nat with k by lia.
  by rewrite lookup_app_l.
Qed.

Lemma blocksOf_lookup (plans : list RoutePlan) (i : nat) resource plan :
  swaggerResources mgwSwagger !! i = Some resource ->
  plans !! i = Some plan ->
  spec.blocksOf env mgwSwagger vHost organizationID plans !! i
  = Some (blockOf resource plan).
Proof.
  intros Hr Hp. unfold spec.blocksOf. rewrite lookup_zip_with, Hr.
  cbn [mbind option_bind]. by rewrite Hp.
Qed.

(** C1: the route list of [CreateRoutesWithClusters] is made of one block
    per resource, the blocks in the order of the resources of the model.
    The block of a resource holds the routes [createRoute] makes from the
    plan the translation settles for that resource: its production route
    (the call with [isSandbox] false and the production base path),
    preceded, when a sandbox route is emitted for the resource, by that
    sandbox route (the call with [isSandbox] true and the sandbox base
    path).  The sandbox route is at the index where the block starts and
    the production route at the next index, and the block of the next
    resource starts after them.  The call returns such a list whenever
    the named endpoint groups and the groups of enabled interceptors are
    non-empty. *)
Theorem sandbox_route_precedes_production (registry : ConsulKeyMap) :
  (spec.groupsNonEmpty env mgwSwagger ->
   exists routes clusters addresses registry',
     CreateRoutesWithClusters env registry mgwSwagger upstreamCerts
       interceptorCerts vHost organizationID
     = Return (routes, clusters, addresses, registry'))
  /\ forall routes clusters addresses registry',
      CreateRoutesWithClusters env registry mgwSwagger upstreamCerts
        interceptorCerts vHost organizationID
      = Return (routes, clusters, addresses, registry') ->
      exists plans : list RoutePlan,
        spec.plansOf env registry mgwSwagger upstreamCerts interceptorCerts
          vHost organizationID = Return plans
        /\ length plans = length (swaggerResources mgwSwagger)
        /\ let blocks :=
             spec.blocksOf env mgwSwagger vHost organizationID plans in
           routes = concat (spec.blockRoutes <$> blocks)
           /\ forall (i : nat) (resource : Resource) (plan : RoutePlan),
               swaggerResources mgwSwagger !! i = Some resource ->
               plans !! i = Some plan ->
               let start := spec.blockStart blocks i in
               let production :=
                 prodRoute env mgwSwagger vHost organizationID resource plan in
               let sandbox :=
                 sandRoute env mgwSwagger vHost organizationID resource plan in
               if planSandbox plan
               then routes !! start = Some sandbox
                    /\ routes !! S start = Some production
                    /\ (start < S start)%nat
                    /\ spec.blockStart blocks (S i) = S (S start)
               else routes !! start = Some production
                    /\ spec.blockStart blocks (S i) = S start.
Proof.
  split; [apply CreateRoutesWithClusters_returns|].
  intros routes clusters addresses registry' H.
  apply CreateRoutesWithClusters_plans in H as (plans & Hplans & Hlen & ->).
  exists plans. split; [done|]. split; [done|]. cbv zeta. split; [done|].
  intros i resource plan Hr Hp.
  pose proof (blocksOf_lookup plans i resource plan Hr Hp) as Hi.
  pose proof (lookup_block _ i 0 _ Hi) as H0.
  pose proof (lookup_block _ i 1 _ Hi) as H1.
  pose proof (blockStart_S _ i _ Hi) as HS.
  rewrite Nat.add_0_r in H0. rewrite Nat.add_1_r in H1.
  unfold spec.blockRoutes, spec.blockOf in H0, H1, HS.
  cbn [spec.blockSandbox spec.blockProduction] in H0, H1, HS.
  destruct (planSandbox plan); cbn [length] in *.
  - repeat split; [apply H0 | apply H1 | | ]; lia.
  - split; [apply H0|]; lia.
Qed.

End route_order.

Lemma sandbox_route_precedes_production_witness :
  let r1 := {| resourceID := "r1"; resourcePath := "/pets";
               resourceMethodList := ["GET"];
               resourceProdEndpoints := None; resourceSandEndpoints := None;
               resourceVendorExtensions := ∅; resourceOperations := [];
               resourceRewritePath := ""; resourceRewriteMethod := true |} in
  exists routes clusters addresses registry' plan,
    CreateRoutesWithClusters sample.env ∅ sample.rewriting ∅ ∅
      "gw.example.com" "org"
    = Return (routes, clusters, addresses, registry')
    /\ length routes = 4%nat
    /\ planSandbox plan = true
    /\ routes !! 0%nat
       = Some (sandRoute sample.env sample.rewriting "gw.example.com" "org"
                 r1 plan)
    /\ routes !! 1%nat
       = Some (prodRoute sample.env sample.rewriting "gw.example.com" "org"
                 r1 plan)
    /\ rwSubstitution
         <$> RegexRewrite
               (rtAction (sandRoute sample.env sample.rewriting
                            "gw.example.com" "org" r1 plan))
       = Some "/v2-sand/pets"
    /\ rwSubstitution
         <$> RegexRewrite
               (rtAction (prodRoute sample.env sample.rewriting
                            "gw.example.com" "org" r1 plan))
       = Some "/v2/pets"
    /\ rmHeaders (rtMatch (sandRoute sample.env sample.rewriting
                             "gw.example.com" "org" r1 plan)) = [].
Proof.
  intros r1.
  destruct (sandbox_route_precedes_production sample.env sample.rewriting
              ∅ ∅ "gw.example.com" "org" ∅) as [Hreturns Horder].
  destruct Hreturns as (routes & clusters & addresses & registry' & Hrun).
  { split; [|split].
    - intros name g H.
      change ((∅ : gmap string EndpointCluster) !! name = Some g) in H.
      by rewrite lookup_empty in H.
    - intros ve name level i H. discriminate H.
    - intros api resource operations flow method i H.
      change ((∅ : gmap string InterceptEndpoint) !! method = Some i) in H.
      by rewrite lookup_empty in H. }
  destruct (Horder routes clusters addresses registry' Hrun)
    as (plans & Hplans & Hlen & Hroutes & Hpos).
  vm_compute in Hplans. injection Hplans as <-.
  specialize (Hpos 0%nat r1 _ eq_refl eq_refl).
  cbn [planSandbox] in Hpos. destruct Hpos as (H0 & H1 & _ & _).
  match type of H0 with
  | _ = Some (sandRoute _ _ _ _ _ ?p) =>
      exists routes, clusters, addresses, registry', p
  end.
  split; [exact Hrun|].
  split; [vm_compute in Hrun; by injection Hrun as <- _ _ _|].
  split; [reflexivity|].
  split; [exact H0|]. split; [exact H1|].
  split; [by vm_compute|]. split; by vm_compute.
Defined.

(** *** API Translator: the outputs are those of the groups that compile *)

Section attempts.

Context (env : Env) (mgwSwagger : MgwSwagger)
        (upstreamCerts interceptorCerts : CertStore)
        (vHost organizationID : string).

(** From the outputs [out] the translation has come to the outputs
    [out'] by the calls [ats], made in this order on the groups [groups],
    and every call has returned. *)
Local Abbreviation made out out' ats groups :=
  (out' = fold_left (spec.attempt env) ats%list out
   /\ spec.atGroup <$> ats%list = groups
   /\ Forall (fun a => Endpoints (spec.atGroup a) <> []) ats%list).

Lemma made_nil out : made out out [] [].
Proof. by repeat split. Qed.

Lemma made_app out out1 out2 ats1 ats2 groups1 groups2 :
  made out out1 ats1 groups1 -> made out1 out2 ats2 groups2 ->
  made out out2 (ats1 ++ ats2)%list (groups1 ++ groups2)%list.
Proof.
  intros (-> & <- & Hne1) (-> & <- & Hne2).
  split; [by rewrite fold_left_app|]. split; [by rewrite fmap_app|].
  by apply Forall_app.
Qed.

Lemma processEndpoints_nonempty registry name g certs timeout basePath r :
  processEndpoints env registry name g certs timeout basePath = Return r ->
  Endpoints g <> [].
Proof.
  unfold processEndpoints. intros H Hnil. rewrite Hnil in H.
  by cbn in H.
Qed.

Lemma made_one out a r :
  processEndpoints env (outRegistry out) (spec.atName a) (spec.atGroup a)
    (spec.atCerts a) (spec.atTimeout a) (spec.atBasePath a)
  = Return r ->
  made out (match r with
            | inl _ => out
            | inr built => appendCluster out built
            end) [a] [spec.atGroup a].
Proof.
  intros H. split; [|split; [done|]].
  - cbn [fold_left]. unfold spec.attempt. rewrite H. by destruct r.
  - constructor; [|done]. by eapply processEndpoints_nonempty.
Qed.

Lemma firstBasePath_cons g ep0 rest :
  Endpoints g = ep0 :: rest -> spec.firstBasePath g = Basepath ep0.
Proof. unfold spec.firstBasePath. by intros ->. Qed.

Lemma made_lua out i name r :
  CreateLuaCluster env (outRegistry out) interceptorCerts
    (setClusterName i name)
  = Return r ->
  made out (match r with
            | inl _ => out
            | inr built => appendCluster out built
            end)
       [spec.interceptorCall interceptorCerts i name] [InterceptCluster i].
Proof.
  unfold CreateLuaCluster. cbn [InterceptCluster setClusterName].
  destruct (Endpoints (InterceptCluster i)) as [|ep0 rest] eqn:Heps;
    cbn [index0 mbind exec_bind]; [done|].
  intros H.
  apply (made_one out (spec.interceptorCall interceptorCerts i name)).
  unfold spec.interceptorCall.
  cbn [spec.atName spec.atGroup spec.atCerts spec.atTimeout spec.atBasePath].
  by rewrite (firstBasePath_cons _ _ _ Heps).
Qed.

(** An upstream group [g] whose first endpoint is [ep0]: the call with
    the expected base path [basePath]. *)
Lemma made_upstream out g resourceID basePath r :
  processEndpoints env (outRegistry out)
    (getClusterName (EndpointPrefix g) organizationID vHost
       (swaggerTitle mgwSwagger) (swaggerVersion mgwSwagger) resourceID)
    g upstreamCerts (ClusterTimeoutInSeconds (conf env)) basePath
  = Return r ->
  made out (match r with
            | inl _ => out
            | inr built => appendCluster out built
            end)
       [spec.upstreamCall env mgwSwagger upstreamCerts vHost organizationID g
          resourceID basePath] [g].
Proof.
  intros H.
  by apply (made_one out
              (spec.upstreamCall env mgwSwagger upstreamCerts vHost
                 organizationID g resourceID basePath)).
Qed.

Lemma apiLevelProd_made out bp cn out' :
  apiLevelProd env mgwSwagger upstreamCerts vHost organizationID out
  = Return (bp, cn, out') ->
  made out out'
    (spec.apiProdCalls env mgwSwagger upstreamCerts vHost organizationID)
    ((fun g => setHTTP2BackendEnabled g
                 (swaggerXWso2HTTP2BackendEnabled mgwSwagger))
       <$> spec.ownGroup env (swaggerProdEndpoints mgwSwagger)).
Proof.
  unfold apiLevelProd, spec.apiProdCalls, spec.ownGroup. intros H.
  destruct (available _) as [g|];
    [|injection H as _ _ <-; apply made_nil].
  rewrite EndpointPrefix_setHTTP2BackendEnabled in H.
  destruct (Endpoints (setHTTP2BackendEnabled g _)) as [|ep0 rest] eqn:Heps;
    cbn [index0 mbind exec_bind] in H; [done|].
  destruct (Contains _ _); cbn [negb] in H;
    [injection H as _ _ <-; apply made_nil|].
  destruct (processEndpoints _ _ _ _ _ _ _) as [r|msg] eqn:E;
    cbn [mbind exec_bind] in H; [|done].
  cbn [fmap list_fmap]. cbv zeta.
  rewrite (firstBasePath_cons _ _ _ Heps).
  apply (made_upstream out
           (setHTTP2BackendEnabled g
              (swaggerXWso2HTTP2BackendEnabled mgwSwagger)) "") in E.
  by destruct r; injection H as _ _ <-.
Qed.

Lemma apiLevelSand_made bpProd cnProd out r out' :
  apiLevelSand env mgwSwagger upstreamCerts vHost organizationID bpProd
    cnProd out
  = Return (r, out') ->
  exists ats,
    spec.apiSandCalls env mgwSwagger upstreamCerts vHost organizationID
      bpProd cnProd = Return ats
    /\ made out out' ats
         ((fun g => setHTTP2BackendEnabled g
                      (swaggerXWso2HTTP2BackendEnabled mgwSwagger))
            <$> spec.ownGroup env (swaggerSandEndpoints mgwSwagger)).
Proof.
  unfold apiLevelSand, spec.apiSandCalls, spec.ownGroup. intros H.
  destruct (available _) as [g|];
    [|injection H as _ <-; eexists; split; [done | apply made_nil]].
  rewrite EndpointPrefix_setHTTP2BackendEnabled in H.
  destruct (index0 _) as [s0|msg] eqn:Hs0; cbn [mbind exec_bind] in H; [|done].
  destruct (apiLevelSandBasePaths _ _ _ _) as [[[bp1 bp2] selected]|msg]
    eqn:Hsel; cbn [mbind exec_bind] in H; [|done].
  destruct (Contains _ _); cbn [negb] in H;
    [injection H as _ <-; eexists; split; [done | apply made_nil]|].
  destruct (processEndpoints _ _ _ _ _ _ _) as [res|msg] eqn:E;
    cbn [mbind exec_bind] in H; [|done].
  rewrite Hs0. cbn [mbind exec_bind]. rewrite Hsel. cbn [mbind exec_bind].
  eexists. split; [done|]. cbn [fmap list_fmap].
  apply (made_upstream out
           (setHTTP2BackendEnabled g
              (swaggerXWso2HTTP2BackendEnabled mgwSwagger)) "") in E.
  by destruct res; injection H as _ <-.
Qed.

Lemma xWso2EndpointsStep_made cnProd bp strict out g bp' strict' out' :
  xWso2EndpointsStep env mgwSwagger upstreamCerts vHost organizationID
    cnProd (bp, strict, out) g
  = Return (bp', strict', out') ->
  xWso2EndpointsBasePath bp cnProd g = Return bp'
  /\ made out out'
       [spec.upstreamCall env mgwSwagger upstreamCerts vHost organizationID
          g "" bp'] [g].
Proof.
  unfold xWso2EndpointsStep. intros H.
  destruct (xWso2EndpointsBasePath _ _ _) as [bp1|msg];
    cbn [mbind exec_bind] in H; [|done].
  destruct (processEndpoints _ _ _ _ _ _ _) as [res|msg] eqn:E;
    cbn [mbind exec_bind] in H; [|done].
  apply made_upstream in E.
  by destruct res; injection H as <- _ <-.
Qed.

Lemma forEach_xWso2EndpointsStep_made cnProd groups :
  forall bp strict out bp' strict' out',
  forEach (xWso2EndpointsStep env mgwSwagger upstreamCerts vHost
             organizationID cnProd) (bp, strict, out) groups
  = Return (bp', strict', out') ->
  exists ats,
    spec.namedCalls env mgwSwagger upstreamCerts vHost organizationID cnProd
      bp groups = Return ats
    /\ made out out' ats groups.
Proof.
  induction groups as [|g groups IH]; intros bp strict out bp' strict' out' H.
  - injection H as _ _ <-. exists []. split; [done | apply made_nil].
  - cbn [forEach] in H.
    destruct (xWso2EndpointsStep _ _ _ _ _ _ _ _) as [[[bp1 strict1] out1]|msg]
      eqn:Hstep; cbn [mbind exec_bind] in H; [|done].
    apply xWso2EndpointsStep_made in Hstep as [Hbp Hone].
    apply IH in H as (ats & Hats & Hrest).
    cbn [spec.namedCalls]. rewrite Hbp. cbn [mbind exec_bind].
    rewrite Hats. cbn [mbind exec_bind]. eexists. split; [done|].
    exact (made_app _ _ _ _ _ _ _ Hone Hrest).
Qed.

Lemma apiLevelInterceptor_made extensionName prefix out i out' :
  apiLevelInterceptor env mgwSwagger interceptorCerts vHost organizationID
    extensionName prefix out
  = Return (i, out') ->
  made out out'
    (spec.apiInterceptorCalls env mgwSwagger interceptorCerts vHost
       organizationID extensionName prefix)
    (spec.interceptorGroup
       (GetInterceptor (ext env) (swaggerVendorExtensions mgwSwagger)
          extensionName (APILevelInterceptor (consts env)))).
Proof.
  unfold apiLevelInterceptor, spec.apiInterceptorCalls, spec.interceptorGroup.
  cbv zeta. intros H.
  destruct (Enable _); [|injection H as _ <-; apply made_nil].
  destruct (CreateLuaCluster _ _ _ _) as [res|msg] eqn:E;
    cbn [mbind exec_bind] in H; [|done].
  apply made_lua in E. by destruct res; injection H as _ <-.
Qed.

Lemma resourceLevelInterceptor_made resource extensionName prefix current
    out i out' :
  resourceLevelInterceptor env mgwSwagger interceptorCerts vHost
    organizationID resource extensionName prefix current out
  = Return (i, out') ->
  made out out'
    (spec.resourceInterceptorCalls env mgwSwagger interceptorCerts vHost
       organizationID resource extensionName prefix)
    (spec.interceptorGroup
       (GetInterceptor (ext env) (resourceVendorExtensions resource)
          extensionName (ResourceLevelInterceptor (consts env)))).
Proof.
  unfold resourceLevelInterceptor, spec.resourceInterceptorCalls,
    spec.interceptorGroup.
  cbv zeta. intros H.
  destruct (Enable _); [|injection H as _ <-; apply made_nil].
  destruct (CreateLuaCluster _ _ _ _) as [res|msg] eqn:E;
    cbn [mbind exec_bind] in H; [|done].
  apply made_lua in E. by destruct res; injection H as _ <-.
Qed.

(** The call, if any, for one entry of a map of interceptors. *)
Local Abbreviation operationCall prefix entry :=
  (if Enable (snd entry)
      && String.eqb (Level (snd entry)) (OperationLevelInterceptor (consts env))
   then Some (spec.interceptorCall interceptorCerts (snd entry)
                (getClusterName prefix organizationID vHost
                   (swaggerTitle mgwSwagger) (swaggerVersion mgwSwagger)
                   (ClusterName (snd entry))))
   else None).

Local Abbreviation operationGroup entry :=
  (if Enable (snd entry)
      && String.eqb (Level (snd entry)) (OperationLevelInterceptor (consts env))
   then Some (InterceptCluster (snd entry)) else None).

Lemma operationInterceptorStep_made prefix resourceInterceptor interceptors
    out (entry : string * InterceptEndpoint) interceptors' out' :
  operationInterceptorStep env mgwSwagger interceptorCerts vHost
    organizationID prefix resourceInterceptor (interceptors, out) entry
  = Return (interceptors', out') ->
  made out out' (option_list (operationCall prefix entry))
       (option_list (operationGroup entry)).
Proof.
  unfold operationInterceptorStep. destruct entry as [method opI].
  cbn [snd]. intros H.
  destruct (Enable opI && _); cbn [option_list];
    [|injection H as _ <-; apply made_nil].
  destruct (CreateLuaCluster _ _ _ _) as [res|msg] eqn:E;
    cbn [mbind exec_bind] in H; [|done].
  apply made_lua in E. by destruct res; injection H as _ <-.
Qed.

(** A loop whose iterations make calls that depend on the item alone
    makes the calls of its items, one item after the other. *)
Lemma forEach_made {S A : Type} (body : S -> A -> exec S)
    (proj : S -> Outputs) (calls : A -> option spec.Attempt)
    (groups : A -> option EndpointCluster) (items : list A) : forall st st',
  (forall st x st',
      body st x = Return st' ->
      made (proj st) (proj st') (option_list (calls x))
           (option_list (groups x))) ->
  forEach body st items = Return st' ->
  made (proj st) (proj st') (omap calls items) (omap groups items).
Proof.
  induction items as [|x items IH]; intros st st' Hbody H.
  - injection H as <-. apply made_nil.
  - cbn [forEach] in H. destruct (body st x) as [st1|msg] eqn:Hx;
      cbn [mbind exec_bind] in H; [|done].
    apply Hbody in Hx. apply IH in H; [|done].
    pose proof (made_app _ _ _ _ _ _ _ Hx H) as Hall.
    cbn [omap list_omap].
    by destruct (calls x), (groups x).
Qed.

Lemma operationInterceptors_made resource isRequestFlow prefix
    apiInterceptor resourceInterceptor out interceptors out' :
  operationInterceptors env mgwSwagger interceptorCerts vHost
    organizationID resource isRequestFlow prefix apiInterceptor
    resourceInterceptor out
  = Return (interceptors, out') ->
  made out out'
    (spec.operationCalls env mgwSwagger interceptorCerts vHost
       organizationID prefix
       (GetOperationInterceptors (ext env) apiInterceptor resourceInterceptor
          (resourceOperations resource) isRequestFlow))
    (spec.operationGroups env
       (GetOperationInterceptors (ext env) apiInterceptor resourceInterceptor
          (resourceOperations resource) isRequestFlow)).
Proof.
  unfold operationInterceptors, spec.operationCalls, spec.operationGroups.
  cbv zeta. intros H.
  apply (forEach_made _ snd (fun entry => operationCall prefix entry)
           (fun entry => operationGroup entry)) in H; [exact H|].
  intros [? ?] entry [? ?] Hstep. cbn [snd].
  by eapply operationInterceptorStep_made.
Qed.

Lemma available_Endpoints g c :
  available g = Some c -> exists ep0 rest, Endpoints c = ep0 :: rest.
Proof.
  intros H. apply available_nonempty in H.
  destruct (Endpoints c) as [|ep0 rest]; [done | by eexists _, _].
Qed.

Lemma resourceProd_made api resource resourceBasePath out r out' :
  resourceProd env mgwSwagger upstreamCerts vHost organizationID api
    resource resourceBasePath out
  = Return (r, out') ->
  made out out'
    (spec.resourceUpstreamCalls env mgwSwagger upstreamCerts vHost
       organizationID resource (resourceProdEndpoints resource)
       resourceBasePath)
    (spec.ownGroup env (resourceProdEndpoints resource)).
Proof.
  unfold resourceProd, spec.resourceUpstreamCalls, spec.ownGroup. intros H.
  destruct (available _) as [g|];
    [|injection H as _ <-; apply made_nil].
  destruct (Endpoints g) as [|ep0 rest] eqn:Heps;
    cbn [index0 mbind exec_bind] in H; [done|].
  destruct (Contains _ _); cbn [negb] in H;
    [injection H as _ <-; apply made_nil|].
  destruct (processEndpoints _ _ _ _ _ _ _) as [res|msg] eqn:E;
    cbn [mbind exec_bind] in H; [|done].
  cbn [fmap list_fmap]. rewrite (firstBasePath_cons _ _ _ Heps).
  apply made_upstream in E. by destruct res; injection H as _ <-.
Qed.

Lemma resourceSand_made api bpSand resource resourceBasePathSand out r out' :
  resourceSand env mgwSwagger upstreamCerts vHost organizationID api bpSand
    resource resourceBasePathSand out
  = Return (r, out') ->
  made out out'
    (spec.resourceUpstreamCalls env mgwSwagger upstreamCerts vHost
       organizationID resource (resourceSandEndpoints resource)
       resourceBasePathSand)
    (spec.ownGroup env (resourceSandEndpoints resource)).
Proof.
  unfold resourceSand, spec.resourceUpstreamCalls, spec.ownGroup. intros H.
  destruct (available _) as [g|];
    [|injection H as _ <-; apply made_nil].
  destruct (Endpoints g) as [|ep0 rest] eqn:Heps;
    cbn [index0 mbind exec_bind] in H; [done|].
  destruct (Contains _ _); cbn [negb] in H;
    [injection H as _ <-; apply made_nil|].
  destruct (processEndpoints _ _ _ _ _ _ _) as [res|msg] eqn:E;
    cbn [mbind exec_bind] in H; [|done].
  cbn [fmap list_fmap]. rewrite (firstBasePath_cons _ _ _ Heps).
  apply made_upstream in E. by destruct res; injection H as _ <-.
Qed.

(** The groups of a resource, with the operation-level interceptors
    [GetOperationInterceptors] gives for its operations. *)
Local Abbreviation groupsOf resource groups :=
  (exists a r a' r',
      groups
      = spec.resourceGroups env resource
          (GetOperationInterceptors (ext env) a r
             (resourceOperations resource) true)
          (GetOperationInterceptors (ext env) a' r'
             (resourceOperations resource) false)).

Lemma planResource_made api bpSand out resource plan bpSand' out' :
  planResource env mgwSwagger upstreamCerts interceptorCerts vHost
    organizationID api bpSand out resource
  = Return (plan, bpSand', out') ->
  exists ats groups,
    spec.resourceCalls env mgwSwagger upstreamCerts interceptorCerts vHost
      organizationID api bpSand out resource = Return ats
    /\ made out out' ats groups /\ groupsOf resource groups.
Proof.
  unfold planResource, spec.resourceCalls. cbv zeta. intros H.
  destruct (resourceProd _ _ _ _ _ _ _ _ _) as [[r1 out1]|] eqn:E1;
    cbn [mbind exec_bind] in H |- *; [|done].
  apply resourceProd_made in E1. destruct r1 as [? ?].
  destruct (resourceSand _ _ _ _ _ _ _ _ _ _) as [[r2 out2]|] eqn:E2;
    cbn [mbind exec_bind] in H |- *; [|done].
  apply resourceSand_made in E2. destruct r2 as [[? ?] ?].
  destruct (resourceLevelInterceptor _ _ _ _ _ _ _ _ _ out2)
    as [[i3 out3]|] eqn:E3; cbn [mbind exec_bind] in H |- *; [|done].
  apply resourceLevelInterceptor_made in E3.
  destruct (operationInterceptors _ _ _ _ _ _ _ _ _ _ out3)
    as [[m4 out4]|] eqn:E4; cbn [mbind exec_bind] in H |- *; [|done].
  apply operationInterceptors_made in E4.
  destruct (resourceLevelInterceptor _ _ _ _ _ _ _ _ _ out4)
    as [[i5 out5]|] eqn:E5; cbn [mbind exec_bind] in H |- *; [|done].
  apply resourceLevelInterceptor_made in E5.
  destruct (operationInterceptors _ _ _ _ _ _ _ _ _ _ out5)
    as [[m6 out6]|] eqn:E6; cbn [mbind exec_bind] in H; [|done].
  apply operationInterceptors_made in E6.
  injection H as _ _ <-.
  eexists _, _. split; [done|]. split; [|by eexists _, _, _, _].
  unfold spec.resourceGroups. cbv zeta.
  eapply made_app; [exact E1|]. eapply made_app; [exact E2|].
  eapply made_app; [exact E3|]. eapply made_app; [exact E4|].
  eapply made_app; [exact E5 | exact E6].
Qed.

Lemma forEach_resourceStep_made api resources : forall st st',
  forEach (resourceStep env mgwSwagger upstreamCerts interceptorCerts vHost
             organizationID api) st resources = Return st' ->
  exists ats groupss,
    spec.resourcesCalls env mgwSwagger upstreamCerts interceptorCerts vHost
      organizationID api (lsApiLevelBasePathSand st) (lsOut st) resources
    = Return ats
    /\ made (lsOut st) (lsOut st') ats (concat groupss)
    /\ Forall2 (fun resource groups => groupsOf resource groups)
               resources groupss.
Proof.
  induction resources as [|resource resources IH]; intros st st' H.
  - injection H as <-. exists [], [].
    split; [done|]. split; [apply made_nil | constructor].
  - cbn [forEach] in H.
    destruct (resourceStep _ _ _ _ _ _ _ _ _) as [st1|msg] eqn:Hstep;
      cbn [mbind exec_bind] in H; [|done].
    unfold resourceStep in Hstep.
    destruct (planResource _ _ _ _ _ _ _ _ _ _) as [[[plan bp] out1]|] eqn:Hp;
      cbn [mbind exec_bind] in Hstep; [|done].
    injection Hstep as <-.
    apply IH in H as (later & groupss & Hlater & Hrest & Hall).
    cbn [lsApiLevelBasePathSand lsOut] in Hlater, Hrest.
    pose proof Hp as Hp'.
    apply planResource_made in Hp' as (here & groups & Hhere & Hmade & Hgroups).
    cbn [spec.resourcesCalls]. rewrite Hhere. cbn [mbind exec_bind].
    rewrite Hp. cbn [mbind exec_bind]. rewrite Hlater.
    cbn [mbind exec_bind].
    exists (here ++ later)%list, (groups :: groupss).
    split; [done|]. split; [|by constructor].
    cbn [concat]. exact (made_app _ _ _ _ _ _ _ Hmade Hrest).
Qed.

Lemma apiLevel_made registry api bpSand out :
  apiLevel env mgwSwagger upstreamCerts interceptorCerts vHost organizationID
    registry
  = Return (api, bpSand, out) ->
  exists ats,
    spec.apiCalls env mgwSwagger upstreamCerts interceptorCerts vHost
      organizationID registry = Return ats
    /\ made {| outClusters := []; outEndpoints := [];
               outRegistry := registry |}
            out ats (spec.apiGroups env mgwSwagger).
Proof.
  unfold apiLevel, spec.apiCalls. cbv zeta. intros H.
  destruct (apiLevelProd _ _ _ _ _ _) as [[[bp1 cn1] out1]|] eqn:E1;
    cbn [mbind exec_bind] in H |- *; [|done].
  apply apiLevelProd_made in E1.
  destruct (apiLevelSand _ _ _ _ _ _ _ _) as [[r2 out2]|] eqn:E2;
    cbn [mbind exec_bind] in H; [|done].
  pose proof E2 as E2'.
  apply apiLevelSand_made in E2' as (sand & Hsand & Hmade2).
  rewrite Hsand. destruct r2 as [[bp2 bpS] cnS]. cbn [mbind exec_bind].
  destruct (xWso2EndpointsLoop _ _ _ _ _ _ _) as [[[bp3 strict] out3]|] eqn:E3;
    cbn [mbind exec_bind] in H; [|done].
  unfold xWso2EndpointsLoop in E3.
  apply forEach_xWso2EndpointsStep_made in E3 as (named & Hnamed & Hmade3).
  rewrite Hnamed. cbn [mbind exec_bind].
  destruct (apiLevelInterceptor _ _ _ _ _ _ _ out3) as [[i4 out4]|] eqn:E4;
    cbn [mbind exec_bind] in H; [|done].
  apply apiLevelInterceptor_made in E4.
  destruct (apiLevelInterceptor _ _ _ _ _ _ _ out4) as [[i5 out5]|] eqn:E5;
    cbn [mbind exec_bind] in H; [|done].
  apply apiLevelInterceptor_made in E5.
  injection H as _ _ <-.
  eexists. split; [done|].
  unfold spec.apiGroups. cbv zeta.
  eapply made_app; [exact E1|]. eapply made_app; [exact Hmade2|].
  eapply made_app; [exact Hmade3|]. eapply made_app; [exact E4 | exact E5].
Qed.

(** The outputs of [CreateRoutesWithClusters] are those of its calls of
    the Endpoint Compiler, one on each group of the endpoint hierarchy in
    traversal order. *)
Lemma CreateRoutesWithClusters_made registry routes clusters addresses registry' :
  CreateRoutesWithClusters env registry mgwSwagger upstreamCerts
    interceptorCerts vHost organizationID
  = Return (routes, clusters, addresses, registry') ->
  exists attempts : list spec.Attempt,
    spec.attemptsOf env registry mgwSwagger upstreamCerts interceptorCerts
      vHost organizationID = Return attempts
    /\ spec.outputsOf env registry attempts
       = {| outClusters := clusters; outEndpoints := addresses;
            outRegistry := registry' |}
    /\ spec.hierarchy env mgwSwagger (spec.atGroup <$> attempts)
    /\ Forall (fun a => Endpoints (spec.atGroup a) <> []) attempts.
Proof.
  unfold CreateRoutesWithClusters, spec.attemptsOf, spec.hierarchy. intros H.
  destruct (apiLevel _ _ _ _ _ _ _) as [[[api bpSand] out]|] eqn:E;
    cbn [mbind exec_bind] in H; [|done].
  apply apiLevel_made in E as (here & -> & Hout & Hgroups & Hne).
  cbn [mbind exec_bind].
  destruct (String.eqb _ WS).
  - injection H as _ <- <- <-. exists here. split; [done|].
    split; [unfold spec.outputsOf; rewrite <- Hout; by destruct out|].
    split; [|done]. exists []. by rewrite Hgroups, app_nil_r.
  - destruct (forEach _ _ _) as [st|] eqn:Hloop;
      cbn [mbind exec_bind] in H; [|done].
    injection H as _ <- <- <-.
    apply forEach_resourceStep_made in Hloop
      as (later & groupss & Hlater & Hmade & Hall).
    cbn [lsOut lsApiLevelBasePathSand] in Hlater, Hmade.
    rewrite Hlater. cbn [mbind exec_bind].
    destruct (made_app _ _ _ _ _ _ _ (conj Hout (conj Hgroups Hne)) Hmade)
      as (Hout' & Hgroups' & Hne').
    exists (here ++ later)%list. split; [done|].
    split; [unfold spec.outputsOf; rewrite <- Hout'; by destruct (lsOut st)|].
    split; [by exists groupss|]. done.
Qed.

End attempts.

(** C2: when some endpoint of a group has, once a trailing slash is
    removed, a base path other than the expected one, [processEndpoints]
    returns an error.  The translation does not stop there: whenever the
    named endpoint groups and the groups of enabled interceptors are
    non-empty, [CreateRoutesWithClusters] returns.  What it returns is
    made by its calls of the Endpoint Compiler, one on each endpoint
    group of the hierarchy in traversal order, each call made whatever
    became of those before it: the clusters, the addresses and the
    discovery registry are those of the calls that compile, so that a
    call with a base-path mismatch adds no cluster and no address, the
    outputs being those of the calls before it and after it alone; and
    the routes are those of every resource of the model under the plans
    of the translation. *)
Theorem base_path_mismatch_drops_group (env : Env) (mgwSwagger : MgwSwagger)
    (upstreamCerts interceptorCerts : CertStore)
    (vHost organizationID : string) (registry : ConsulKeyMap) :
  let mismatch basePath eps :=
    Exists (fun ep : Endpoint => TrimSuffix (Basepath ep) "/" <> basePath) eps in
  (forall registry clusterName cd certs timeout basePath,
      mismatch basePath (Endpoints cd) ->
      exists err,
        processEndpoints env registry clusterName cd certs timeout basePath
        = Return (inl err))
  /\ (spec.groupsNonEmpty env mgwSwagger ->
      exists routes clusters addresses registry',
        CreateRoutesWithClusters env registry mgwSwagger upstreamCerts
          interceptorCerts vHost organizationID
        = Return (routes, clusters, addresses, registry'))
  /\ forall routes clusters addresses registry',
      CreateRoutesWithClusters env registry mgwSwagger upstreamCerts
        interceptorCerts vHost organizationID
      = Return (routes, clusters, addresses, registry') ->
      exists (attempts : list spec.Attempt) (plans : list RoutePlan),
        spec.attemptsOf env registry mgwSwagger upstreamCerts
          interceptorCerts vHost organizationID = Return attempts
        /\ spec.hierarchy env mgwSwagger (spec.atGroup <$> attempts)
        /\ Forall (fun a => Endpoints (spec.atGroup a) <> []) attempts
        /\ spec.outputsOf env registry attempts
           = {| outClusters := clusters; outEndpoints := addresses;
                outRegistry := registry' |}
        /\ (forall pre a post,
               attempts = (pre ++ a :: post)%list ->
               mismatch (spec.atBasePath a) (Endpoints (spec.atGroup a)) ->
               spec.outputsOf env registry (pre ++ post)
               = {| outClusters := clusters; outEndpoints := addresses;
                    outRegistry := registry' |})
        /\ spec.plansOf env registry mgwSwagger upstreamCerts
             interceptorCerts vHost organizationID = Return plans
        /\ length plans = length (swaggerResources mgwSwagger)
        /\ routes
           = concat (spec.blockRoutes
                       <$> spec.blocksOf env mgwSwagger vHost organizationID
                             plans).
Proof.
  cbv zeta. split; [|split].
  - intros. by eapply processEndpoints_mismatch.
  - apply CreateRoutesWithClusters_returns.
  - intros routes clusters addresses registry' H.
    destruct (CreateRoutesWithClusters_made _ _ _ _ _ _ _ _ _ _ _ H)
      as (attempts & Hattempts & Hout & Hgroups & Hne).
    destruct (CreateRoutesWithClusters_plans _ _ _ _ _ _ _ _ _ _ _ H)
      as (plans & Hplans & Hlen & Hroutes).
    exists attempts, plans. repeat (split; [done|]).
    split; [|done].
    intros pre a post -> Hmis. rewrite <- Hout. unfold spec.outputsOf.
    rewrite !fold_left_app. cbn [fold_left]. f_equal.
    destruct (processEndpoints_mismatch env
                (outRegistry (fold_left (spec.attempt env) pre
                   {| outClusters := []; outEndpoints := [];
                      outRegistry := registry |}))
                (spec.atName a) (spec.atGroup a) (spec.atCerts a)
                (spec.atTimeout a) (spec.atBasePath a) Hmis) as [err Herr].
    unfold spec.attempt at 2. by rewrite Herr.
Qed.

Lemma base_path_mismatch_drops_group_witness :
  exists routes clusters addresses registry' attempts,
    CreateRoutesWithClusters sample.env ∅ sample.partial ∅ ∅
      "gw.example.com" "org"
    = Return (routes, clusters, addresses, registry')
    /\ spec.attemptsOf sample.env ∅ sample.partial ∅ ∅ "gw.example.com" "org"
       = Return attempts
    /\ (fun a => (EndpointPrefix (spec.atGroup a), spec.atBasePath a))
         <$> attempts
       = [("clusterProd", "/v2"); ("clusterSand", "/v2-sand");
          ("r1Prod", "/v5"); ("r2Prod", "/v7")]
    /\ spec.outputsOf sample.env ∅ (skipn 1 attempts)
       = {| outClusters := clusters; outEndpoints := addresses;
            outRegistry := registry' |}
    /\ clName <$> clusters
       = ["org_clusterSand_gw.example.com_petstorev1";
          "org_r2Prod_gw.example.com_petstorev1_r20"]
    /\ addresses
       = [createAddress "s.example" 80; createAddress "e.example" 80]
    /\ length routes = 4%nat.
Proof.
  destruct (base_path_mismatch_drops_group sample.env sample.partial ∅ ∅
              "gw.example.com" "org" ∅) as (_ & Hreturns & Hall).
  destruct Hreturns as (routes & clusters & addresses & registry' & Hrun).
  { split; [|split].
    - intros name g H.
      change ((∅ : gmap string EndpointCluster) !! name = Some g) in H.
      by rewrite lookup_empty in H.
    - intros ve name level i H. discriminate H.
    - intros api resource operations flow method i H.
      change ((∅ : gmap string InterceptEndpoint) !! method = Some i) in H.
      by rewrite lookup_empty in H. }
  destruct (Hall routes clusters addresses registry' Hrun)
    as (attempts & plans & Hattempts & _ & _ & _ & Hdrop & _).
  exists routes, clusters, addresses, registry', attempts.
  split; [exact Hrun|]. split; [exact Hattempts|].
  vm_compute in Hattempts. injection Hattempts as <-.
  split; [reflexivity|].
  split.
  - match goal with
    | |- spec.outputsOf _ _ (skipn 1 (?a :: ?post)) = _ =>
        apply (Hdrop [] a post eq_refl)
    end.
    apply Exists_cons_tl, Exists_cons_hd. by vm_compute.
  - vm_compute in Hrun. by injection Hrun as <- <- <- <-.
Defined.

(** *** Route Compiler: path regex and substitution *)

Section substitution.

Lemma rev_append (s t : string) : rev (s ++ t) = rev t ++ rev s.
Proof.
  induction s as [|a s IH].
  - by rewrite append_nil_r.
  - change (String a s ++ t) with (String a (s ++ t)).
    cbn [rev]. by rewrite IH, append_assoc.
Qed.

Lemma rev_involutive (s : string) : rev (rev s) = s.
Proof.
  induction s as [|a s IH]; [done|].
  cbn [rev]. by rewrite rev_append, IH.
Qed.

Lemma HasPrefix_true_iff (s p : string) :
  HasPrefix s p = true <-> exists t, s = p ++ t.
Proof.
  revert s. induction p as [|b p IH]; intros s.
  - split; [by exists s | done].
  - destruct s as [|a s]; cbn [HasPrefix].
    + split; [done | by intros [t ?]].
    + rewrite andb_true_iff, IH. split.
      * intros [->%Ascii.eqb_eq [t ->]]. by exists t.
      * intros [t [= -> ->]]. split; [apply Ascii.eqb_refl | by exists t].
Qed.

Lemma HasPrefix_append (p t : string) : HasPrefix (p ++ t) p = true.
Proof. apply HasPrefix_true_iff. by exists t. Qed.

Lemma take_drop (n : nat) (s : string) : take n s ++ drop n s = s.
Proof.
  revert s. induction n as [|n IH]; intros [|a s]; cbn; [done..|].
  by rewrite IH.
Qed.

Lemma HasSuffix_true_iff (s suffix : string) :
  HasSuffix s suffix = true <-> exists p, s = p ++ suffix.
Proof.
  split.
  - unfold HasSuffix. intros [_ Heq%String.eqb_eq]%andb_true_iff.
    exists (take (String.length s - String.length suffix) s).
    rewrite <- Heq at 2. symmetry. apply take_drop.
  - intros [p ->]. apply HasSuffix_append.
Qed.

(** [s] ends with [suffix] exactly when the reversed [s] starts with the
    reversed [suffix]. *)
Lemma HasSuffix_rev (s suffix : string) :
  HasSuffix s suffix = HasPrefix (rev s) (rev suffix).
Proof.
  apply eq_true_iff_eq.
  rewrite HasSuffix_true_iff, HasPrefix_true_iff. split.
  - intros [p ->]. exists (rev p). apply rev_append.
  - intros [t Ht]. exists (rev t).
    by rewrite <- (rev_involutive s), Ht, rev_append, rev_involutive.
Qed.

(** A byte [c] that does not occur in [suffix] shields what is in front
    of it. *)
Lemma HasSuffix_append_barrier (c : ascii) (suffix a s : string) :
  spec.occurs c (rev suffix) = false ->
  HasSuffix ((a ++ String c "") ++ s) suffix = HasSuffix s suffix.
Proof.
  intros Hc. rewrite !HasSuffix_rev, !rev_append. cbn [rev].
  rewrite append_assoc.
  change (String c "" ++ rev a) with (String c (rev a)).
  by apply HasPrefix_append_barrier.
Qed.

Lemma TrimSuffix_no_suffix (s suffix : string) :
  HasSuffix s suffix = false -> TrimSuffix s suffix = s.
Proof. intros H. unfold TrimSuffix. by rewrite H. Qed.

(** **** The regex replacement on a template *)

Lemma replaceAllParams_literal (lit s repl : string) :
  spec.occurs "{" lit = false ->
  regexp.replaceAllParams (lit ++ s) repl None
  = lit ++ regexp.replaceAllParams s repl None.
Proof.
  induction lit as [|a lit IH]; [done|].
  cbn [spec.occurs]. intros [Ha Hlit]%orb_false_elim.
  change (String a lit ++ s) with (String a (lit ++ s)).
  cbn [regexp.replaceAllParams]. rewrite Ha. by rewrite IH.
Qed.

Lemma replaceAllParams_name (name buf s repl : string) :
  spec.occurs "}" name = false ->
  buf ++ name <> "" ->
  regexp.replaceAllParams (name ++ String "}" s) repl (Some buf)
  = repl ++ regexp.replaceAllParams s repl None.
Proof.
  revert buf. induction name as [|a name IH]; intros buf Hocc Hne.
  - rewrite append_nil_r in Hne.
    change ("" ++ String "}" s) with (String "}" s).
    cbn [regexp.replaceAllParams]. change (Ascii.eqb "}" "}") with true.
    cbv iota. by destruct buf.
  - cbn [spec.occurs] in Hocc. apply orb_false_elim in Hocc as [Ha Hname].
    change (String a name ++ String "}" s)
      with (String a (name ++ String "}" s)).
    cbn [regexp.replaceAllParams]. rewrite Ha. apply IH; [done|].
    rewrite append_assoc. by destruct buf.
Qed.

Lemma ReplaceAllString_template (t : spec.Template) :
  spec.wellFormed t ->
  regexp.ReplaceAllString (spec.pathOf t) pathParaRegex
  = spec.regexBody (spec.tplSegments t) ++ spec.tplLast t.
Proof.
  intros (Hsegs & Hlast & _).
  unfold regexp.ReplaceAllString, spec.pathOf, pathParaRegex.
  induction Hsegs as [|[lit name] segs (Hlit & _ & Hne & Hname) _ IH].
  - cbn [spec.pathBody spec.regexBody].
    change ("" ++ spec.tplLast t) with (spec.tplLast t).
    rewrite <- (append_nil_r (spec.tplLast t)) at 1.
    rewrite replaceAllParams_literal by done.
    by rewrite append_nil_r.
  - cbn [spec.pathBody spec.regexBody fst snd] in *.
    rewrite !append_assoc.
    rewrite replaceAllParams_literal by done. f_equal.
    change ("{" ++ name ++ "}" ++ spec.pathBody segs ++ spec.tplLast t)
      with (String "{" (name ++ "}" ++ spec.pathBody segs ++ spec.tplLast t)).
    cbn [regexp.replaceAllParams]. change (Ascii.eqb "{" "{") with true.
    cbv iota.
    change (name ++ "}" ++ spec.pathBody segs ++ spec.tplLast t)
      with (name ++ String "}" (spec.pathBody segs ++ spec.tplLast t)).
    rewrite replaceAllParams_name by done.
    by rewrite IH, ?append_assoc.
Qed.

(** **** Occurrences of the capture group *)

(** No occurrence of [([^/]+)] starts in a text without an opening
    parenthesis. *)
Lemma Contains_pathParaRegex_skip (a t : string) :
  spec.occurs "(" a = false ->
  Contains (a ++ t) pathParaRegex = Contains t pathParaRegex.
Proof.
  induction a as [|c a IH]; [done|].
  cbn [spec.occurs]. intros [Hc Ha]%orb_false_elim.
  change (String c a ++ t) with (String c (a ++ t)).
  cbn [Contains]. rewrite IH by done.
  unfold pathParaRegex at 1. cbn [HasPrefix]. by rewrite Hc.
Qed.

Lemma Contains_pathParaRegex_head (z : string) :
  Contains (pathParaRegex ++ z) pathParaRegex = true.
Proof.
  destruct (pathParaRegex ++ z) eqn:Heq; [done|].
  cbn [Contains]. by rewrite <- Heq, HasPrefix_append.
Qed.

Lemma replaceScan_spent (s old new : string) :
  replaceScan s old new 0 (Some 0%nat) = s.
Proof. induction s as [|a s IH]; [done|]. cbn. by rewrite IH. Qed.

Lemma replaceScan_first (a z new : string) :
  spec.occurs "(" a = false ->
  replaceScan (a ++ "([^/]+)" ++ z) "([^/]+)" new 0 (Some 1%nat)
  = a ++ new ++ z.
Proof.
  intros Ha. induction a as [|c a IH].
  - cbn. by rewrite replaceScan_spent.
  - cbn [spec.occurs] in Ha. apply orb_false_elim in Ha as [Hc Ha].
    change (String c a ++ "([^/]+)" ++ z)
      with (String c (a ++ "([^/]+)" ++ z)).
    cbn [replaceScan budgetLeft andb HasPrefix]. rewrite Hc. cbn [andb].
    by rewrite IH.
Qed.

(** [strings.Replace(s, "([^/]+)", new, 1)] rewrites the first capture
    group. *)
Lemma Replace_first_pathParaRegex (a z new : string) :
  spec.occurs "(" a = false ->
  String.eqb pathParaRegex new = false ->
  Replace (a ++ pathParaRegex ++ z) pathParaRegex new 1
  = a ++ new ++ z.
Proof.
  intros Ha Hnew. unfold Replace. rewrite Hnew.
  unfold pathParaRegex. cbn [orb Z.eqb]. cbv iota.
  change (budget 1) with (Some 1%nat).
  by apply replaceScan_first.
Qed.

(** **** Decimal numerals *)

Lemma occurs_paren_uint (d : Decimal.uint) :
  spec.occurs "(" (NilEmpty.string_of_uint d) = false.
Proof. induction d; cbn; done. Qed.

Lemma occurs_paren_Itoa (z : Z) : spec.occurs "(" (strconv.Itoa z) = false.
Proof.
  unfold strconv.Itoa, strconv.FormatInt, NilZero.string_of_int.
  destruct (Z.to_int z) as [d|d]; unfold NilZero.string_of_uint;
    destruct d; cbn; try done; apply occurs_paren_uint.
Qed.

(** **** The numbering loop *)

Lemma regexBody_cons lit name segs :
  spec.regexBody ((lit, name) :: segs)
  = lit ++ pathParaRegex ++ spec.regexBody segs.
Proof. done. Qed.

Lemma numberedBody_cons i lit name segs :
  spec.numberedBody i ((lit, name) :: segs)
  = lit ++ ("\" ++ strconv.Itoa (i + 1)) ++ spec.numberedBody (i + 1) segs.
Proof. done. Qed.

(** With more fuel than parameters the loop numbers every capture group
    and leaves through its [break]. *)
Lemma substituteParams_template segs :
  forall (q : string) (idx : Z) (fuel : nat) (tail : string),
    spec.occurs "(" q = false ->
    Forall (fun seg : string * string => spec.occurs "(" (fst seg) = false)
           segs ->
    Contains tail pathParaRegex = false ->
    (length segs < fuel)%nat ->
    substituteParams fuel (q ++ spec.regexBody segs ++ tail) idx
    = q ++ spec.numberedBody idx segs ++ tail.
Proof.
  induction segs as [|[lit name] segs IH]; intros q idx fuel tail Hq Hsegs Htail Hfuel.
  - destruct fuel as [|fuel]; [cbn in Hfuel; lia|].
    cbn [substituteParams spec.regexBody spec.numberedBody].
    change ("" ++ tail) with tail.
    by rewrite Contains_pathParaRegex_skip, Htail.
  - destruct fuel as [|fuel]; [cbn in Hfuel; lia|].
    apply Forall_cons in Hsegs as [Hlit Hsegs]. cbn [fst] in Hlit.
    rewrite regexBody_cons, numberedBody_cons.
    assert (q ++ (lit ++ pathParaRegex ++ spec.regexBody segs) ++ tail
            = (q ++ lit) ++ pathParaRegex ++ (spec.regexBody segs ++ tail))
      as -> by (by rewrite !append_assoc).
    assert (spec.occurs "(" (q ++ lit) = false) as Hql
      by (by rewrite occurs_append, Hq, Hlit).
    cbn [substituteParams].
    rewrite Contains_pathParaRegex_skip, Contains_pathParaRegex_head by done.
    cbn [negb]. cbv zeta.
    rewrite Replace_first_pathParaRegex by done.
    rewrite <- (append_assoc (q ++ lit)).
    rewrite IH; [by rewrite !append_assoc | | done | done | cbn in Hfuel; lia].
    rewrite occurs_append, Hql.
    change ("\" ++ strconv.Itoa (idx + 1))
      with (String "\" (strconv.Itoa (idx + 1))).
    cbn [spec.occurs orb]. apply occurs_paren_Itoa.
Qed.

Lemma regexBody_length segs : (length segs <= String.length (spec.regexBody segs))%nat.
Proof.
  induction segs as [|[lit name] segs IH]; [done|].
  rewrite regexBody_cons, !length_append. cbn [length String.length pathParaRegex].
  lia.
Qed.

(** **** Termination of the numbering loop on every input *)

Lemma count_append (c : ascii) (s t : string) :
  spec.count c (s ++ t) = (spec.count c s + spec.count c t)%nat.
Proof.
  induction s as [|a s IH]; [done|].
  change (String a s ++ t) with (String a (s ++ t)).
  cbn [spec.count]. rewrite IH. lia.
Qed.

Lemma count_occurs (c : ascii) (s : string) :
  spec.occurs c s = false -> spec.count c s = 0%nat.
Proof.
  induction s as [|a s IH]; [done|].
  cbn [spec.occurs spec.count]. intros [-> Hs]%orb_false_elim.
  by rewrite IH.
Qed.

Lemma count_length (c : ascii) (s : string) :
  (spec.count c s <= String.length s)%nat.
Proof.
  induction s as [|a s IH]; [done|].
  cbn [spec.count String.length]. destruct (Ascii.eqb a c); lia.
Qed.

Lemma replaceScan_skip (u z old new : string) (b : option nat) :
  replaceScan (u ++ z) old new (String.length u) b = replaceScan z old new 0 b.
Proof.
  induction u as [|a u IH]; [done|].
  change (String a u ++ z) with (String a (u ++ z)). by cbn.
Qed.

(** The first occurrence of a non-empty [old] is the one
    [strings.Replace(s, old, new, 1)] rewrites. *)
Lemma replaceScan_first_occurrence (s new : string) (o : ascii) (old : string) :
  Contains s (String o old) = true ->
  exists a z,
    s = a ++ String o old ++ z
    /\ replaceScan s (String o old) new 0 (Some 1%nat) = a ++ new ++ z.
Proof.
  induction s as [|c s IH]; [done|].
  cbn [Contains]. destruct (HasPrefix (String c s) (String o old)) eqn:Hhead.
  - intros _. apply HasPrefix_true_iff in Hhead as [z Hz].
    exists "", z. split; [done|].
    cbn [replaceScan budgetLeft andb]. rewrite Hz at 1.
    rewrite HasPrefix_append. injection Hz as -> ->.
    cbn [String.length Nat.pred budgetPred].
    by rewrite replaceScan_skip, replaceScan_spent.
  - cbn [orb]. intros (a & z & -> & Hscan)%IH.
    exists (String c a), z. split; [done|].
    cbn [replaceScan budgetLeft andb].
    change (String c (a ++ String o old ++ z))
      with (String c a ++ String o old ++ z) in Hhead.
    change (String c (a ++ String o old ++ z))
      with (String c a ++ String o old ++ z) at 1.
    rewrite Hhead. by rewrite Hscan.
Qed.

(** Whatever the string, as many iterations as it has opening
    parentheses exhaust its capture groups: the fuel
    [generateSubstitutionString] gives the loop is never used up. *)
Lemma substituteParams_enough_fuel (fuel : nat) :
  forall (s : string) (idx : Z),
    (spec.count "(" s < fuel)%nat ->
    Contains (substituteParams fuel s idx) pathParaRegex = false.
Proof.
  induction fuel as [|fuel IH]; intros s idx Hfuel; [lia|].
  cbn [substituteParams].
  destruct (Contains s pathParaRegex) eqn:Hs; cbn [negb]; [|done].
  cbv zeta. apply IH.
  destruct (replaceScan_first_occurrence s ("\" ++ strconv.Itoa (idx + 1))
              "(" "[^/]+)" Hs) as (a & z & -> & Hscan).
  assert (String.eqb pathParaRegex ("\" ++ strconv.Itoa (idx + 1)) = false)
    as Hnew by done.
  unfold Replace. rewrite Hnew. unfold pathParaRegex.
  cbn [orb Z.eqb]. cbv iota. change (budget 1) with (Some 1%nat).
  rewrite Hscan. rewrite !count_append in *.
  rewrite (count_occurs _ _ (occurs_paren_Itoa (idx + 1))).
  change (spec.count "(" "\") with 0%nat.
  change (spec.count "(" "([^/]+)") with 1%nat in Hfuel. lia.
Qed.

Lemma generateSubstitutionString_loop_ends (s : string) (idx : Z) :
  Contains (substituteParams (S (String.length s)) s idx) pathParaRegex = false.
Proof.
  apply substituteParams_enough_fuel.
  pose proof (count_length "(" s). lia.
Qed.

(** **** The end of a template *)

Lemma HasSuffix_shielded suffix body last :
  spec.shielded suffix body ->
  HasSuffix (body ++ last) suffix = HasSuffix last suffix.
Proof.
  intros [->|(a & c & -> & Hc)]; [done|].
  by apply HasSuffix_append_barrier.
Qed.

Lemma TrimSuffix_shielded suffix body last :
  spec.shielded suffix body ->
  TrimSuffix (body ++ last) suffix = body ++ TrimSuffix last suffix.
Proof.
  intros Hb. destruct (HasSuffix last suffix) eqn:Hlast.
  - apply HasSuffix_true_iff in Hlast as [p ->].
    by rewrite <- append_assoc, !TrimSuffix_append.
  - rewrite !TrimSuffix_no_suffix; [done..|].
    by rewrite HasSuffix_shielded.
Qed.

Lemma regexBody_shielded suffix segs :
  spec.occurs ")" (rev suffix) = false -> spec.shielded suffix (spec.regexBody segs).
Proof.
  intros Hc. induction segs as [|[lit name] segs IH]; [by left|]. right.
  rewrite regexBody_cons. destruct IH as [->|(a & c & -> & Hc')].
  - exists (lit ++ "([^/]+"), ")"%char. split; [|done].
    by rewrite append_assoc.
  - exists (lit ++ pathParaRegex ++ a), c. split; [|done].
    by rewrite !append_assoc.
Qed.

Lemma pathBody_shielded suffix segs :
  spec.occurs "}" (rev suffix) = false -> spec.shielded suffix (spec.pathBody segs).
Proof.
  intros Hc. induction segs as [|[lit name] segs IH]; [by left|]. right.
  cbn [spec.pathBody]. destruct IH as [->|(a & c & -> & Hc')].
  - exists (lit ++ "{" ++ name), "}"%char. split; [|done].
    by rewrite !append_assoc.
  - exists (lit ++ "{" ++ name ++ "}" ++ a), c. split; [|done].
    by rewrite !append_assoc.
Qed.

Lemma occurs_TrimSuffix c s suffix :
  spec.occurs c s = false -> spec.occurs c (TrimSuffix s suffix) = false.
Proof.
  intros Hs. destruct (HasSuffix s suffix) eqn:Hsuf.
  - apply HasSuffix_true_iff in Hsuf as [p ->]. rewrite TrimSuffix_append.
    rewrite occurs_append in Hs. by apply orb_false_elim in Hs as [? _].
  - by rewrite TrimSuffix_no_suffix.
Qed.

Lemma HasSuffix_trailingSlash_wildCard (s : string) :
  HasSuffix (s ++ trailingSlashRegex) wildCardRegex = false.
Proof. by rewrite HasSuffix_rev, rev_append. Qed.

(** **** The path regex and the substitution of a template *)

Lemma generatePathRegexSegment_template (t : spec.Template) :
  spec.wellFormed t ->
  generatePathRegexSegment (spec.pathOf t)
  = spec.regexBody (spec.tplSegments t)
    ++ (if HasSuffix (spec.tplLast t) "/*"
        then TrimSuffix (spec.tplLast t) "/*" ++ wildCardRegex
        else TrimSuffix (spec.tplLast t) "/" ++ trailingSlashRegex).
Proof.
  intros Hwf. unfold generatePathRegexSegment. cbv zeta.
  rewrite ReplaceAllString_template by done.
  rewrite HasSuffix_shielded by (by apply regexBody_shielded).
  destruct (HasSuffix (spec.tplLast t) "/*");
    rewrite TrimSuffix_shielded by (by apply regexBody_shielded);
    by rewrite append_assoc.
Qed.

Lemma generateSubstitutionString_template (t : spec.Template) (base : string) :
  spec.wellFormed t ->
  generateSubstitutionString (spec.pathOf t) base
  = base ++ spec.numbered (spec.dropWildcard t).
Proof.
  intros Hwf. pose proof Hwf as (Hsegs & HlastB & HlastP).
  assert (Forall (fun seg : string * string => spec.occurs "(" (fst seg) = false)
                 (spec.tplSegments t)) as Hparen.
  { eapply Forall_impl; [exact Hsegs|]. by intros seg (_ & ? & _). }
  unfold generateSubstitutionString. cbv zeta.
  rewrite generatePathRegexSegment_template by done.
  unfold spec.numbered, spec.dropWildcard.
  cbn [spec.tplSegments spec.tplLast].
  set (segs := spec.tplSegments t) in *. set (last := spec.tplLast t) in *.
  assert (forall tail,
             (length segs
              < S (String.length (spec.regexBody segs ++ tail)))%nat) as Hfuel.
  { intros tail. rewrite length_append.
    pose proof (regexBody_length segs). lia. }
  assert (forall tail,
             spec.occurs "(" tail = false ->
             substituteParams
               (S (String.length (spec.regexBody segs ++ tail ++ wildCardRegex)))
               (spec.regexBody segs ++ tail ++ wildCardRegex) 0
             = spec.numberedBody 0 segs ++ tail ++ wildCardRegex) as HloopW.
  { intros tail Htail.
    apply (substituteParams_template segs "" 0 _ (tail ++ wildCardRegex));
      [done | done | | apply Hfuel].
    by rewrite Contains_pathParaRegex_skip. }
  assert (forall tail,
             spec.occurs "(" tail = false ->
             substituteParams
               (S (String.length
                     (spec.regexBody segs ++ tail ++ trailingSlashRegex)))
               (spec.regexBody segs ++ tail ++ trailingSlashRegex) 0
             = spec.numberedBody 0 segs ++ tail ++ trailingSlashRegex) as HloopS.
  { intros tail Htail.
    apply (substituteParams_template segs "" 0 _ (tail ++ trailingSlashRegex));
      [done | done | | apply Hfuel].
    by rewrite Contains_pathParaRegex_skip. }
  destruct (HasSuffix last "/*") eqn:Hwild.
  - rewrite HloopW by (by apply occurs_TrimSuffix).
    by rewrite <- append_assoc, HasSuffix_append, TrimSuffix_append.
  - rewrite HloopS by (by apply occurs_TrimSuffix).
    rewrite <- append_assoc, HasSuffix_trailingSlash_wildCard.
    rewrite TrimSuffix_append.
    rewrite (TrimSuffix_no_suffix last "/*") by done.
    unfold spec.pathOf. fold segs last.
    rewrite HasSuffix_shielded by (by apply pathBody_shielded).
    destruct (HasSuffix last "/") eqn:Hslash.
    + apply HasSuffix_true_iff in Hslash as [p Hp].
      rewrite Hp, TrimSuffix_append. by rewrite !append_assoc.
    + by rewrite TrimSuffix_no_suffix.
Qed.

(** C7, as the claim states it, fails: for the resource path
    [/foo/{id}/*] the substitution is the endpoint base path followed by
    [/foo/\1], not by [/foo/\1/*]. *)
Lemma generateSubstitutionString_counterexample :
  ~ (forall (t : spec.Template) (base : string),
        spec.wellFormed t ->
        spec.tplSegments t <> [] ->
        generateSubstitutionString (spec.pathOf t) base
        = base ++ spec.numbered t).
Proof.
  intros H.
  specialize (H {| spec.tplSegments := [("/foo/", "id")];
                   spec.tplLast := "/*" |} "/v3").
  assert ("/v3/foo/\1" = "/v3/foo/\1/*") as Habs; [|discriminate Habs].
  apply H; [|done].
  split; [|done]. by repeat constructor.
Qed.

(** C7 (amended): for every resource path made of literal text and
    [{param}] segments (literal text without opening brace or opening
    parenthesis, parameter names non-empty and without closing brace) and
    no [rewritePath], the regex substitution string is the endpoint base
    path followed by the resource path with the i-th [{param}] replaced
    by [\i] when the path does not end in the wildcard [/*], and by that
    of the path without its final [/*] when it does; for [/users/{id}]
    with endpoint base path [/v3] it is [/v3/users/\1], and with base path
    [/api] the match regex is
    [^/api/users/([^/]+)(/{0,1})(\?([^/]+))?$]. *)
Theorem generateSubstitutionString_numbers_parameters (t : spec.Template) (base : string) :
  spec.wellFormed t ->
  (HasSuffix (spec.pathOf t) "/*" = false ->
   generateSubstitutionString (spec.pathOf t) base = base ++ spec.numbered t)
  /\ (HasSuffix (spec.pathOf t) "/*" = true ->
      spec.pathOf t = spec.pathOf (spec.dropWildcard t) ++ "/*"
      /\ generateSubstitutionString (spec.pathOf t) base
         = base ++ spec.numbered (spec.dropWildcard t))
  /\ (forall (env : Env) (params : routeCreateParams),
         rewritePath params = "" ->
         xWSO2BasePath params <> "" ->
         resourcePathParam params = spec.pathOf t ->
         Contains (spec.pathOf t) "?" = false ->
         rwSubstitution <$> RegexRewrite (rtAction (createRoute env params))
         = Some (endpointBasePath params
                 ++ spec.numbered (spec.dropWildcard t)))
  /\ generateSubstitutionString "/users/{id}" "/v3" = "/v3/users/\1"
  /\ generateRoutePath "/api" "/users/{id}"
     = "^/api/users/([^/]+)(/{0,1})(\?([^/]+))?$".
Proof.
  intros Hwf.
  assert (HasSuffix (spec.pathOf t) "/*" = HasSuffix (spec.tplLast t) "/*")
    as Hsuffix.
  { unfold spec.pathOf. by apply HasSuffix_shielded, pathBody_shielded. }
  rewrite Hsuffix. repeat split.
  - intros Hwild. rewrite generateSubstitutionString_template by done.
    unfold spec.numbered, spec.dropWildcard.
    cbn [spec.tplSegments spec.tplLast].
    by rewrite TrimSuffix_no_suffix.
  - apply HasSuffix_true_iff in H as [p Hp].
    unfold spec.pathOf, spec.dropWildcard.
    cbn [spec.tplSegments spec.tplLast].
    by rewrite Hp, TrimSuffix_append, append_assoc.
  - by apply generateSubstitutionString_template.
  - intros env params Hrewrite Hbase Hpath Hquery.
    cbn [createRoute rtAction RegexRewrite].
    apply String.eqb_neq in Hbase. rewrite Hbase. cbn [negb fmap option_fmap option_map].
    unfold routeRewrite. rewrite Hrewrite. cbn [String.eqb negb rwSubstitution].
    unfold dropQuery. rewrite Hpath, Hquery.
    by rewrite generateSubstitutionString_template.
Qed.

Lemma generateSubstitutionString_numbers_parameters_witness :
  generateSubstitutionString "/foo/{id}/bar" "/v3" = "/v3/foo/\1/bar"
  /\ generateSubstitutionString "/foo/{id}/*" "/v3" = "/v3/foo/\1".
Proof.
  split.
  - destruct (generateSubstitutionString_numbers_parameters
                {| spec.tplSegments := [("/foo/", "id")];
                   spec.tplLast := "/bar" |} "/v3") as (Hplain & _).
    + split; [|split; reflexivity].
      constructor; [repeat split; try reflexivity; discriminate | constructor].
    + apply Hplain. reflexivity.
  - destruct (generateSubstitutionString_numbers_parameters
                {| spec.tplSegments := [("/foo/", "id")];
                   spec.tplLast := "/*" |} "/v3") as (_ & Hwild & _).
    + split; [|split; reflexivity].
      constructor; [repeat split; try reflexivity; discriminate | constructor].
    + apply Hwild. reflexivity.
Defined.

End substitution.

(* ===================================================================== *)
(** ** Part III. Further properties of the code                         *)
(* ===================================================================== *)

Import envoyconf_tracing.

(** *** The endpoint compiler: what a compiled cluster holds *)

Section endpoint_compiler.
Variable env : Env.
Variable cd : EndpointCluster.
Variable certs : gmap string (list Byte.byte).
Variable basePath : string.

Local Abbreviation isTLS ep :=
  (HasPrefix (URLType ep) httpsURLType || HasPrefix (URLType ep) wssURLType).
Local Abbreviation addressOf ep := (createAddress (Host ep) (Port ep)).
Local Abbreviation certOf ep :=
  (match certs !! RawURL ep with
   | Some cert => cert
   | None => default [] (certs !! "default")
   end).
Local Abbreviation tlsContextOf ep :=
  (createUpstreamTLSContext env (certOf ep) (addressOf ep)
     (HTTP2BackendEnabled cd)).
Local Abbreviation accepted ep :=
  (TrimSuffix (Basepath ep) "/" = basePath
   /\ (isTLS ep = true ->
       is_Some (marshalTLSContext (ext env) (tlsContextOf ep)))).

Local Arguments HasPrefix : simpl never.

Local Ltac loop_step H ep :=
  cbn [endpointsLoop] in H; cbv zeta in H;
  destruct (String.eqb (TrimSuffix (Basepath ep) "/") basePath) eqn:Hbp;
    cbn [negb] in H; [|discriminate H];
  destruct (HasPrefix (URLType ep) httpsURLType
            || HasPrefix (URLType ep) wssURLType) eqn:Htls;
    [match type of H with
     | context [marshalTLSContext ?e ?c] =>
         destruct (marshalTLSContext e c) as [bytes|] eqn:Hm;
         [|discriminate H]
     end|].

Lemma endpointsLoop_addresses eps : forall i acc acc',
  endpointsLoop env cd certs basePath i eps acc = inr acc' ->
  accAddresses acc'
  = (accAddresses acc ++ ((fun ep => addressOf ep) <$> eps))%list
  /\ LbEndpointAddress <$> accLbEPs acc'
     = ((LbEndpointAddress <$> accLbEPs acc)
        ++ ((fun ep => addressOf ep) <$> eps))%list.
Proof.
  induction eps as [|ep eps IH]; intros i acc acc' H.
  - injection H as <-. by rewrite !app_nil_r.
  - loop_step H ep; apply IH in H as [-> ->]; simpl;
      by rewrite fmap_app, <- !app_assoc.
Qed.

Lemma endpointsLoop_priorities eps : forall i acc acc',
  endpointsLoop env cd certs basePath i eps acc = inr acc' ->
  Priority <$> accLbEPs acc'
  = ((Priority <$> accLbEPs acc)
     ++ imap (fun j _ =>
                if HasPrefix (EndpointType cd) "failover"
                then accPriority acc + Z.of_nat j else accPriority acc)
             eps)%list.
Proof.
  induction eps as [|ep eps IH]; intros i acc acc' H.
  - injection H as <-. by rewrite app_nil_r.
  - loop_step H ep; apply IH in H as ->; simpl;
      rewrite fmap_app, <- app_assoc; simpl; f_equal;
      (destruct (HasPrefix (EndpointType cd) "failover");
       [f_equal; [simpl; lia | apply imap_ext; intros; simpl; lia]
       | done]).
Qed.

Lemma endpointsLoop_lb_ids eps : forall i acc acc',
  endpointsLoop env cd certs basePath i eps acc = inr acc' ->
  LbEndpointLbID <$> accLbEPs acc'
  = ((LbEndpointLbID <$> accLbEPs acc)
     ++ imap (fun j ep =>
                if isTLS ep then Some (strconv.Itoa (i + Z.of_nat j))
                else None) eps)%list.
Proof.
  induction eps as [|ep eps IH]; intros i acc acc' H.
  - injection H as <-. by rewrite app_nil_r.
  - loop_step H ep; apply IH in H as ->; simpl;
      rewrite fmap_app, <- app_assoc; simpl; rewrite Htls;
      replace (i + Z.of_nat 0) with i by (simpl; lia);
      do 2 f_equal; apply imap_ext; intros j x _; simpl;
      by replace (i + 1 + Z.of_nat j) with (i + Z.of_nat (S j)) by lia.
Qed.

Lemma endpointsLoop_matches eps : forall i acc acc',
  endpointsLoop env cd certs basePath i eps acc = inr acc' ->
  exists new,
    accLbEPs acc' = (accLbEPs acc ++ new)%list
    /\ tsmLbID <$> accTransportSocketMatches acc'
       = ((tsmLbID <$> accTransportSocketMatches acc)
          ++ omap LbEndpointLbID new)%list
    /\ (Forall (fun m => tsmName m = "ts" ++ tsmLbID m
                         /\ tsmTransportSocketName m
                            = transportSocketName (consts env))
               (accTransportSocketMatches acc) ->
        Forall (fun m => tsmName m = "ts" ++ tsmLbID m
                         /\ tsmTransportSocketName m
                            = transportSocketName (consts env))
               (accTransportSocketMatches acc')).
Proof.
  induction eps as [|ep eps IH]; intros i acc acc' H.
  - injection H as <-. exists []. by rewrite !app_nil_r.
  - loop_step H ep; apply IH in H as (new & Hlb & Hids & Hall);
      cbn [accLbEPs accTransportSocketMatches] in *;
      eexists (_ :: new); (split; [by rewrite Hlb, <- app_assoc|]).
    + split.
      * by rewrite Hids, fmap_app, <- app_assoc.
      * intros Hacc. apply Hall, Forall_app. split; [done|].
        by repeat constructor.
    + by split.
Qed.

(** Every endpoint passes the base-path check and, when it is a TLS
    endpoint, its TLS context marshals. *)
Lemma endpointsLoop_inr_iff eps : forall i acc,
  (exists acc', endpointsLoop env cd certs basePath i eps acc = inr acc')
  <-> Forall (fun ep => accepted ep) eps.
Proof.
  induction eps as [|ep eps IH]; intros i acc.
  - split; [constructor | by eexists].
  - split.
    + intros [acc' H]. loop_step H ep.
      * constructor; [|by eapply IH; eexists].
        split; [by apply String.eqb_eq|]. by rewrite Hm.
      * constructor; [|by eapply IH; eexists].
        split; [by apply String.eqb_eq | by rewrite Htls].
    + intros H. apply Forall_cons in H as [[Hbp Hm] H].
      cbn [endpointsLoop]; cbv zeta.
      apply String.eqb_eq in Hbp. rewrite Hbp. cbn [negb].
      destruct (isTLS ep) eqn:Htls.
      * destruct (Hm eq_refl) as [bytes ->]. by apply IH.
      * by apply IH.
Qed.

Lemma endpointsLoop_first_mismatch pre : forall ep post i acc,
  Forall (fun ep => accepted ep) pre ->
  TrimSuffix (Basepath ep) "/" <> basePath ->
  endpointsLoop env cd certs basePath i (pre ++ ep :: post) acc
  = inl ("endpoint basepath mismatched for " ++ RawURL ep
         ++ ". expected : " ++ basePath ++ " but found : " ++ Basepath ep).
Proof.
  induction pre as [|p pre IH]; intros ep post i acc Hpre Hne.
  - cbn [app endpointsLoop]; cbv zeta.
    by destruct (String.eqb_spec (TrimSuffix (Basepath ep) "/") basePath).
  - apply Forall_cons in Hpre as [[Hbp Hm] Hpre].
    cbn [app endpointsLoop]; cbv zeta.
    apply String.eqb_eq in Hbp. rewrite Hbp. cbn [negb].
    destruct (isTLS p) eqn:Htls.
    + destruct (Hm eq_refl) as [bytes ->]. by apply IH.
    + by apply IH.
Qed.

(** Each transport-socket match the loop adds carries the marshalled TLS
    context of a TLS endpoint, under the index of that endpoint. *)
Lemma endpointsLoop_typed_config eps : forall i acc acc',
  endpointsLoop env cd certs basePath i eps acc = inr acc' ->
  exists new,
    accTransportSocketMatches acc'
    = (accTransportSocketMatches acc ++ new)%list
    /\ Forall (fun m =>
                 exists (j : nat) ep,
                   eps !! j = Some ep
                   /\ isTLS ep = true
                   /\ tsmLbID m = strconv.Itoa (i + Z.of_nat j)
                   /\ marshalTLSContext (ext env) (tlsContextOf ep)
                      = Some (tsmTypedConfig m)) new.
Proof.
  induction eps as [|ep eps IH]; intros i acc acc' H.
  - injection H as <-. exists []. by rewrite app_nil_r.
  - loop_step H ep; apply IH in H as (new & Htsm & Hall);
      cbn [accTransportSocketMatches] in *.
    + eexists (_ :: new). split; [by rewrite Htsm, <- app_assoc|].
      constructor.
      * exists 0%nat, ep. cbn [tsmLbID tsmTypedConfig].
        replace (i + Z.of_nat 0) with i by (simpl; lia). done.
      * eapply Forall_impl; [exact Hall|].
        intros m (j & x & Hj & Hx & Hid & Hcfg). exists (S j), x.
        replace (i + Z.of_nat (S j)) with (i + 1 + Z.of_nat j) by lia. done.
    + exists new. split; [done|].
      eapply Forall_impl; [exact Hall|].
      intros m (j & x & Hj & Hx & Hid & Hcfg). exists (S j), x.
      replace (i + Z.of_nat (S j)) with (i + 1 + Z.of_nat j) by lia. done.
Qed.

(** What a successful [processEndpoints] is made of. *)
Lemma processEndpoints_inr registry clusterName timeout c addrs reg :
  processEndpoints env registry clusterName cd certs timeout basePath
  = Return (inr (c, addrs, reg)) ->
  exists acc ep0 rest,
    endpointsLoop env cd certs basePath 0 (Endpoints cd)
      {| accAddresses := []; accLbEPs := [];
         accTransportSocketMatches := []; accPriority := 0 |} = inr acc
    /\ Endpoints cd = ep0 :: rest
    /\ addrs = accAddresses acc
    /\ clName c = clusterName
    /\ clLoadAssignment c = accLbEPs acc
    /\ clTransportSocketMatches c = accTransportSocketMatches acc
    /\ clHealthChecks c
       = (if (1 <? length (Endpoints cd))%nat
          then createHealthCheck env else [])
    /\ clCircuitBreakers c
       = (cfg ← Config cd; cb ← CircuitBreakersOf cfg;
          Some (circuitBreakerThresholds cb))
    /\ reg = (if negb (String.eqb (ServiceDiscoveryString ep0) "")
              then <[clusterName := ServiceDiscoveryString ep0]> registry
              else registry).
Proof.
  unfold processEndpoints. intros H.
  destruct (endpointsLoop _ _ _ _ _ _ _) as [err|acc]; [discriminate H|].
  destruct (Endpoints cd) as [|ep0 rest] eqn:Heps; [discriminate H|].
  cbn [index0 mbind exec_bind] in H. injection H as <- <- <-.
  by exists acc, ep0, rest.
Qed.

End endpoint_compiler.

(** X1: a successful [processEndpoints] returns one address per endpoint
    of the group, in the order of the group and made of the host and
    port of the endpoint; the load assignment of the cluster lists the
    same addresses in the same order. *)
Theorem processEndpoints_addresses (env : Env) (registry : ConsulKeyMap)
    (clusterName : string) (cd : EndpointCluster) (certs : CertStore)
    (timeout : Z) (basePath : string)
    (c : Cluster) (addrs : list Address) (reg : ConsulKeyMap) :
  processEndpoints env registry clusterName cd certs timeout basePath
  = Return (inr (c, addrs, reg)) ->
  addrs = (fun ep => createAddress (Host ep) (Port ep)) <$> Endpoints cd
  /\ LbEndpointAddress <$> clLoadAssignment c = addrs
  /\ length (clLoadAssignment c) = length (Endpoints cd).
Proof.
  intros H.
  apply processEndpoints_inr in H
    as (acc & ep0 & rest & Hloop & _ & -> & _ & -> & _).
  apply endpointsLoop_addresses in Hloop as [Ha Hlb].
  cbn [accAddresses accLbEPs fmap list_fmap app] in Ha, Hlb.
  rewrite Ha. split; [done|]. split; [done|].
  apply (f_equal length) in Hlb. by rewrite !length_fmap in Hlb.
Qed.

Lemma processEndpoints_addresses_witness :
  exists c addrs reg,
    processEndpoints sample.env ∅ "c"
      (sample.group "p" [sample.endpoint "a.example" "/v2";
                         sample.endpoint "b.example" "/v2/"]) ∅ 20 "/v2"
    = Return (inr (c, addrs, reg))
    /\ addrs = [createAddress "a.example" 80; createAddress "b.example" 80]
    /\ LbEndpointAddress <$> clLoadAssignment c = addrs.
Proof.
  eexists _, _, _. split; [by vm_compute|].
  destruct (processEndpoints_addresses sample.env ∅ "c"
              (sample.group "p" [sample.endpoint "a.example" "/v2";
                                 sample.endpoint "b.example" "/v2/"])
              ∅ 20 "/v2" _ _ _ ltac:(by vm_compute)) as (Ha & Hlb & _).
  split; [exact Ha | exact Hlb].
Defined.

(** X2: in a successful [processEndpoints] the endpoints of a group
    whose type begins with [failover] get the priorities [0, 1, 2, ...]
    in the order of the group; the endpoints of any other group all get
    priority [0]. *)
Theorem processEndpoints_priorities (env : Env) (registry : ConsulKeyMap)
    (clusterName : string) (cd : EndpointCluster) (certs : CertStore)
    (timeout : Z) (basePath : string)
    (c : Cluster) (addrs : list Address) (reg : ConsulKeyMap) :
  processEndpoints env registry clusterName cd certs timeout basePath
  = Return (inr (c, addrs, reg)) ->
  Priority <$> clLoadAssignment c
  = imap (fun j _ =>
            if HasPrefix (EndpointType cd) "failover"
            then Z.of_nat j else 0)
         (Endpoints cd).
Proof.
  intros H.
  apply processEndpoints_inr in H
    as (acc & ep0 & rest & Hloop & _ & _ & _ & -> & _).
  apply endpointsLoop_priorities in Hloop.
  cbn [accLbEPs accPriority fmap list_fmap app] in Hloop.
  rewrite Hloop. apply imap_ext. intros j x _. cbn beta.
  by destruct (HasPrefix (EndpointType cd) "failover").
Qed.

Lemma processEndpoints_priorities_witness :
  exists c addrs reg,
    processEndpoints sample.env ∅ "c"
      {| EndpointPrefix := "p";
         Endpoints := [sample.endpoint "a.example" "/v2";
                       sample.endpoint "b.example" "/v2";
                       sample.endpoint "c.example" "/v2"];
         EndpointType := "failover"; Config := None;
         HTTP2BackendEnabled := false |} ∅ 20 "/v2"
    = Return (inr (c, addrs, reg))
    /\ Priority <$> clLoadAssignment c = [0; 1; 2].
Proof.
  eexists _, _, _. split; [by vm_compute|].
  exact (processEndpoints_priorities sample.env ∅ "c"
           {| EndpointPrefix := "p";
              Endpoints := [sample.endpoint "a.example" "/v2";
                            sample.endpoint "b.example" "/v2";
                            sample.endpoint "c.example" "/v2"];
              EndpointType := "failover"; Config := None;
              HTTP2BackendEnabled := false |} ∅ 20 "/v2" _ _ _
           ltac:(by vm_compute)).
Defined.

(** X3: in a successful [processEndpoints] exactly the endpoints whose
    URL type begins with [https] or [wss] are tagged with an [lb_id],
    the decimal index of the endpoint in the group; the transport-socket
    matches of the cluster select these tags one for one, in the order
    of the group, and each is named [ts] followed by its tag and uses
    the configured transport socket. *)
Theorem processEndpoints_transport_sockets (env : Env)
    (registry : ConsulKeyMap) (clusterName : string) (cd : EndpointCluster)
    (certs : CertStore) (timeout : Z) (basePath : string)
    (c : Cluster) (addrs : list Address) (reg : ConsulKeyMap) :
  processEndpoints env registry clusterName cd certs timeout basePath
  = Return (inr (c, addrs, reg)) ->
  LbEndpointLbID <$> clLoadAssignment c
  = imap (fun j ep =>
            if HasPrefix (URLType ep) httpsURLType
               || HasPrefix (URLType ep) wssURLType
            then Some (strconv.Itoa (Z.of_nat j)) else None)
         (Endpoints cd)
  /\ tsmLbID <$> clTransportSocketMatches c
     = omap LbEndpointLbID (clLoadAssignment c)
  /\ Forall (fun m => tsmName m = "ts" ++ tsmLbID m
                      /\ tsmTransportSocketName m
                         = transportSocketName (consts env))
            (clTransportSocketMatches c).
Proof.
  intros H.
  apply processEndpoints_inr in H
    as (acc & ep0 & rest & Hloop & _ & _ & _ & -> & -> & _).
  split; [|split].
  - apply endpointsLoop_lb_ids in Hloop.
    cbn [accLbEPs fmap list_fmap app] in Hloop. rewrite Hloop.
    apply imap_ext. intros j x _. cbn beta.
    by replace (0 + Z.of_nat j) with (Z.of_nat j) by lia.
  - apply endpointsLoop_matches in Hloop as (new & -> & Hids & _).
    by cbn [accTransportSocketMatches fmap list_fmap app] in Hids.
  - apply endpointsLoop_matches in Hloop as (new & _ & _ & Hall).
    by apply Hall.
Qed.

Lemma processEndpoints_transport_sockets_witness :
  exists c addrs reg,
    processEndpoints sample.env ∅ "c"
      (sample.group "p"
         [sample.endpoint "a.example" "/v2";
          {| Host := "b.example"; Basepath := "/v2"; URLType := "https";
             Port := 443; ServiceDiscoveryString := "";
             RawURL := "https://b.example/v2" |}]) ∅ 20 "/v2"
    = Return (inr (c, addrs, reg))
    /\ LbEndpointLbID <$> clLoadAssignment c = [None; Some "1"]
    /\ tsmName <$> clTransportSocketMatches c = ["ts1"].
Proof.
  eexists _, _, _. split; [by vm_compute|].
  destruct (processEndpoints_transport_sockets sample.env ∅ "c"
              (sample.group "p"
                 [sample.endpoint "a.example" "/v2";
                  {| Host := "b.example"; Basepath := "/v2";
                     URLType := "https"; Port := 443;
                     ServiceDiscoveryString := "";
                     RawURL := "https://b.example/v2" |}]) ∅ 20 "/v2"
              _ _ _ ltac:(by vm_compute)) as (Hids & _ & _).
  split; [exact Hids | reflexivity].
Defined.

(** X4: each transport-socket match of a successfully compiled cluster
    holds the marshalled TLS context of a TLS endpoint of the group,
    under the index of that endpoint; the context is built for the
    address of the endpoint with the certificate registered under the
    raw URL of the endpoint, else the one registered under [default],
    else none. *)
Theorem processEndpoints_tls_context (env : Env) (registry : ConsulKeyMap)
    (clusterName : string) (cd : EndpointCluster) (certs : CertStore)
    (timeout : Z) (basePath : string)
    (c : Cluster) (addrs : list Address) (reg : ConsulKeyMap) :
  processEndpoints env registry clusterName cd certs timeout basePath
  = Return (inr (c, addrs, reg)) ->
  Forall (fun m =>
            exists (j : nat) ep,
              Endpoints cd !! j = Some ep
              /\ HasPrefix (URLType ep) httpsURLType
                 || HasPrefix (URLType ep) wssURLType = true
              /\ tsmLbID m = strconv.Itoa (Z.of_nat j)
              /\ marshalTLSContext (ext env)
                   (createUpstreamTLSContext env
                      (match certs !! RawURL ep with
                       | Some cert => cert
                       | None => default [] (certs !! "default")
                       end)
                      (createAddress (Host ep) (Port ep))
                      (HTTP2BackendEnabled cd))
                 = Some (tsmTypedConfig m))
         (clTransportSocketMatches c).
Proof.
  intros H.
  apply processEndpoints_inr in H
    as (acc & ep0 & rest & Hloop & _ & _ & _ & _ & -> & _).
  apply endpointsLoop_typed_config in Hloop as (new & -> & Hall).
  cbn [accTransportSocketMatches app].
  eapply Forall_impl; [exact Hall|].
  intros m (j & x & Hj & Hx & Hid & Hcfg). exists j, x.
  by replace (0 + Z.of_nat j) with (Z.of_nat j) in Hid by lia.
Qed.

Lemma processEndpoints_tls_context_witness :
  let tls :=
    {| Host := "b.example"; Basepath := "/v2"; URLType := "wss";
       Port := 443; ServiceDiscoveryString := "";
       RawURL := "wss://b.example/v2" |} in
  exists c addrs reg,
    processEndpoints sample.env ∅ "c" (sample.group "p" [tls])
      {["default" := []]} 20 "/v2"
    = Return (inr (c, addrs, reg))
    /\ Forall (fun m =>
                 exists (j : nat) ep,
                   [tls] !! j = Some ep
                   /\ HasPrefix (URLType ep) httpsURLType
                      || HasPrefix (URLType ep) wssURLType = true
                   /\ tsmLbID m = strconv.Itoa (Z.of_nat j)
                   /\ marshalTLSContext (ext sample.env)
                        (createUpstreamTLSContext sample.env
                           (match ({["default" := []]} : CertStore)
                                    !! RawURL ep with
                            | Some cert => cert
                            | None =>
                                default []
                                  (({["default" := []]} : CertStore)
                                     !! "default")
                            end)
                           (createAddress (Host ep) (Port ep)) false)
                      = Some (tsmTypedConfig m))
              (clTransportSocketMatches c).
Proof.
  intros tls. eexists _, _, _. split; [by vm_compute|].
  exact (processEndpoints_tls_context sample.env ∅ "c"
           (sample.group "p" [tls]) {["default" := []]} 20 "/v2" _ _ _
           ltac:(by vm_compute)).
Defined.

(** X5: on a group with at least one endpoint [processEndpoints] returns
    a cluster exactly when every endpoint has, once a trailing slash is
    removed, the expected base path and the TLS context of every TLS
    endpoint marshals; otherwise it returns an error. *)
Theorem processEndpoints_succeeds_iff (env : Env) (registry : ConsulKeyMap)
    (clusterName : string) (cd : EndpointCluster) (certs : CertStore)
    (timeout : Z) (basePath : string) :
  Endpoints cd <> [] ->
  ((exists r,
       processEndpoints env registry clusterName cd certs timeout basePath
       = Return (inr r))
   <-> Forall (fun ep =>
                 TrimSuffix (Basepath ep) "/" = basePath
                 /\ (HasPrefix (URLType ep) httpsURLType
                     || HasPrefix (URLType ep) wssURLType = true ->
                     is_Some
                       (marshalTLSContext (ext env)
                          (createUpstreamTLSContext env
                             (match certs !! RawURL ep with
                              | Some cert => cert
                              | None => default [] (certs !! "default")
                              end)
                             (createAddress (Host ep) (Port ep))
                             (HTTP2BackendEnabled cd)))))
              (Endpoints cd))
  /\ ((exists err,
          processEndpoints env registry clusterName cd certs timeout basePath
          = Return (inl err))
      \/ (exists r,
             processEndpoints env registry clusterName cd certs timeout
               basePath
             = Return (inr r))).
Proof.
  intros Hne. split.
  - rewrite <- (endpointsLoop_inr_iff env cd certs basePath (Endpoints cd) 0
                  {| accAddresses := []; accLbEPs := [];
                     accTransportSocketMatches := []; accPriority := 0 |}).
    unfold processEndpoints. split.
    + intros [r H].
      destruct (endpointsLoop _ _ _ _ _ _ _) as [err|acc];
        [discriminate H | by eexists].
    + intros [acc ->]. destruct (Endpoints cd); [done|]. by eexists.
  - unfold processEndpoints.
    destruct (endpointsLoop _ _ _ _ _ _ _) as [err|acc];
      [left; by eexists|].
    right. destruct (Endpoints cd); [done|]. by eexists.
Qed.

Lemma processEndpoints_succeeds_iff_witness :
  exists r,
    processEndpoints sample.env ∅ "c"
      (sample.group "p" [sample.endpoint "a.example" "/v2/"]) ∅ 20 "/v2"
    = Return (inr r).
Proof.
  destruct (processEndpoints_succeeds_iff sample.env ∅ "c"
              (sample.group "p" [sample.endpoint "a.example" "/v2/"]) ∅ 20
              "/v2" ltac:(discriminate)) as [[_ Hif] _].
  apply Hif. constructor; [|constructor].
  split; [reflexivity | intros H; discriminate H].
Defined.

(** X6: when the endpoints before an endpoint of the group all pass and
    that endpoint has, once a trailing slash is removed, another base
    path than the expected one, [processEndpoints] returns the error
    that names the raw URL of this first offending endpoint, the
    expected base path and the base path found. *)
Theorem processEndpoints_first_mismatch (env : Env) (registry : ConsulKeyMap)
    (clusterName : string) (cd : EndpointCluster) (certs : CertStore)
    (timeout : Z) (basePath : string)
    (pre : list Endpoint) (ep : Endpoint) (post : list Endpoint) :
  Endpoints cd = (pre ++ ep :: post)%list ->
  Forall (fun ep =>
            TrimSuffix (Basepath ep) "/" = basePath
            /\ (HasPrefix (URLType ep) httpsURLType
                || HasPrefix (URLType ep) wssURLType = true ->
                is_Some
                  (marshalTLSContext (ext env)
                     (createUpstreamTLSContext env
                        (match certs !! RawURL ep with
                         | Some cert => cert
                         | None => default [] (certs !! "default")
                         end)
                        (createAddress (Host ep) (Port ep))
                        (HTTP2BackendEnabled cd)))))
         pre ->
  TrimSuffix (Basepath ep) "/" <> basePath ->
  processEndpoints env registry clusterName cd certs timeout basePath
  = Return (inl ("endpoint basepath mismatched for " ++ RawURL ep
                 ++ ". expected : " ++ basePath ++ " but found : "
                 ++ Basepath ep)).
Proof.
  intros Heps Hpre Hne. unfold processEndpoints.
  by rewrite Heps, (endpointsLoop_first_mismatch env cd certs basePath pre
                      ep post 0 _ Hpre Hne).
Qed.

Lemma processEndpoints_first_mismatch_witness :
  processEndpoints sample.env ∅ "c"
    (sample.group "p" [sample.endpoint "a.example" "/v2";
                       sample.endpoint "b.example" "/v3";
                       sample.endpoint "c.example" "/v4"]) ∅ 20 "/v2"
  = Return (inl "endpoint basepath mismatched for http://b.example/v3. expected : /v2 but found : /v3").
Proof.
  apply (processEndpoints_first_mismatch sample.env ∅ "c"
           (sample.group "p" [sample.endpoint "a.example" "/v2";
                              sample.endpoint "b.example" "/v3";
                              sample.endpoint "c.example" "/v4"])
           ∅ 20 "/v2" [sample.endpoint "a.example" "/v2"]
           (sample.endpoint "b.example" "/v3")
           [sample.endpoint "c.example" "/v4"]).
  - reflexivity.
  - repeat constructor. intros H. discriminate H.
  - by vm_compute.
Defined.

(** X7: a successful [processEndpoints] changes the discovery registry
    at most at the name of the cluster: the name is bound to the
    service-discovery string of the first endpoint of the group when
    that string is not empty, and keeps its binding otherwise; every
    other name keeps its binding. *)
Theorem processEndpoints_registry (env : Env) (registry : ConsulKeyMap)
    (clusterName : string) (cd : EndpointCluster) (certs : CertStore)
    (timeout : Z) (basePath : string)
    (c : Cluster) (addrs : list Address) (reg : ConsulKeyMap) :
  processEndpoints env registry clusterName cd certs timeout basePath
  = Return (inr (c, addrs, reg)) ->
  exists ep0,
    head (Endpoints cd) = Some ep0
    /\ reg !! clusterName
       = (if String.eqb (ServiceDiscoveryString ep0) ""
          then registry !! clusterName
          else Some (ServiceDiscoveryString ep0))
    /\ forall name, name <> clusterName -> reg !! name = registry !! name.
Proof.
  intros H.
  apply processEndpoints_inr in H
    as (acc & ep0 & rest & _ & Heps & _ & _ & _ & _ & _ & _ & ->).
  exists ep0. rewrite Heps. split; [done|].
  destruct (String.eqb (ServiceDiscoveryString ep0) ""); cbn [negb].
  - done.
  - unfold ConsulKeyMap in *. split; [by rewrite lookup_insert_eq|].
    intros name Hname. by rewrite lookup_insert_ne.
Qed.

Lemma processEndpoints_registry_witness :
  let consul :=
    {| Host := "a.example"; Basepath := "/v2"; URLType := "http";
       Port := 80; ServiceDiscoveryString := "consul([dc1].web.[prod])";
       RawURL := "http://a.example/v2" |} in
  exists c addrs reg,
    processEndpoints sample.env {["other" := "x"]} "c"
      (sample.group "p" [consul; sample.endpoint "b.example" "/v2"]) ∅ 20
      "/v2"
    = Return (inr (c, addrs, reg))
    /\ reg !! "c" = Some "consul([dc1].web.[prod])"
    /\ reg !! "other" = Some "x".
Proof.
  intros consul. eexists _, _, _. split; [by vm_compute|].
  destruct (processEndpoints_registry sample.env {["other" := "x"]} "c"
              (sample.group "p" [consul; sample.endpoint "b.example" "/v2"])
              ∅ 20 "/v2" _ _ _ ltac:(by vm_compute))
    as (ep0 & Hhd & Hname & Hother).
  injection Hhd as <-. split; [exact Hname|].
  rewrite Hother; [reflexivity | discriminate].
Defined.

(** X8: a successfully compiled cluster carries no health check when
    its group has a single endpoint, and exactly one health check when
    the group has two endpoints or more: its timeout and interval are the
    configured numbers of seconds, and its thresholds are the configured
    ones converted to [uint32], that is, reduced modulo 2^32: a
    configured threshold between 0 and 2^32 - 1 is kept, any other one
    (a negative one) is not. *)
Theorem processEndpoints_health_checks (env : Env) (registry : ConsulKeyMap)
    (clusterName : string) (cd : EndpointCluster) (certs : CertStore)
    (timeout : Z) (basePath : string)
    (c : Cluster) (addrs : list Address) (reg : ConsulKeyMap) :
  processEndpoints env registry clusterName cd certs timeout basePath
  = Return (inr (c, addrs, reg)) ->
  (clHealthChecks c = [] <-> length (Endpoints cd) = 1%nat)
  /\ ((2 <= length (Endpoints cd))%nat ->
      clHealthChecks c
      = [ {| hcTimeout := wrap64 (HealthTimeout (conf env) * 1000000000);
             hcInterval := wrap64 (HealthInterval (conf env) * 1000000000);
             hcUnhealthyThreshold :=
               HealthUnhealthyThreshold (conf env) mod 2 ^ 32;
             hcHealthyThreshold :=
               HealthHealthyThreshold (conf env) mod 2 ^ 32 |} ])
  /\ Forall (fun hc =>
               0 <= hcUnhealthyThreshold hc < 2 ^ 32
               /\ 0 <= hcHealthyThreshold hc < 2 ^ 32
               /\ (hcUnhealthyThreshold hc = HealthUnhealthyThreshold (conf env)
                   <-> 0 <= HealthUnhealthyThreshold (conf env) < 2 ^ 32)
               /\ (hcHealthyThreshold hc = HealthHealthyThreshold (conf env)
                   <-> 0 <= HealthHealthyThreshold (conf env) < 2 ^ 32))
            (clHealthChecks c).
Proof.
  intros H.
  apply processEndpoints_inr in H
    as (acc & ep0 & rest & _ & Heps & _ & _ & _ & _ & -> & _).
  rewrite Heps. cbn [length].
  assert (forall z, 0 <= z mod 2 ^ 32 < 2 ^ 32
                    /\ (z mod 2 ^ 32 = z <-> 0 <= z < 2 ^ 32)) as Hmod.
  { intros z. pose proof (Z.mod_pos_bound z (2 ^ 32) ltac:(lia)) as Hb.
    split; [exact Hb|]. split; [lia|]. intros Hz. by apply Z.mod_small. }
  destruct rest as [|ep1 rest]; cbn [length Nat.ltb Nat.leb].
  - split; [done|]. split; [lia | constructor].
  - split; [split; [discriminate | lia]|]. split; [done|].
    unfold createHealthCheck, uint32. constructor; [|constructor].
    cbn [hcUnhealthyThreshold hcHealthyThreshold].
    destruct (Hmod (HealthUnhealthyThreshold (conf env))) as [? ?].
    destruct (Hmod (HealthHealthyThreshold (conf env))) as [? ?].
    done.
Qed.

Lemma processEndpoints_health_checks_witness :
  (exists c addrs reg,
      processEndpoints sample.env ∅ "c"
        (sample.group "p" [sample.endpoint "a.example" "/v2"]) ∅ 20 "/v2"
      = Return (inr (c, addrs, reg))
      /\ clHealthChecks c = [])
  /\ exists c addrs reg,
      processEndpoints (sample.healthEnv (-1) 3) ∅ "c"
        (sample.group "p" [sample.endpoint "a.example" "/v2";
                           sample.endpoint "b.example" "/v2"]) ∅ 20 "/v2"
      = Return (inr (c, addrs, reg))
      /\ clHealthChecks c
         = [ {| hcTimeout := 1000000000; hcInterval := 10000000000;
                hcUnhealthyThreshold := 4294967295;
                hcHealthyThreshold := 3 |} ].
Proof.
  split.
  - eexists _, _, _. split; [by vm_compute|].
    by apply (processEndpoints_health_checks sample.env ∅ "c"
                (sample.group "p" [sample.endpoint "a.example" "/v2"]) ∅ 20
                "/v2" _ _ _ ltac:(by vm_compute)).
  - eexists _, _, _. split; [by vm_compute|].
    destruct (processEndpoints_health_checks (sample.healthEnv (-1) 3) ∅ "c"
                (sample.group "p" [sample.endpoint "a.example" "/v2";
                                   sample.endpoint "b.example" "/v2"]) ∅ 20
                "/v2" _ _ _ ltac:(by vm_compute)) as (_ & Hhc & _).
    rewrite Hhc; [reflexivity | simpl; lia].
Defined.

(** X9: a successfully compiled cluster has circuit-breaker thresholds
    exactly when its group is configured with circuit breakers; each
    threshold that is set is the configured limit and is strictly
    positive, and a configured limit that is zero or negative is left
    unset. *)
Theorem processEndpoints_circuit_breakers (env : Env)
    (registry : ConsulKeyMap) (clusterName : string) (cd : EndpointCluster)
    (certs : CertStore) (timeout : Z) (basePath : string)
    (c : Cluster) (addrs : list Address) (reg : ConsulKeyMap) :
  processEndpoints env registry clusterName cd certs timeout basePath
  = Return (inr (c, addrs, reg)) ->
  (clCircuitBreakers c = None
   <-> (cfg ← Config cd; CircuitBreakersOf cfg) = None)
  /\ forall cb th,
       (cfg ← Config cd; CircuitBreakersOf cfg) = Some cb ->
       clCircuitBreakers c = Some th ->
       Forall (fun '(limit, threshold) =>
                 (0 < limit -> threshold = Some limit)
                 /\ (limit <= 0 -> threshold = None))
              [ (MaxConnections cb, thMaxConnections th);
                (MaxConnectionPools cb, thMaxConnectionPools th);
                (MaxPendingRequests cb, thMaxPendingRequests th);
                (MaxRequests cb, thMaxRequests th);
                (MaxRetries cb, thMaxRetries th) ].
Proof.
  intros H.
  apply processEndpoints_inr in H
    as (acc & ep0 & rest & _ & _ & _ & _ & _ & _ & _ & -> & _).
  assert (Hpos : forall z, (0 < z -> positive z = Some z)
                           /\ (z <= 0 -> positive z = None)).
  { intros z. unfold positive. destruct (Z.ltb_spec 0 z); split; by try lia. }
  destruct (Config cd) as [cfg|]; [|by split].
  cbn [mbind option_bind]. destruct (CircuitBreakersOf cfg) as [cb0|].
  - split; [done|]. intros cb th [= <-] [= <-].
    repeat constructor; cbn [thMaxConnections thMaxConnectionPools
      thMaxPendingRequests thMaxRequests thMaxRetries
      circuitBreakerThresholds]; apply Hpos.
  - by split.
Qed.

Lemma processEndpoints_circuit_breakers_witness :
  let cb := {| MaxConnections := 100; MaxRequests := 0;
               MaxPendingRequests := -1; MaxRetries := 3;
               MaxConnectionPools := 0 |} in
  exists c addrs reg,
    processEndpoints sample.env ∅ "c"
      {| EndpointPrefix := "p";
         Endpoints := [sample.endpoint "a.example" "/v2"];
         EndpointType := "loadbalance";
         Config := Some {| RetryConfigOf := None;
                           CircuitBreakersOf := Some cb |};
         HTTP2BackendEnabled := false |} ∅ 20 "/v2"
    = Return (inr (c, addrs, reg))
    /\ clCircuitBreakers c
       = Some {| thMaxConnections := Some 100;
                 thMaxConnectionPools := None;
                 thMaxPendingRequests := None;
                 thMaxRequests := None;
                 thMaxRetries := Some 3 |}
    /\ clCircuitBreakers c <> None.
Proof.
  intros cb. eexists _, _, _. split; [by vm_compute|].
  split; [reflexivity|].
  intros Hnone.
  by apply (processEndpoints_circuit_breakers sample.env ∅ "c"
              {| EndpointPrefix := "p";
                 Endpoints := [sample.endpoint "a.example" "/v2"];
                 EndpointType := "loadbalance";
                 Config := Some {| RetryConfigOf := None;
                                   CircuitBreakersOf := Some cb |};
                 HTTP2BackendEnabled := false |} ∅ 20 "/v2" _ _ _
              ltac:(by vm_compute)) in Hnone.
Defined.

(** X10: the upstream TLS context verifies the peer only against a trust
    anchor: it has no trusted CA exactly when SSL verification is
    disabled, and then it has no subject-alternative-name matcher
    either; the trusted CA is the certificate passed in when there is
    one and the configured file otherwise.  A matcher, when present, is
    on the address of the endpoint, of type DNS exactly when the address
    is not an IP address, which is also exactly when the address is sent
    as SNI. *)
Theorem createUpstreamTLSContext_verification (env : Env)
    (upstreamCerts : list Byte.byte) (address : Address)
    (hTTP2BackendEnabled : bool) :
  let ctx :=
    createUpstreamTLSContext env upstreamCerts address hTTP2BackendEnabled in
  (TrustedCa ctx = None <-> DisableSslVerification (conf env) = true)
  /\ (TrustedCa ctx = None -> MatchTypedSubjectAltNames ctx = [])
  /\ (forall ca, TrustedCa ctx = Some ca ->
        ca = match upstreamCerts with
             | [] => Filename (TrustedCertPath (conf env))
             | _ => InlineBytes upstreamCerts
             end)
  /\ (forall m, m ∈ MatchTypedSubjectAltNames ctx ->
        VerifyHostName (conf env) = true
        /\ m = (if ParseIP (ext env) (SocketAddress address)
                then SAN_IP_ADDRESS else SAN_DNS,
                SocketAddress address))
  /\ Sni ctx = (if ParseIP (ext env) (SocketAddress address)
                then "" else SocketAddress address).
Proof.
  cbv zeta. unfold createUpstreamTLSContext.
  cbn [TrustedCa MatchTypedSubjectAltNames Sni].
  destruct (DisableSslVerification (conf env)),
    (VerifyHostName (conf env)),
    (ParseIP (ext env) (SocketAddress address));
    cbn [negb andb]; (repeat split; try done);
    try (intros ca [= <-]; by destruct upstreamCerts);
    try (by intros m ?%elem_of_nil);
    try (by intros m ->%list_elem_of_singleton);
    try match goal with
        | H : _ ∈ [] |- _ => by apply elem_of_nil in H
        | H : _ ∈ [_] |- _ => by apply list_elem_of_singleton in H
        end.
Qed.

(** X11: [CreateLuaCluster] expects of every endpoint the base path of
    the first endpoint as it is written, while the endpoints are
    compared with their trailing slash removed: an interceptor whose
    first endpoint has a base path ending in a slash is always rejected
    with the mismatch error on that very endpoint. *)
Theorem CreateLuaCluster_trailing_slash (env : Env) (registry : ConsulKeyMap)
    (interceptorCerts : CertStore) (endpoint : InterceptEndpoint)
    (ep0 : Endpoint) (rest : list Endpoint) :
  Endpoints (InterceptCluster endpoint) = ep0 :: rest ->
  HasSuffix (Basepath ep0) "/" = true ->
  CreateLuaCluster env registry interceptorCerts endpoint
  = Return (inl ("endpoint basepath mismatched for " ++ RawURL ep0
                 ++ ". expected : " ++ Basepath ep0 ++ " but found : "
                 ++ Basepath ep0)).
Proof.
  intros Heps Hslash. unfold CreateLuaCluster. rewrite Heps.
  cbn [index0 mbind exec_bind]. unfold processEndpoints. rewrite Heps.
  rewrite (endpointsLoop_first_mismatch env (InterceptCluster endpoint)
             interceptorCerts (Basepath ep0) [] ep0 rest 0); [done.. |].
  apply HasSuffix_true_iff in Hslash as [p Hp]. rewrite Hp at 1.
  rewrite TrimSuffix_append. intros Heq.
  apply (f_equal String.length) in Heq. rewrite Hp, length_append in Heq.
  cbn in Heq. lia.
Qed.

Lemma CreateLuaCluster_trailing_slash_witness :
  let i :=
    {| Enable := true; Level := "api";
       InterceptCluster :=
         sample.group "" [sample.endpoint "interceptor.example" "/hook/"];
       ClusterName := "c"; ClusterTimeout := 20; RequestTimeout := 30;
       Includes := ∅ |} in
  CreateLuaCluster sample.env ∅ ∅ i
  = Return (inl "endpoint basepath mismatched for http://interceptor.example/hook/. expected : /hook/ but found : /hook/").
Proof.
  intros i.
  exact (CreateLuaCluster_trailing_slash sample.env ∅ ∅ i
           (sample.endpoint "interceptor.example" "/hook/") []
           eq_refl eq_refl).
Defined.

(** *** The tracing cluster *)

Section tracing.

Lemma digit_range (c : ascii) (d : Z) :
  strconv.digit c = Some d -> 0 <= d <= 9.
Proof.
  unfold strconv.digit. cbv zeta.
  destruct (Z.leb_spec 48 (Z.of_nat (nat_of_ascii c))),
    (Z.leb_spec (Z.of_nat (nat_of_ascii c)) 57);
    cbn [andb]; intros [= <-]; lia.
Qed.

Lemma parseUintLoop_range (s : string) : forall maxVal n m,
  0 <= n <= maxVal ->
  strconv.parseUintLoop s maxVal n = Some m -> 0 <= m <= maxVal.
Proof.
  induction s as [|c s IH]; intros maxVal n m Hn H.
  - by injection H as <-.
  - cbn [strconv.parseUintLoop] in H.
    destruct (strconv.digit c) as [d|] eqn:Hd; [|discriminate H].
    apply digit_range in Hd. cbv zeta in H.
    destruct (Z.ltb_spec maxVal (n * 10 + d)); [discriminate H|].
    apply IH in H; [done | lia].
Qed.

Lemma length_zero_iff (s : string) :
  (String.length s <=? 0)%nat = true <-> s = "".
Proof. destruct s; cbn; split; by try discriminate. Qed.

End tracing.

(** X12: [CreateTracingCluster] never panics, and it validates its
    properties in the order host, endpoint path, port: a missing or
    empty host gives the host error whatever the other properties are;
    with a host, a missing or empty endpoint path gives the path error;
    with both, a port that is not the decimal notation of an unsigned
    32-bit number gives the port error. *)
Theorem CreateTracingCluster_validates (env : Env) (tk : TracingConstants)
    (registry : ConsulKeyMap) (conf : TracingConfig) :
  let property key := default "" (tcConfigProperties conf !! key) in
  (exists r, CreateTracingCluster env tk registry conf = Return r)
  /\ (property (tracerHost tk) = "" ->
      CreateTracingCluster env tk registry conf
      = Return (inl "invalid host provided for tracing endpoint"))
  /\ (property (tracerHost tk) <> "" ->
      property (tracerEndpoint tk) = "" ->
      CreateTracingCluster env tk registry conf
      = Return (inl "invalid endpoint path provided for tracing endpoint"))
  /\ (property (tracerHost tk) <> "" ->
      property (tracerEndpoint tk) <> "" ->
      strconv.ParseUint (property (tracerPort tk)) 32 = None ->
      CreateTracingCluster env tk registry conf
      = Return (inl "invalid port provided for tracing endpoint")).
Proof.
  cbv zeta. unfold CreateTracingCluster, mapGet. cbv zeta.
  destruct (String.length (default "" (tcConfigProperties conf !! tracerHost tk))
            <=? 0)%nat eqn:Hhost.
  { apply length_zero_iff in Hhost. split; [by eexists|]. by repeat split. }
  destruct (String.length
              (default "" (tcConfigProperties conf !! tracerEndpoint tk))
            <=? 0)%nat eqn:Hpath.
  { apply length_zero_iff in Hpath. split; [by eexists|].
    split; [|by repeat split].
    intros H. apply length_zero_iff in H. congruence. }
  assert (Hh : default "" (tcConfigProperties conf !! tracerHost tk) <> "").
  { intros H. apply length_zero_iff in H. congruence. }
  assert (Hp : default "" (tcConfigProperties conf !! tracerEndpoint tk) <> "").
  { intros H. apply length_zero_iff in H. congruence. }
  destruct (strconv.ParseUint _ 32) as [port|] eqn:Hport.
  - split; [by apply processEndpoints_returns|].
    by repeat split.
  - split; [by eexists|]. by repeat split.
Qed.

Lemma CreateTracingCluster_validates_witness :
  let tk := {| tracerHost := "host"; tracerEndpoint := "endpoint";
               tracerPort := "port"; tracingClusterName := "tracing" |} in
  CreateTracingCluster sample.env tk ∅
    {| tcClusterTimeoutInSeconds := 20;
       tcConfigProperties := {["endpoint" := "/api/v2/spans"]} |}
  = Return (inl "invalid host provided for tracing endpoint")
  /\ CreateTracingCluster sample.env tk ∅
       {| tcClusterTimeoutInSeconds := 20;
          tcConfigProperties :=
            {["host" := "jaeger"; "endpoint" := "/api/v2/spans";
              "port" := "4294967296"]} |}
     = Return (inl "invalid port provided for tracing endpoint").
Proof.
  intros tk. split.
  - by apply (CreateTracingCluster_validates sample.env tk ∅
                {| tcClusterTimeoutInSeconds := 20;
                   tcConfigProperties := {["endpoint" := "/api/v2/spans"]} |}).
  - apply (CreateTracingCluster_validates sample.env tk ∅
             {| tcClusterTimeoutInSeconds := 20;
                tcConfigProperties :=
                  {["host" := "jaeger"; "endpoint" := "/api/v2/spans";
                    "port" := "4294967296"]} |});
      by vm_compute.
Defined.

(** X13: with a host, an endpoint path that does not end in a slash and
    a port in decimal notation, [CreateTracingCluster] returns the
    cluster of the configured tracing name with the single address made
    of that host and port, which is below 2^32; the cluster has no
    transport socket, no health check and no circuit breaker, and the
    discovery registry is left as it was. *)
Theorem CreateTracingCluster_cluster (env : Env) (tk : TracingConstants)
    (registry : ConsulKeyMap) (conf : TracingConfig)
    (host path : string) (port : Z) :
  let property key := default "" (tcConfigProperties conf !! key) in
  property (tracerHost tk) = host -> host <> "" ->
  property (tracerEndpoint tk) = path -> path <> "" ->
  HasSuffix path "/" = false ->
  strconv.ParseUint (property (tracerPort tk)) 32 = Some port ->
  0 <= port < 2 ^ 32
  /\ exists c,
       CreateTracingCluster env tk registry conf
       = Return (inr (c, [createAddress host port], registry))
       /\ clName c = tracingClusterName tk
       /\ clConnectTimeout c
          = wrap64 (tcClusterTimeoutInSeconds conf * 1000000000)
       /\ clLoadAssignment c
          = [ {| Priority := 0;
                 LbEndpointAddress := createAddress host port;
                 LbEndpointLbID := None |} ]
       /\ clTransportSocketMatches c = []
       /\ clHealthChecks c = []
       /\ clCircuitBreakers c = None.
Proof.
  cbv zeta. intros Hhost Hh Hpath Hp Hslash Hport.
  assert (Hrange : 0 <= port < 2 ^ 32).
  { unfold strconv.ParseUint in Hport.
    destruct (String.eqb _ ""); [discriminate Hport|].
    apply parseUintLoop_range in Hport; lia. }
  split; [exact Hrange|].
  unfold CreateTracingCluster, mapGet. cbv zeta.
  rewrite Hhost, Hpath, Hport.
  destruct (String.length host <=? 0)%nat eqn:E1;
    [by apply length_zero_iff in E1|].
  destruct (String.length path <=? 0)%nat eqn:E2;
    [by apply length_zero_iff in E2|].
  unfold processEndpoints, tracingEndpointCluster.
  cbn [Endpoints endpointsLoop Basepath]. cbv zeta.
  rewrite (TrimSuffix_no_suffix _ _ Hslash), String.eqb_refl.
  cbn [negb URLType]. 
  change (HasPrefix "http" httpsURLType || HasPrefix "http" wssURLType)
    with false. cbv iota.
  cbn [index0 mbind exec_bind ServiceDiscoveryString String.eqb negb].
  eexists. split; [reflexivity|]. by repeat split.
Qed.

Lemma CreateTracingCluster_cluster_witness :
  let tk := {| tracerHost := "host"; tracerEndpoint := "endpoint";
               tracerPort := "port"; tracingClusterName := "tracing" |} in
  exists c,
    CreateTracingCluster sample.env tk ∅
      {| tcClusterTimeoutInSeconds := 20;
         tcConfigProperties :=
           {["host" := "jaeger"; "endpoint" := "/api/v2/spans";
             "port" := "09411"]} |}
    = Return (inr (c, [createAddress "jaeger" 9411], ∅))
    /\ clName c = "tracing".
Proof.
  intros tk.
  destruct (CreateTracingCluster_cluster sample.env tk ∅
              {| tcClusterTimeoutInSeconds := 20;
                 tcConfigProperties :=
                   {["host" := "jaeger"; "endpoint" := "/api/v2/spans";
                     "port" := "09411"]} |}
              "jaeger" "/api/v2/spans" 9411)
    as (_ & c & Hrun & Hname & _);
    [by vm_compute | discriminate | by vm_compute | discriminate
    | by vm_compute | by vm_compute |].
  by exists c.
Defined.

(** X14: the endpoint path of the tracing server is compared with itself
    less a trailing slash: a path that ends in a slash is rejected as a
    base-path mismatch, although host, path and port are valid. *)
Theorem CreateTracingCluster_trailing_slash (env : Env)
    (tk : TracingConstants) (registry : ConsulKeyMap) (conf : TracingConfig)
    (path : string) (port : Z) :
  let property key := default "" (tcConfigProperties conf !! key) in
  property (tracerHost tk) <> "" ->
  property (tracerEndpoint tk) = path ->
  HasSuffix path "/" = true ->
  strconv.ParseUint (property (tracerPort tk)) 32 = Some port ->
  CreateTracingCluster env tk registry conf
  = Return (inl ("endpoint basepath mismatched for . expected : " ++ path
                 ++ " but found : " ++ path)).
Proof.
  cbv zeta. intros Hh Hpath Hslash Hport.
  unfold CreateTracingCluster, mapGet. cbv zeta.
  rewrite Hpath, Hport.
  destruct (String.length _ <=? 0)%nat eqn:E1;
    [by apply length_zero_iff in E1|].
  destruct (String.length path <=? 0)%nat eqn:E2.
  { apply length_zero_iff in E2. by rewrite E2 in Hslash. }
  assert (Hne : TrimSuffix path "/" <> path).
  { apply HasSuffix_true_iff in Hslash as [p Hp]. rewrite Hp at 1.
    rewrite TrimSuffix_append. intros Heq.
    apply (f_equal String.length) in Heq. rewrite Hp, length_append in Heq.
    cbn in Heq. lia. }
  unfold processEndpoints, tracingEndpointCluster. cbn [Endpoints].
  pose proof (endpointsLoop_first_mismatch env
                (tracingEndpointCluster
                   (default "" (tcConfigProperties conf !! tracerHost tk))
                   path port) ∅ path []
                {| Host :=
                     default "" (tcConfigProperties conf !! tracerHost tk);
                   Basepath := path; URLType := "http"; Port := port;
                   ServiceDiscoveryString := ""; RawURL := "" |} [] 0
                {| accAddresses := []; accLbEPs := [];
                   accTransportSocketMatches := []; accPriority := 0 |}
                (Forall_nil_2 _) Hne) as Hloop.
  cbn [app RawURL Basepath] in Hloop. unfold tracingEndpointCluster in Hloop.
  by rewrite Hloop.
Qed.

Lemma CreateTracingCluster_trailing_slash_witness :
  let tk := {| tracerHost := "host"; tracerEndpoint := "endpoint";
               tracerPort := "port"; tracingClusterName := "tracing" |} in
  CreateTracingCluster sample.env tk ∅
    {| tcClusterTimeoutInSeconds := 20;
       tcConfigProperties :=
         {["host" := "jaeger"; "endpoint" := "/api/v2/spans/";
           "port" := "9411"]} |}
  = Return (inl "endpoint basepath mismatched for . expected : /api/v2/spans/ but found : /api/v2/spans/").
Proof.
  intros tk.
  apply (CreateTracingCluster_trailing_slash sample.env tk ∅
           {| tcClusterTimeoutInSeconds := 20;
              tcConfigProperties :=
                {["host" := "jaeger"; "endpoint" := "/api/v2/spans/";
                  "port" := "9411"]} |} "/api/v2/spans/" 9411);
    [discriminate | by vm_compute | by vm_compute | by vm_compute].
Defined.

(** *** Route paths *)

Section route_paths.

Lemma append_last_inj (s t : string) (c d : ascii) :
  s ++ String c "" = t ++ String d "" -> s = t /\ c = d.
Proof.
  intros H. apply (f_equal rev) in H. rewrite !rev_append in H.
  cbn in H. injection H as -> H.
  apply (f_equal rev) in H. by rewrite !rev_involutive in H.
Qed.

(** A string that ends with [c] does not end with a suffix whose last
    byte is another one. *)
Lemma HasSuffix_last_ne (s q : string) (c d : ascii) :
  c <> d -> HasSuffix (s ++ String c "") (q ++ String d "") = false.
Proof.
  intros Hne. apply not_true_is_false.
  intros [p Hp]%HasSuffix_true_iff.
  rewrite <- append_assoc in Hp. by apply append_last_inj in Hp as [_ ?].
Qed.

Lemma HasPrefix_slash_cases (s : string) :
  HasPrefix s "/" = true -> exists t, s = String "/" t.
Proof. intros [t ->]%HasPrefix_true_iff. by exists t. Qed.

(** [TrimSuffix s "/"] is [s] less one trailing slash, if any. *)
Lemma TrimSuffix_slash_cases (s : string) :
  (HasSuffix s "/" = false /\ TrimSuffix s "/" = s)
  \/ (HasSuffix s "/" = true /\ TrimSuffix s "/" ++ "/" = s).
Proof.
  destruct (HasSuffix s "/") eqn:H.
  - right. split; [done|]. apply HasSuffix_true_iff in H as [p ->].
    by rewrite TrimSuffix_append.
  - left. split; [done|]. by apply TrimSuffix_no_suffix.
Qed.

Lemma splitScan_first (p q cur : string) :
  Contains p "?" = false ->
  exists rest,
    splitScan (p ++ String "?" q) "?" 0 cur = (cur ++ p) :: rest.
Proof.
  revert cur. induction p as [|c p IH]; intros cur Hp.
  - cbn. rewrite append_nil_r. by eexists.
  - cbn [Contains] in Hp. apply orb_false_elim in Hp as [Hc Hp].
    change (String c p ++ String "?" q) with (String c (p ++ String "?" q)).
    cbn [splitScan].
    assert (HasPrefix (String c (p ++ String "?" q)) "?" = false) as ->.
    { cbn [HasPrefix] in Hc |- *. destruct (Ascii.eqb c "?"); [|done].
      by destruct p. }
    destruct (IH (cur ++ String c "") Hp) as [rest ->].
    exists rest. by rewrite append_assoc.
Qed.

Lemma Contains_query (p q : string) : Contains (p ++ String "?" q) "?" = true.
Proof.
  induction p as [|c p IH]; [done|].
  change (String c p ++ String "?" q) with (String c (p ++ String "?" q)).
  cbn [Contains]. rewrite IH. apply orb_true_r.
Qed.

Lemma dropQuery_query (p q : string) :
  Contains p "?" = false -> dropQuery (p ++ String "?" q) = p.
Proof.
  intros Hp. unfold dropQuery. rewrite Contains_query. unfold Split.
  by destruct (splitScan_first p q "" Hp) as [rest ->].
Qed.

Lemma dropQuery_none (p : string) :
  Contains p "?" = false -> dropQuery p = p.
Proof. intros Hp. unfold dropQuery. by rewrite Hp. Qed.

(** Appending a byte that is no brace to the source appends it to the
    result of the parameter replacement, inside braces and outside. *)
Lemma replaceAllParams_snoc (src repl : string) (a : ascii) : forall open,
  a <> "{"%char -> a <> "}"%char ->
  regexp.replaceAllParams (src ++ String a "") repl open
  = regexp.replaceAllParams src repl open ++ String a "".
Proof.
  intros open Ha1 Ha2. revert open.
  induction src as [|c src IH]; intros open.
  - cbn [String.append regexp.replaceAllParams].
    destruct open as [buf|].
    + by destruct (Ascii.eqb_spec a "}").
    + by destruct (Ascii.eqb_spec a "{").
  - change (String c src ++ String a "")
      with (String c (src ++ String a "")).
    cbn [regexp.replaceAllParams]. destruct open as [buf|].
    + destruct (Ascii.eqb c "}"); [|apply IH].
      destruct buf; rewrite IH; by rewrite ?append_assoc.
    + destruct (Ascii.eqb c "{"); [apply IH|]. by rewrite IH.
Qed.

Lemma replaceAllParams_slash (src repl : string) (open : option string) :
  regexp.replaceAllParams (src ++ "/") repl open
  = regexp.replaceAllParams src repl open ++ "/".
Proof. by apply replaceAllParams_snoc. Qed.

Lemma replaceAllParams_wildcard (src repl : string) (open : option string) :
  regexp.replaceAllParams (src ++ "/*") repl open
  = regexp.replaceAllParams src repl open ++ "/*".
Proof.
  change "/*" with ("/" ++ "*").
  rewrite <- !append_assoc, replaceAllParams_snoc by done.
  by rewrite replaceAllParams_slash.
Qed.

Lemma Contains_byte (s : string) (c : ascii) :
  Contains s (String c "") = spec.occurs c s.
Proof.
  induction s as [|a s IH]; [done|].
  cbn [Contains HasPrefix spec.occurs]. rewrite IH.
  by destruct s; rewrite andb_true_r.
Qed.

Lemma length_rev (s : string) : String.length (rev s) = String.length s.
Proof.
  induction s as [|a s IH]; [done|].
  cbn [rev String.length]. rewrite length_append, IH. cbn. lia.
Qed.

Lemma HasPrefix_append_long (p : string) : forall u v,
  (String.length p <= String.length u)%nat ->
  HasPrefix (u ++ v) p = HasPrefix u p.
Proof.
  induction p as [|b p IH]; intros u v Hlen; [done|].
  destruct u as [|a u]; cbn [String.length] in Hlen; [lia|].
  change (String a u ++ v) with (String a (u ++ v)). cbn [HasPrefix].
  rewrite IH; [done | lia].
Qed.

(** A suffix no longer than [t] is looked for in [t] alone. *)
Lemma HasSuffix_append_long (b t suffix : string) :
  (String.length suffix <= String.length t)%nat ->
  HasSuffix (b ++ t) suffix = HasSuffix t suffix.
Proof.
  intros Hlen. rewrite !HasSuffix_rev, rev_append.
  apply HasPrefix_append_long. by rewrite !length_rev.
Qed.

Lemma TrimSuffix_append_long (b t suffix : string) :
  (String.length suffix <= String.length t)%nat ->
  TrimSuffix (b ++ t) suffix = b ++ TrimSuffix t suffix.
Proof.
  intros Hlen. destruct (HasSuffix t suffix) eqn:H.
  - apply HasSuffix_true_iff in H as [y ->].
    by rewrite <- append_assoc, !TrimSuffix_append.
  - rewrite (TrimSuffix_no_suffix t) by done.
    rewrite TrimSuffix_no_suffix; [done|].
    by rewrite HasSuffix_append_long.
Qed.

(** The regex segment of a path under a brace-free prefix is the prefix
    followed by the regex segment of the path. *)
Lemma generatePathRegexSegment_prefix (b p : string) :
  Contains b "{" = false ->
  HasPrefix p "/" = true ->
  generatePathRegexSegment (b ++ p) = b ++ generatePathRegexSegment p.
Proof.
  intros Hb [p1 ->]%HasPrefix_slash_cases.
  rewrite Contains_byte in Hb.
  unfold generatePathRegexSegment, regexp.ReplaceAllString. cbv zeta.
  rewrite (replaceAllParams_literal b _ _ Hb).
  cbn [regexp.replaceAllParams Ascii.eqb Bool.eqb].
  set (r := regexp.replaceAllParams p1 pathParaRegex None). clearbody r.
  destruct r as [|c r].
  - pose proof (HasSuffix_last_ne b "/" "/" "*" ltac:(done)) as E.
    cbn [String.append] in E. rewrite E.
    change (HasSuffix "/" "/*") with false. cbv iota.
    by rewrite TrimSuffix_append_long, append_assoc by (cbn; lia).
  - rewrite HasSuffix_append_long by (cbn; lia).
    destruct (HasSuffix (String "/" (String c r)) "/*");
      by rewrite TrimSuffix_append_long, append_assoc by (cbn; lia).
Qed.

(** The last byte of the replacement of a non-empty source is the last
    byte of the source, or the closing parenthesis of the parameter
    regex. *)
Lemma replaceAllParams_last (src : string) : forall open,
  src <> "" ->
  exists pre c,
    regexp.replaceAllParams src pathParaRegex open = pre ++ String c ""
    /\ ((exists q, src = q ++ String c "") \/ c = ")"%char).
Proof.
  induction src as [|c0 src IH]; intros open Hne; [done|].
  destruct src as [|c1 src].
  - cbn [regexp.replaceAllParams]. destruct open as [buf|].
    + destruct (Ascii.eqb_spec c0 "}") as [->|Hc].
      * destruct buf.
        -- exists "{", "}"%char. split; [done|]. left. by exists "".
        -- exists "([^/]+", ")"%char. split; [done|]. by right.
      * exists (String "{" buf), c0. split; [done|]. left. by exists "".
    + destruct (Ascii.eqb_spec c0 "{") as [->|Hc].
      * exists "", "{"%char. split; [done|]. left. by exists "".
      * exists "", c0. split; [done|]. left. by exists "".
  - remember (String c1 src) as s1 eqn:Hs1.
    assert (Hrec : forall open' prefix,
               exists pre c,
                 prefix ++ regexp.replaceAllParams s1 pathParaRegex open'
                 = pre ++ String c ""
                 /\ ((exists q, String c0 s1 = q ++ String c "")
                     \/ c = ")"%char)).
    { intros open' prefix.
      destruct (IH open' ltac:(by subst)) as (pre & c & -> & Hc).
      exists (prefix ++ pre), c. split; [by rewrite append_assoc|].
      destruct Hc as [[q ->] | ->]; [|by right].
      left. by exists (String c0 q). }
    cbn [regexp.replaceAllParams]. destruct open as [buf|].
    + destruct (Ascii.eqb c0 "}").
      * destruct buf; apply Hrec.
      * apply (Hrec _ "").
    + destruct (Ascii.eqb c0 "{").
      * apply (Hrec _ "").
      * apply (Hrec None (String c0 "")).
Qed.

(** A rooted path less one trailing slash. *)
Lemma TrimSuffix_rooted (t : string) :
  let rooted := String "/" t in
  let f := TrimSuffix rooted "/" in
  (f = rooted \/ f ++ "/" = rooted)
  /\ (f = "" <-> t = "")
  /\ (f <> "" -> HasPrefix f "/" = true).
Proof.
  cbv zeta.
  destruct (TrimSuffix_slash_cases (String "/" t)) as [[Hs Ht]|[Hs Ht]].
  - rewrite Ht. split; [by left|]. split; [|done].
    split; [done|]. intros ->. by vm_compute in Hs.
  - destruct (TrimSuffix (String "/" t) "/") as [|a f].
    + injection Ht as <-. split; [by right|]. by split.
    + injection Ht as -> <-. split; [by right|]. split; [|done].
      split; [done|]. by destruct f.
Qed.

End route_paths.

(** X15: the filtered base path is the selected base path (the
    [x-wso2-basePath] unless it is blank, else the endpoint base path)
    with a leading slash added when it has none and one trailing slash
    removed: it is empty exactly when the selected base path is empty or
    a single slash, and begins with a slash otherwise. *)
Theorem getFilteredBasePath_shape (xWso2Basepath basePath : string) :
  let selected :=
    if String.eqb (TrimSpace xWso2Basepath) "" then basePath
    else xWso2Basepath in
  let rooted :=
    if HasPrefix selected "/" then selected else "/" ++ selected in
  let filtered := getFilteredBasePath xWso2Basepath basePath in
  (filtered = rooted \/ filtered ++ "/" = rooted)
  /\ (filtered = "" <-> selected = "" \/ selected = "/")
  /\ (filtered <> "" -> HasPrefix filtered "/" = true).
Proof.
  cbv zeta. unfold getFilteredBasePath. cbv zeta.
  destruct (String.eqb (TrimSpace xWso2Basepath) ""); cbn [negb];
    [set (selected := basePath) | set (selected := xWso2Basepath)];
    clearbody selected.
  all: destruct (HasPrefix selected "/") eqn:Hp; cbn [negb].
  all: try (apply HasPrefix_slash_cases in Hp as [t ->];
            destruct (TrimSuffix_rooted t) as (H1 & H2 & H3);
            split; [exact H1|]; split; [|exact H3];
            rewrite H2; split; [intros ->; by right | by intros [?|[= ->]]]).
  all: destruct (TrimSuffix_rooted selected) as (H1 & H2 & H3);
       split; [exact H1|]; split; [|exact H3];
       rewrite H2; split; [intros ->; by left | intros [-> | ->]; done].
Qed.

(** X16: a query part in the resource path plays no role in the route
    regex: for a path [p] without a question mark, the route paths of
    [p?q] and of [p] are the same. *)
Theorem generateRoutePath_ignores_query (basePath p q : string) :
  Contains p "?" = false ->
  generateRoutePath basePath (p ++ "?" ++ q) = generateRoutePath basePath p.
Proof.
  intros Hp. unfold generateRoutePath.
  change ("?" ++ q) with (String "?" q).
  by rewrite dropQuery_query, dropQuery_none.
Qed.

Lemma generateRoutePath_ignores_query_witness :
  generateRoutePath "/api" ("/pets/{id}" ++ "?" ++ "verbose={v}")
  = generateRoutePath "/api" "/pets/{id}".
Proof.
  exact (generateRoutePath_ignores_query "/api" "/pets/{id}" "verbose={v}"
           eq_refl).
Defined.

(** X17: a trailing slash on a path does not change its regex: for a
    path that ends neither in a slash nor in a star, the path and the
    path followed by a slash have the same regex segment and the same
    anchored regex, in which the final slash is optional. *)
Theorem generatePathRegexSegment_trailing_slash (path : string) :
  HasSuffix path "/" = false ->
  HasSuffix path "*" = false ->
  generatePathRegexSegment (path ++ "/") = generatePathRegexSegment path
  /\ generateRegex (path ++ "/") = generateRegex path
  /\ HasSuffix (generatePathRegexSegment path) "(/{0,1})" = true.
Proof.
  intros Hslash Hstar.
  assert (Hseg : generatePathRegexSegment (path ++ "/")
                 = regexp.ReplaceAllString path pathParaRegex
                   ++ trailingSlashRegex).
  { unfold generatePathRegexSegment, regexp.ReplaceAllString. cbv zeta.
    rewrite replaceAllParams_slash.
    rewrite (HasSuffix_last_ne _ "/" "/" "*") by done.
    by rewrite TrimSuffix_append. }
  assert (Hpath : generatePathRegexSegment path
                  = regexp.ReplaceAllString path pathParaRegex
                    ++ trailingSlashRegex).
  { unfold generatePathRegexSegment, regexp.ReplaceAllString. cbv zeta.
    destruct path as [|a path]; [done|].
    destruct (replaceAllParams_last (String a path) None ltac:(done))
      as (pre & c & -> & Hc).
    assert (c <> "/"%char /\ c <> "*"%char) as [Hc1 Hc2].
    { destruct Hc as [[q Hq] | ->]; [|done]. rewrite Hq in Hslash, Hstar.
      split; intros ->.
      - by rewrite (HasSuffix_append q "/") in Hslash.
      - by rewrite (HasSuffix_append q "*") in Hstar. }
    pose proof (HasSuffix_last_ne pre "/" c "*" Hc2) as E1.
    pose proof (HasSuffix_last_ne pre "" c "/" Hc1) as E2.
    cbn [String.append] in E1, E2. rewrite E1.
    by rewrite TrimSuffix_no_suffix. }
  split; [by rewrite Hseg, Hpath|].
  split; [unfold generateRegex; by rewrite Hseg, Hpath|].
  rewrite Hpath. apply HasSuffix_append.
Qed.

Lemma generatePathRegexSegment_trailing_slash_witness :
  generatePathRegexSegment ("/pets/{id}" ++ "/")
  = generatePathRegexSegment "/pets/{id}"
  /\ generateRegex "/pets/{id}" = "^/pets/([^/]+)(/{0,1})(\?([^/]+))?$".
Proof.
  destruct (generatePathRegexSegment_trailing_slash "/pets/{id}"
              eq_refl eq_refl) as (Hseg & _ & _).
  split; [exact Hseg | reflexivity].
Defined.

(** *** Routes *)

Section routes.

(** A caret is no white space and is part of no encoded white space:
    trimming keeps it. *)
Lemma trimLeftSpace_caret (s : string) :
  trimLeftSpace (String "^" s) = String "^" s.
Proof. destruct s as [|b [|c s]]; reflexivity. Qed.

Lemma trimLeftSpaceRev_caret (n : nat) : forall t,
  (String.length t <= n)%nat ->
  exists t', trimLeftSpaceRev (t ++ "^") = t' ++ "^".
Proof.
  induction n as [n IH] using lt_wf_ind. intros t Hn.
  destruct t as [|a t]; [by exists ""|].
  change (String a t ++ "^") with (String a (t ++ "^")).
  cbn [trimLeftSpaceRev String.length] in *.
  destruct (asciiSpace a); [apply (IH (String.length t)); lia|].
  destruct t as [|b t]; [by exists (String a "")|].
  change (String b t ++ "^") with (String b (t ++ "^")).
  cbn iota. cbn [String.length] in Hn.
  destruct (space2 b a); [apply (IH (String.length t)); lia|].
  destruct t as [|c t]; [by exists (String a (String b ""))|].
  change (String c t ++ "^") with (String c (t ++ "^")).
  cbn iota. cbn [String.length] in Hn.
  destruct (space3 c b a); [apply (IH (String.length t)); lia|].
  by exists (String a (String b (String c t))).
Qed.

Lemma TrimSpace_caret (s : string) : TrimSpace (String "^" s) <> "".
Proof.
  unfold TrimSpace. rewrite trimLeftSpace_caret. cbn [rev].
  destruct (trimLeftSpaceRev_caret (String.length (rev s)) (rev s)
              ltac:(done)) as [t' ->].
  rewrite rev_append. discriminate.
Qed.

End routes.

(** X18: every route has a decorator: the route regex begins with a
    caret and ends with the optional query group and a dollar, so it is
    never blank, and the operation of the decorator is the virtual host,
    a colon and that regex. *)
Theorem createRoute_decorator (env : Env) (params : routeCreateParams) :
  let regex := rmSafeRegex (rtMatch (createRoute env params)) in
  rtDecorator (createRoute env params) = Some (vHost params ++ ":" ++ regex)
  /\ exists body, regex = "^" ++ body ++ "(\?([^/]+))?$".
Proof.
  cbv zeta. unfold createRoute. cbv zeta.
  cbn [rtDecorator rtMatch rmSafeRegex].
  unfold generateRoutePath, generateRegex. cbv zeta.
  split; [|by eexists].
  match goal with
  | |- context [TrimSpace ("^" ++ ?s)] =>
      change ("^" ++ s) with (String "^" s);
      destruct (String.eqb_spec (TrimSpace (String "^" s)) "") as [H|H];
      [by apply TrimSpace_caret in H | done]
  end.
Qed.

Section route_contents.

(** The eight context-extension entries, whatever their order of
    insertion, when the keys are pairwise different. *)
Lemma lookup_insert8 (k1 k2 k3 k4 k5 k6 k7 k8 : string)
    (v1 v2 v3 v4 v5 v6 v7 v8 : string) :
  NoDup [k1; k2; k3; k4; k5; k6; k7; k8] ->
  let m : gmap string string :=
    <[k8 := v8]> (<[k7 := v7]> (<[k6 := v6]> (<[k5 := v5]>
    (<[k4 := v4]> (<[k3 := v3]> (<[k2 := v2]> (<[k1 := v1]> ∅))))))) in
  m !! k1 = Some v1 /\ m !! k2 = Some v2 /\ m !! k3 = Some v3
  /\ m !! k4 = Some v4 /\ m !! k5 = Some v5 /\ m !! k6 = Some v6
  /\ m !! k7 = Some v7 /\ m !! k8 = Some v8
  /\ size m = 8%nat.
Proof.
  intros Hnd. cbv zeta.
  repeat match goal with
         | H : NoDup (_ :: _) |- _ =>
             apply NoDup_cons in H as [? H]
         end.
  repeat match goal with
         | H : _ ∉ _ :: _ |- _ => apply not_elem_of_cons in H as [? H]
         end.
  repeat split;
    try (repeat (rewrite lookup_insert_ne by congruence);
         by rewrite lookup_insert_eq).
  repeat (rewrite map_size_insert_None;
          [|repeat (rewrite lookup_insert_ne by congruence);
            apply lookup_empty]).
  by rewrite map_size_empty.
Qed.

Lemma QuoteMeta_inj (a : string) : forall b,
  QuoteMeta a = QuoteMeta b -> a = b.
Proof.
  induction a as [|c a IH]; intros [|d b] H.
  - done.
  - cbn [QuoteMeta] in H. by destruct (quoteMetaChar d).
  - cbn [QuoteMeta] in H. by destruct (quoteMetaChar c).
  - cbn [QuoteMeta] in H.
    destruct (quoteMetaChar c) eqn:Hc, (quoteMetaChar d) eqn:Hd.
    + injection H as -> H. by rewrite (IH _ H).
    + injection H as <- H. discriminate Hd.
    + injection H as -> H. discriminate Hc.
    + injection H as -> H. by rewrite (IH _ H).
Qed.

Lemma fmap_QuoteMeta_inj (l1 : list string) : forall l2,
  QuoteMeta <$> l1 = QuoteMeta <$> l2 -> l1 = l2.
Proof.
  induction l1 as [|a l1 IH]; intros [|b l2] H; try done.
  injection H as Hab H. by rewrite (QuoteMeta_inj _ _ Hab), (IH _ H).
Qed.

End route_contents.

(** X19: when the eight context-extension keys are pairwise different,
    the authorization filter of a route receives exactly eight context
    extensions: the resource path, the virtual host, the base path (the
    [x-wso2-basePath] when it is not empty, the endpoint base path
    otherwise), the methods joined by spaces, the version, the title and
    the two cluster names; a route with interceptors hands the same
    values to its Lua script. *)
Theorem createRoute_context_extensions (env : Env)
    (params : routeCreateParams) :
  let k := consts env in
  let extensions :=
    ContextExtensions (rtExtAuthz (createRoute env params)) in
  let basePath :=
    if String.eqb (xWSO2BasePath params) "" then endpointBasePath params
    else xWSO2BasePath params in
  NoDup [ pathContextExtension k; vHostContextExtension k;
          basePathContextExtension k; methodContextExtension k;
          apiVersionContextExtension k; apiNameContextExtension k;
          prodClusterNameContextExtension k;
          sandClusterNameContextExtension k ] ->
  (extensions !! pathContextExtension k = Some (resourcePathParam params)
   /\ extensions !! vHostContextExtension k = Some (vHost params)
   /\ extensions !! basePathContextExtension k = Some basePath
   /\ extensions !! methodContextExtension k
      = Some (Join (resourceMethods params) " ")
   /\ extensions !! apiVersionContextExtension k = Some (version params)
   /\ extensions !! apiNameContextExtension k = Some (title params)
   /\ extensions !! prodClusterNameContextExtension k
      = Some (prodClusterName params)
   /\ extensions !! sandClusterNameContextExtension k
      = Some (sandClusterName params)
   /\ size extensions = 8%nat)
  /\ (requestInterceptor params <> ∅ \/ responseInterceptor params <> ∅ ->
      rtLua (createRoute env params)
      = LuaInlineString
          (getInlineLuaScript env (requestInterceptor params)
             (responseInterceptor params)
             {| icOrganizationID := organizationID params;
                icBasePath := basePath;
                icSupportedMethods := Join (resourceMethods params) " ";
                icAPIName := title params;
                icAPIVersion := version params;
                icPathTemplate := resourcePathParam params;
                icVhost := vHost params;
                icProdClusterName := prodClusterName params;
                icSandClusterName := sandClusterName params |})).
Proof.
  cbv zeta. intros Hnd.
  assert (Hbp : (if negb (String.eqb (xWSO2BasePath params) "")
                 then xWSO2BasePath params else endpointBasePath params)
                = (if String.eqb (xWSO2BasePath params) ""
                   then endpointBasePath params else xWSO2BasePath params)).
  { by destruct (String.eqb (xWSO2BasePath params) ""). }
  unfold createRoute. cbv zeta.
  cbn [rtExtAuthz ContextExtensions rtLua]. rewrite Hbp.
  pose proof (lookup_insert8 _ _ _ _ _ _ _ _
                (resourcePathParam params) (vHost params)
                (if String.eqb (xWSO2BasePath params) ""
                 then endpointBasePath params else xWSO2BasePath params)
                (Join (resourceMethods params) " ") (version params)
                (title params) (prodClusterName params)
                (sandClusterName params) Hnd) as Hm.
  cbv zeta in Hm.
  destruct Hm as (H1 & H2 & H3 & H4 & H5 & H6 & H7 & H8 & Hsize).
  split; [done|].
  intros Hint.
  assert ((size (requestInterceptor params) <? 1)%nat
          && (size (responseInterceptor params) <? 1)%nat = false) as ->.
  { apply andb_false_iff.
    destruct Hint as [Hint|Hint]; [left|right];
      apply Nat.ltb_ge; apply map_size_non_empty_iff in Hint; lia. }
  unfold mapGet. by rewrite H1, H2, H3, H4, H5, H6, H7, H8.
Qed.

Lemma createRoute_context_extensions_witness :
  ContextExtensions
    (rtExtAuthz (createRoute sample.env
                   (sample.params "" "v1" ["GET"; "POST"] false false false)))
    !! "basePath" = Some "/v3"
  /\ ContextExtensions
       (rtExtAuthz (createRoute sample.env
                      (sample.params "/api" "v1" ["GET"; "POST"] false false
                         false)))
       !! "method" = Some "GET POST".
Proof.
  split.
  - apply (createRoute_context_extensions sample.env
             (sample.params "" "v1" ["GET"; "POST"] false false false)).
    by apply (bool_decide_unpack _).
  - apply (createRoute_context_extensions sample.env
             (sample.params "/api" "v1" ["GET"; "POST"] false false false)).
    by apply (bool_decide_unpack _).
Defined.

(** X20: [getCorsPolicy] gives no policy exactly when there is no CORS
    configuration or it is not enabled; an enabled configuration gives
    one origin matcher per allowed origin, and two enabled
    configurations with the same origin matchers allow the same
    origins: quoting the regex metacharacters loses nothing. *)
Theorem getCorsPolicy_origins (corsConfig : option CorsConfig) :
  (getCorsPolicy corsConfig = None
   <-> corsConfig = None
       \/ exists c, corsConfig = Some c /\ CorsEnabled c = false)
  /\ forall c p,
       corsConfig = Some c ->
       getCorsPolicy corsConfig = Some p ->
       length (AllowOriginStringMatch p)
       = length (AccessControlAllowOrigins c)
       /\ AllowCredentials p = AccessControlAllowCredentials c
       /\ forall c' p',
            getCorsPolicy (Some c') = Some p' ->
            AllowOriginStringMatch p = AllowOriginStringMatch p' ->
            AccessControlAllowOrigins c = AccessControlAllowOrigins c'.
Proof.
  split.
  - destruct corsConfig as [c|]; cbn [getCorsPolicy].
    + destruct (CorsEnabled c) eqn:Hc; cbn [negb].
      * split; [done|]. intros [?|(c' & [= <-] & ?)]; congruence.
      * split; [|done]. intros _. right. by exists c.
    + split; [by left | done].
  - intros c p -> H. cbn [getCorsPolicy] in H.
    destruct (CorsEnabled c); cbn [negb] in H; [|discriminate H].
    injection H as <-. cbn [AllowOriginStringMatch AllowCredentials].
    split; [by rewrite length_map|]. split; [done|].
    intros c' p' H' Heq. cbn [getCorsPolicy] in H'.
    destruct (CorsEnabled c'); cbn [negb] in H'; [|discriminate H'].
    injection H' as <-. cbn [AllowOriginStringMatch] in Heq.
    by apply fmap_QuoteMeta_inj.
Qed.

(** X21: the route regex and the rewrite pattern of a route agree.  For
    a route with an [x-wso2-basePath] and no rewrite path, whose base
    path has no opening brace and whose resource path begins with a
    slash, the route regex is the rewrite pattern followed by the
    optional query group and a dollar, with the wildcard group in
    between when the resource path ends in [/*]; the substitution is the
    one [generateSubstitutionString] gives for the resource path less
    its query. *)
Theorem createRoute_rewrite_pattern (env : Env) (params : routeCreateParams) :
  let basePath := routeBasePath params in
  let path := dropQuery (resourcePathParam params) in
  xWSO2BasePath params <> "" ->
  rewritePath params = "" ->
  Contains basePath "{" = false ->
  HasPrefix path "/" = true ->
  exists rewrite,
    RegexRewrite (rtAction (createRoute env params)) = Some rewrite
    /\ rmSafeRegex (rtMatch (createRoute env params))
       = rwPattern rewrite
         ++ (if HasSuffix path "/*" then "((/(.*))*)" else "")
         ++ "(\?([^/]+))?$"
    /\ rwSubstitution rewrite
       = generateSubstitutionString path (endpointBasePath params).
Proof.
  cbv zeta. intros Hbase Hrw Hb Hp.
  apply String.eqb_neq in Hbase.
  unfold createRoute. cbv zeta.
  cbn [rtAction RegexRewrite rtMatch rmSafeRegex].
  rewrite Hbase. cbn [negb]. eexists. split; [reflexivity|].
  unfold routeRewrite. rewrite Hrw. cbn [String.eqb negb]. cbv zeta.
  cbn [rwPattern rwSubstitution]. split; [|done].
  unfold generateRoutePath, generateRegex. cbv zeta.
  rewrite generatePathRegexSegment_prefix by done.
  set (path := dropQuery (resourcePathParam params)) in *.
  destruct (HasSuffix path "/*") eqn:Hw.
  - apply HasSuffix_true_iff in Hw as [q Hq].
    unfold generatePathRegexSegment at 1 2, regexp.ReplaceAllString.
    cbv zeta. rewrite Hq, replaceAllParams_wildcard, HasSuffix_append.
    rewrite !TrimSuffix_append. by rewrite !append_assoc.
  - by rewrite !append_assoc.
Qed.

Lemma createRoute_rewrite_pattern_witness :
  exists rewrite,
    RegexRewrite
      (rtAction (createRoute sample.env
                   (sample.params "/api" "v1" ["GET"] false false false)))
    = Some rewrite
    /\ rwPattern rewrite = "^/api/users/([^/]+)(/{0,1})"
    /\ rmSafeRegex
         (rtMatch (createRoute sample.env
                     (sample.params "/api" "v1" ["GET"] false false false)))
       = rwPattern rewrite ++ "" ++ "(\?([^/]+))?$".
Proof.
  destruct (createRoute_rewrite_pattern sample.env
              (sample.params "/api" "v1" ["GET"] false false false))
    as (rewrite & Hrw & Hregex & _);
    [discriminate | reflexivity | reflexivity | reflexivity |].
  exists rewrite. split; [exact Hrw|].
  split; [by injection Hrw as <- | exact Hregex].
Defined.

(** *** The outputs of the translation *)

Section outputs.

Context (env : Env) (mgwSwagger : MgwSwagger)
        (upstreamCerts interceptorCerts : CertStore)
        (vHost organizationID : string) (registry0 : ConsulKeyMap).

(** A cluster name minted for this API. *)
Local Abbreviation minted name :=
  (exists prefix resourceID,
      name = getClusterName prefix organizationID vHost
               (swaggerTitle mgwSwagger) (swaggerVersion mgwSwagger)
               resourceID).

(** The outputs under construction are sound: the address list is the
    concatenation of the addresses of the clusters, every cluster has an
    endpoint and a name minted for this API, and the discovery registry
    differs from the initial one only at names of clusters, none of its
    names being lost. *)
Local Abbreviation sound out :=
  (outEndpoints out
   = concat ((fun c => LbEndpointAddress <$> clLoadAssignment c)
               <$> outClusters out)
   /\ Forall (fun c => clLoadAssignment c <> [] /\ minted (clName c))
             (outClusters out)
   /\ (forall name,
          outRegistry out !! name <> registry0 !! name ->
          name ∈ clName <$> outClusters out)
   /\ (forall name,
          is_Some (registry0 !! name) -> is_Some (outRegistry out !! name))).

Lemma processEndpoints_sound out name cd certs timeout basePath built :
  minted name ->
  processEndpoints env (outRegistry out) name cd certs timeout basePath
  = Return (inr built) ->
  sound out -> sound (appendCluster out built).
Proof.
  destruct built as [[c addrs] reg].
  intros Hminted H (Hends & Hne & Hchg & Hkeep).
  apply processEndpoints_inr in H
    as (acc & ep0 & rest & Hloop & Heps & -> & Hname & Hlb & _ & _ & _ & ->).
  apply endpointsLoop_addresses in Hloop as [Ha Hl].
  cbn [accAddresses accLbEPs fmap list_fmap app] in Ha, Hl.
  unfold appendCluster. cbn [outClusters outEndpoints outRegistry].
  split; [|split; [|split]].
  - rewrite fmap_app, concat_app, Hends. cbn [fmap list_fmap concat].
    by rewrite app_nil_r, Hlb, Hl, Ha.
  - apply Forall_app. split; [done|]. constructor; [|done].
    split; [|by rewrite Hname].
    intros Hnil. rewrite Hlb in Hnil. rewrite Hnil in Hl.
    by rewrite Heps in Hl.
  - intros k Hk. rewrite fmap_app. apply elem_of_app.
    destruct (decide (k = name)) as [->|Hkn].
    + right. rewrite <- Hname. by left.
    + left. apply Hchg. unfold ConsulKeyMap in *.
      destruct (negb _); [by rewrite lookup_insert_ne in Hk|done].
  - intros k Hk. apply Hkeep in Hk. unfold ConsulKeyMap in *.
    destruct (negb _); [|done].
    destruct (decide (k = name)) as [->|Hkn].
    + by rewrite lookup_insert_eq.
    + by rewrite lookup_insert_ne.
Qed.

Lemma CreateLuaCluster_sound out endpoint built :
  minted (ClusterName endpoint) ->
  CreateLuaCluster env (outRegistry out) interceptorCerts endpoint
  = Return (inr built) ->
  sound out -> sound (appendCluster out built).
Proof.
  unfold CreateLuaCluster. intros Hminted.
  destruct (index0 _) as [ep0|msg]; [|done]. cbn [mbind exec_bind].
  by apply processEndpoints_sound.
Qed.

(** Case analysis along the control flow of a step that returned. *)
Local Ltac crack H :=
  repeat (cbn [mbind exec_bind] in H; cbv beta zeta in H;
          match type of H with
          | Return _ = Return _ => fail 1
          | Panic _ = Return _ => discriminate H
          | mbind _ ?m = _ => destruct m eqn:?
          | context [match ?x with _ => _ end] => destruct x eqn:?
          end).

Local Ltac close_sound H :=
  crack H; injection H as <-; subst;
  first [ assumption
        | eapply processEndpoints_sound; [| eassumption | assumption];
          by eexists _, _
        | eapply CreateLuaCluster_sound; [| eassumption | assumption];
          eexists _, _; cbn [ClusterName setClusterName]; reflexivity ].

Lemma apiLevelProd_sound out bp cn out' :
  apiLevelProd env mgwSwagger upstreamCerts vHost organizationID out
  = Return (bp, cn, out') ->
  sound out -> sound out'.
Proof. unfold apiLevelProd. intros H Hs. close_sound H. Qed.

Lemma apiLevelSand_sound bpProd cnProd out r out' :
  apiLevelSand env mgwSwagger upstreamCerts vHost organizationID bpProd
    cnProd out
  = Return (r, out') ->
  sound out -> sound out'.
Proof. unfold apiLevelSand. intros H Hs. close_sound H. Qed.

Lemma xWso2EndpointsStep_sound cnProd bp strict out g bp' strict' out' :
  xWso2EndpointsStep env mgwSwagger upstreamCerts vHost organizationID
    cnProd (bp, strict, out) g
  = Return (bp', strict', out') ->
  sound out -> sound out'.
Proof. unfold xWso2EndpointsStep. intros H Hs. close_sound H. Qed.

Lemma forEach_invariant {S A : Type} (body : S -> A -> exec S)
    (P : S -> Prop) (items : list A) : forall st st',
  (forall st x st', body st x = Return st' -> P st -> P st') ->
  forEach body st items = Return st' -> P st -> P st'.
Proof.
  induction items as [|x items IH]; intros st st' Hbody H Hst.
  - by injection H as <-.
  - cbn [forEach] in H. destruct (body st x) as [st1|msg] eqn:Hx; [|done].
    cbn [mbind exec_bind] in H. eapply IH; [done | done |].
    by eapply Hbody.
Qed.

Lemma xWso2EndpointsLoop_sound cnProd bp strict out bp' strict' out' :
  xWso2EndpointsLoop env mgwSwagger upstreamCerts vHost organizationID
    cnProd (bp, strict, out)
  = Return (bp', strict', out') ->
  sound out -> sound out'.
Proof.
  unfold xWso2EndpointsLoop. intros H Hs.
  eapply (forEach_invariant _ (fun st => sound (snd st))) in H;
    [exact H | | exact Hs].
  intros [[? ?] ?] g [[? ?] ?]. apply xWso2EndpointsStep_sound.
Qed.

Lemma apiLevelInterceptor_sound extensionName prefix out i out' :
  apiLevelInterceptor env mgwSwagger interceptorCerts vHost organizationID
    extensionName prefix out
  = Return (i, out') ->
  sound out -> sound out'.
Proof. unfold apiLevelInterceptor. intros H Hs. close_sound H. Qed.

Lemma resourceLevelInterceptor_sound resource extensionName prefix current
    out i out' :
  resourceLevelInterceptor env mgwSwagger interceptorCerts vHost
    organizationID resource extensionName prefix current out
  = Return (i, out') ->
  sound out -> sound out'.
Proof. unfold resourceLevelInterceptor. intros H Hs. close_sound H. Qed.

Lemma operationInterceptorStep_sound prefix resourceInterceptor
    interceptors out entry interceptors' out' :
  operationInterceptorStep env mgwSwagger interceptorCerts vHost
    organizationID prefix resourceInterceptor (interceptors, out) entry
  = Return (interceptors', out') ->
  sound out -> sound out'.
Proof.
  unfold operationInterceptorStep. destruct entry as [method opI].
  intros H Hs. close_sound H.
Qed.

Lemma operationInterceptors_sound resource isRequestFlow prefix
    apiInterceptor resourceInterceptor out interceptors out' :
  operationInterceptors env mgwSwagger interceptorCerts vHost
    organizationID resource isRequestFlow prefix apiInterceptor
    resourceInterceptor out
  = Return (interceptors, out') ->
  sound out -> sound out'.
Proof.
  unfold operationInterceptors. intros H Hs.
  eapply (forEach_invariant _ (fun st => sound (snd st))) in H;
    [exact H | | exact Hs].
  intros [? ?] entry [? ?]. apply operationInterceptorStep_sound.
Qed.

Lemma resourceProd_sound api resource resourceBasePath out r out' :
  resourceProd env mgwSwagger upstreamCerts vHost organizationID api
    resource resourceBasePath out
  = Return (r, out') ->
  sound out -> sound out'.
Proof. unfold resourceProd. intros H Hs. close_sound H. Qed.

Lemma resourceSand_sound api bpSand resource resourceBasePathSand out r out' :
  resourceSand env mgwSwagger upstreamCerts vHost organizationID api bpSand
    resource resourceBasePathSand out
  = Return (r, out') ->
  sound out -> sound out'.
Proof. unfold resourceSand. intros H Hs. close_sound H. Qed.

Lemma planResource_sound api bpSand out resource plan bpSand' out' :
  planResource env mgwSwagger upstreamCerts interceptorCerts vHost
    organizationID api bpSand out resource
  = Return (plan, bpSand', out') ->
  sound out -> sound out'.
Proof.
  unfold planResource. cbv zeta. intros H Hs.
  destruct (resourceProd _ _ _ _ _ _ _ _ _) as [[r1 out1]|] eqn:E1; [|done].
  apply resourceProd_sound in E1; [|done]. cbn [mbind exec_bind] in H.
  destruct r1 as [? ?].
  destruct (resourceSand _ _ _ _ _ _ _ _ _ _) as [[r2 out2]|] eqn:E2; [|done].
  apply resourceSand_sound in E2; [|done]. cbn [mbind exec_bind] in H.
  destruct r2 as [[? ?] ?].
  destruct (resourceLevelInterceptor _ _ _ _ _ _ _ _ _ out2)
    as [[i3 out3]|] eqn:E3; [|done].
  apply resourceLevelInterceptor_sound in E3; [|done].
  cbn [mbind exec_bind] in H.
  destruct (operationInterceptors _ _ _ _ _ _ _ _ _ _ out3)
    as [[m4 out4]|] eqn:E4; [|done].
  apply operationInterceptors_sound in E4; [|done].
  cbn [mbind exec_bind] in H.
  destruct (resourceLevelInterceptor _ _ _ _ _ _ _ _ _ out4)
    as [[i5 out5]|] eqn:E5; [|done].
  apply resourceLevelInterceptor_sound in E5; [|done].
  cbn [mbind exec_bind] in H.
  destruct (operationInterceptors _ _ _ _ _ _ _ _ _ _ out5)
    as [[m6 out6]|] eqn:E6; [|done].
  apply operationInterceptors_sound in E6; [|done].
  cbn [mbind exec_bind] in H. by injection H as _ _ <-.
Qed.

Lemma resourceStep_sound api st resource st' :
  resourceStep env mgwSwagger upstreamCerts interceptorCerts vHost
    organizationID api st resource
  = Return st' ->
  sound (lsOut st) -> sound (lsOut st').
Proof.
  unfold resourceStep. intros H Hs.
  destruct (planResource _ _ _ _ _ _ _ _ _ _) as [[[plan bp] out]|] eqn:E;
    [|done].
  apply planResource_sound in E; [|done].
  cbn [mbind exec_bind] in H. by injection H as <-.
Qed.

Lemma apiLevel_sound api bpSand out :
  apiLevel env mgwSwagger upstreamCerts interceptorCerts vHost organizationID
    registry0
  = Return (api, bpSand, out) ->
  sound out.
Proof.
  unfold apiLevel. cbv zeta. intros H.
  set (out0 := {| outClusters := []; outEndpoints := [];
                  outRegistry := registry0 |}) in H.
  assert (sound out0) as Hs0.
  { subst out0. cbn. split; [done|]. split; [constructor|]. by split. }
  clearbody out0.
  destruct (apiLevelProd _ _ _ _ _ _) as [[[? ?] out1]|] eqn:E1; [|done].
  apply apiLevelProd_sound in E1; [|done]. cbn [mbind exec_bind] in H.
  destruct (apiLevelSand _ _ _ _ _ _ _ _) as [[r2 out2]|] eqn:E2; [|done].
  apply apiLevelSand_sound in E2; [|done]. cbn [mbind exec_bind] in H.
  destruct r2 as [[? ?] ?].
  destruct (xWso2EndpointsLoop _ _ _ _ _ _ _) as [[[? ?] out3]|] eqn:E3;
    [|done].
  apply xWso2EndpointsLoop_sound in E3; [|done]. cbn [mbind exec_bind] in H.
  destruct (apiLevelInterceptor _ _ _ _ _ _ _ out3) as [[i4 out4]|] eqn:E4;
    [|done].
  apply apiLevelInterceptor_sound in E4; [|done]. cbn [mbind exec_bind] in H.
  destruct (apiLevelInterceptor _ _ _ _ _ _ _ out4) as [[i5 out5]|] eqn:E5;
    [|done].
  apply apiLevelInterceptor_sound in E5; [|done]. cbn [mbind exec_bind] in H.
  by injection H as _ _ <-.
Qed.

Lemma CreateRoutesWithClusters_sound routes clusters addresses registry' :
  CreateRoutesWithClusters env registry0 mgwSwagger upstreamCerts
    interceptorCerts vHost organizationID
  = Return (routes, clusters, addresses, registry') ->
  sound {| outClusters := clusters; outEndpoints := addresses;
           outRegistry := registry' |}.
Proof.
  unfold CreateRoutesWithClusters. intros H.
  destruct (apiLevel _ _ _ _ _ _ _) as [[[api bpSand] out]|] eqn:E; [|done].
  apply apiLevel_sound in E. cbn [mbind exec_bind] in H.
  destruct (String.eqb _ WS).
  - injection H as _ <- <- <-. by destruct out.
  - destruct (forEach _ _ _) as [st|] eqn:Hloop; [|done].
    cbn [mbind exec_bind] in H. injection H as _ <- <- <-.
    eapply (forEach_invariant _ (fun st => sound (lsOut st))) in Hloop;
      [| intros ? ? ?; apply resourceStep_sound | exact E].
    by destruct (lsOut st).
Qed.

End outputs.

(** X22: the addresses [CreateRoutesWithClusters] returns are those of
    the clusters it returns: the address list is the concatenation,
    cluster after cluster, of the addresses in the load assignment of
    each cluster, and no returned cluster is without endpoint. *)
Theorem CreateRoutesWithClusters_addresses (env : Env)
    (registry : ConsulKeyMap) (mgwSwagger : MgwSwagger)
    (upstreamCerts interceptorCerts : CertStore)
    (vHost organizationID : string)
    (routes : list Route) (clusters : list Cluster)
    (addresses : list Address) (registry' : ConsulKeyMap) :
  CreateRoutesWithClusters env registry mgwSwagger upstreamCerts
    interceptorCerts vHost organizationID
  = Return (routes, clusters, addresses, registry') ->
  addresses
  = concat ((fun c => LbEndpointAddress <$> clLoadAssignment c) <$> clusters)
  /\ Forall (fun c => clLoadAssignment c <> []) clusters
  /\ (length clusters <= length addresses)%nat.
Proof.
  intros H. apply CreateRoutesWithClusters_sound in H as (Ha & Hne & _).
  cbn [outEndpoints outClusters] in Ha, Hne.
  split; [done|]. rewrite Ha. clear Ha.
  induction Hne as [|c clusters [Hc _] _ [IH1 IH2]]; [by split|].
  split; [by constructor|].
  cbn [fmap list_fmap concat length]. rewrite length_app, length_fmap.
  destruct (clLoadAssignment c); [done|]. cbn [length]. cbn in IH2. lia.
Qed.

Lemma CreateRoutesWithClusters_addresses_witness :
  exists routes clusters addresses registry',
    CreateRoutesWithClusters sample.env ∅ sample.petstore ∅ ∅
      "gw.example.com" "org"
    = Return (routes, clusters, addresses, registry')
    /\ addresses = [createAddress "a.example" 80; createAddress "s.example" 80]
    /\ addresses
       = concat ((fun c => LbEndpointAddress <$> clLoadAssignment c)
                   <$> clusters).
Proof.
  eexists _, _, _, _. split; [by vm_compute|]. split; [reflexivity|].
  by apply (CreateRoutesWithClusters_addresses sample.env ∅ sample.petstore
              ∅ ∅ "gw.example.com" "org" _ _ _ _ ltac:(by vm_compute)).
Defined.

(** X23: [CreateRoutesWithClusters] only adds to the discovery registry:
    every name bound before the call is bound after it, and a name whose
    binding differs after the call is the name of one of the clusters
    returned. *)
Theorem CreateRoutesWithClusters_registry (env : Env)
    (registry : ConsulKeyMap) (mgwSwagger : MgwSwagger)
    (upstreamCerts interceptorCerts : CertStore)
    (vHost organizationID : string)
    (routes : list Route) (clusters : list Cluster)
    (addresses : list Address) (registry' : ConsulKeyMap) :
  CreateRoutesWithClusters env registry mgwSwagger upstreamCerts
    interceptorCerts vHost organizationID
  = Return (routes, clusters, addresses, registry') ->
  (forall name, is_Some (registry !! name) -> is_Some (registry' !! name))
  /\ (forall name,
         registry' !! name <> registry !! name ->
         name ∈ clName <$> clusters).
Proof.
  intros H. by apply CreateRoutesWithClusters_sound in H as (_ & _ & ? & ?).
Qed.

Lemma CreateRoutesWithClusters_registry_witness :
  exists routes clusters addresses registry',
    CreateRoutesWithClusters sample.env {["billing" := "consul(billing)"]}
      sample.petstore ∅ ∅ "gw.example.com" "org"
    = Return (routes, clusters, addresses, registry')
    /\ is_Some (registry' !! "billing").
Proof.
  eexists _, _, _, _. split; [by vm_compute|].
  apply (CreateRoutesWithClusters_registry sample.env
           {["billing" := "consul(billing)"]} sample.petstore ∅ ∅
           "gw.example.com" "org" _ _ _ _ ltac:(by vm_compute)).
  by eexists.
Defined.

(** X24: every cluster [CreateRoutesWithClusters] returns is named by
    [getClusterName] for the organisation, the virtual host, the title
    and the version of this API, under some prefix and resource
    identifier. *)
Theorem CreateRoutesWithClusters_cluster_names (env : Env)
    (registry : ConsulKeyMap) (mgwSwagger : MgwSwagger)
    (upstreamCerts interceptorCerts : CertStore)
    (vHost organizationID : string)
    (routes : list Route) (clusters : list Cluster)
    (addresses : list Address) (registry' : ConsulKeyMap) :
  CreateRoutesWithClusters env registry mgwSwagger upstreamCerts
    interceptorCerts vHost organizationID
  = Return (routes, clusters, addresses, registry') ->
  Forall (fun c =>
            exists prefix resourceID,
              clName c
              = getClusterName prefix organizationID vHost
                  (swaggerTitle mgwSwagger) (swaggerVersion mgwSwagger)
                  resourceID)
         clusters.
Proof.
  intros H. apply CreateRoutesWithClusters_sound in H as (_ & Hne & _).
  cbn [outClusters] in Hne. eapply Forall_impl; [exact Hne|].
  by intros c [_ ?].
Qed.

Lemma CreateRoutesWithClusters_cluster_names_witness :
  exists routes clusters addresses registry',
    CreateRoutesWithClusters sample.env ∅ sample.petstore ∅ ∅
      "gw.example.com" "org"
    = Return (routes, clusters, addresses, registry')
    /\ clName <$> clusters
       = ["org_clusterProd_gw.example.com_petstorev1";
          "org_clusterSand_gw.example.com_petstorev1"]
    /\ Forall (fun c =>
                 exists prefix resourceID,
                   clName c
                   = getClusterName prefix "org" "gw.example.com"
                       "petstore" "v1" resourceID)
              clusters.
Proof.
  eexists _, _, _, _. split; [by vm_compute|]. split; [reflexivity|].
  exact (CreateRoutesWithClusters_cluster_names sample.env ∅ sample.petstore
           ∅ ∅ "gw.example.com" "org" _ _ _ _ ltac:(by vm_compute)).
Defined.

(** X25: a WebSocket API gets one route per resource and nothing else:
    no route is a sandbox route (no route matches on the cluster
    header), no route carries an interceptor script (the Lua filter is
    the wire-log script when wire logs are enabled and is disabled
    otherwise), and, when the API has an [x-wso2-basePath], every route
    enables the websocket upgrade and limits the stream to a day. *)
Theorem CreateRoutesWithClusters_websocket (env : Env)
    (registry : ConsulKeyMap) (mgwSwagger : MgwSwagger)
    (upstreamCerts interceptorCerts : CertStore)
    (vHost organizationID : string)
    (routes : list Route) (clusters : list Cluster)
    (addresses : list Address) (registry' : ConsulKeyMap) :
  swaggerAPIType mgwSwagger = WS ->
  CreateRoutesWithClusters env registry mgwSwagger upstreamCerts
    interceptorCerts vHost organizationID
  = Return (routes, clusters, addresses, registry') ->
  length routes = length (swaggerResources mgwSwagger)
  /\ Forall (fun route =>
               Forall (fun h => hmName h = httpMethodHeader)
                      (rmHeaders (rtMatch route))
               /\ rtLua route
                  = (if WireLogsEnable (conf env)
                     then LuaInlineString
                            (renderWireLog (ext env) (WireLog (conf env))
                               wireLogTemplate)
                     else LuaDisabled)
               /\ (swaggerXWso2Basepath mgwSwagger <> "" ->
                   UpgradeConfigs (rtAction route) = [("websocket", true)]
                   /\ MaxStreamDuration (rtAction route) = Some 86400))
            routes.
Proof.
  intros Hws. unfold CreateRoutesWithClusters.
  destruct (apiLevel _ _ _ _ _ _ _) as [[[api bpSand] out]|]; [|done].
  cbn [mbind exec_bind]. rewrite Hws, String.eqb_refl.
  intros [= <- _ _ _]. split; [by rewrite length_fmap|].
  apply Forall_fmap, Forall_forall. intros resource _. cbn [compose].
  unfold wsRoute, createRoute, genRouteCreateParams. cbv zeta.
  cbn [rtMatch rmHeaders rtLua rtAction UpgradeConfigs MaxStreamDuration
       requestInterceptor responseInterceptor xWSO2BasePath apiType].
  split; [|split].
  - unfold routeHeaders. cbn [rewriteMethod isSandbox].
    destruct (negb _); by repeat constructor.
  - done.
  - intros Hbase%String.eqb_neq. rewrite Hbase. cbn [negb].
    unfold getUpgradeConfig, getMaxStreamDuration.
    by rewrite Hws, String.eqb_refl.
Qed.

Lemma CreateRoutesWithClusters_websocket_witness :
  let chat :=
    {| swaggerID := "api-2"; swaggerTitle := "chat"; swaggerVersion := "v1";
       swaggerAPIType := "WS"; swaggerXWso2Basepath := "/chat";
       swaggerXWSO2AuthHeader := "";
       swaggerProdEndpoints :=
         Some (sample.group "clusterProd" [sample.endpoint "ws.example" ""]);
       swaggerSandEndpoints := None; swaggerXWso2Endpoints := ∅;
       swaggerVendorExtensions := ∅; swaggerCorsConfig := None;
       swaggerResources :=
         [sample.resource "t1" "/rooms" ["GET"] None None;
          sample.resource "t2" "/rooms/{id}" ["GET"] None None];
       swaggerXWso2HTTP2BackendEnabled := false;
       swaggerXWso2RequestBodyPass := false; IsDefaultVersion := false |} in
  exists routes clusters addresses registry',
    CreateRoutesWithClusters sample.env ∅ chat ∅ ∅ "gw.example.com" "org"
    = Return (routes, clusters, addresses, registry')
    /\ length routes = 2%nat.
Proof.
  intros chat. eexists _, _, _, _. split; [by vm_compute|].
  by apply (CreateRoutesWithClusters_websocket sample.env ∅ chat ∅ ∅
              "gw.example.com" "org" _ _ _ _ eq_refl ltac:(by vm_compute)).
Defined.

(** X26: for an API with a non-blank [x-wso2-basePath] the sandbox route
    and the production route of a resource match the same path: they
    have the same route regex, name, decorator, authorization settings
    and Lua filter, and differ in the match only by the cluster-header
    matcher of the sandbox route; when the resource rewrites the method
    they have the very same match. *)
Theorem sandRoute_same_path (env : Env) (mgwSwagger : MgwSwagger)
    (host organization : string) (resource : Resource) (plan : RoutePlan) :
  TrimSpace (swaggerXWso2Basepath mgwSwagger) <> "" ->
  let s := sandRoute env mgwSwagger host organization resource plan in
  let p := prodRoute env mgwSwagger host organization resource plan in
  rmSafeRegex (rtMatch s) = rmSafeRegex (rtMatch p)
  /\ rtName s = rtName p
  /\ rtDecorator s = rtDecorator p
  /\ rtExtAuthz s = rtExtAuthz p
  /\ rtLua s = rtLua p
  /\ (resourceRewriteMethod resource = false ->
      rmHeaders (rtMatch s)
      = (rmHeaders (rtMatch p)
         ++ [ {| hmName := clusterHeaderName;
                 hmStringMatch := Exact (planClusterNameSand plan) |} ])%list)
  /\ (resourceRewriteMethod resource = true -> rtMatch s = rtMatch p).
Proof.
  intros Hbase. cbv zeta.
  assert (Hne : String.eqb (swaggerXWso2Basepath mgwSwagger) "" = false).
  { apply String.eqb_neq. intros E. by rewrite E in Hbase. }
  apply String.eqb_neq in Hbase.
  unfold sandRoute, prodRoute, createRoute, genRouteCreateParams. cbv zeta.
  cbn [rtMatch rmSafeRegex rtName rtDecorator rtExtAuthz rtLua rmHeaders].
  unfold routeBasePath, getFilteredBasePath, routeHeaders. cbv zeta.
  cbn [xWSO2BasePath endpointBasePath isDefaultVersion version
       resourcePathParam vHost rewriteMethod isSandbox resourceMethods
       sandClusterName requestInterceptor responseInterceptor title
       prodClusterName organizationID passRequestPayloadToEnforcer].
  rewrite Hbase, Hne. cbn [negb].
  repeat split.
  - by intros ->.
  - by intros ->.
Qed.

Lemma sandRoute_same_path_witness :
  let plan :=
    {| planResourceBasePath := "/v2"; planResourceBasePathSand := "/v2-sand";
       planClusterNameProd := "org_clusterProd_gw.example.com_petstorev1";
       planClusterNameSand := "org_clusterSand_gw.example.com_petstorev1";
       planRequestInterceptors := ∅; planResponseInterceptors := ∅;
       planSandbox := true |} in
  let r := sample.resource "r1" "/pets" ["GET"] None None in
  rmSafeRegex (rtMatch (sandRoute sample.env sample.petstore "gw.example.com"
                          "org" r plan))
  = rmSafeRegex (rtMatch (prodRoute sample.env sample.petstore
                            "gw.example.com" "org" r plan)).
Proof.
  intros plan r.
  apply (sandRoute_same_path sample.env sample.petstore "gw.example.com"
           "org" r plan).
  by vm_compute.
Defined.

(** X27: a resource without production and sandbox endpoints of its own
    inherits those of the API: its routes are planned with the API-level
    cluster names, the API-level production base path and, for the
    sandbox route, the API-level sandbox base path when there is one and
    the production base path otherwise; a sandbox route is planned
    exactly when there is an API-level sandbox base path, which the
    resource leaves as it was. *)
Theorem planResource_inherits (env : Env) (mgwSwagger : MgwSwagger)
    (upstreamCerts interceptorCerts : CertStore)
    (host organization : string) (api : ApiScope)
    (apiLevelBasePathSand : string) (out : Outputs) (resource : Resource)
    (plan : RoutePlan) (apiLevelBasePathSand' : string) (out' : Outputs) :
  available (resourceProdEndpoints resource) = None ->
  available (resourceSandEndpoints resource) = None ->
  planResource env mgwSwagger upstreamCerts interceptorCerts host
    organization api apiLevelBasePathSand out resource
  = Return (plan, apiLevelBasePathSand', out') ->
  planClusterNameProd plan = apiLevelClusterNameProd api
  /\ planClusterNameSand plan = apiLevelClusterNameSand api
  /\ planResourceBasePath plan = apiLevelBasePathProd api
  /\ planResourceBasePathSand plan
     = (if String.eqb apiLevelBasePathSand "" then apiLevelBasePathProd api
        else apiLevelBasePathSand)
  /\ planSandbox plan = negb (String.eqb apiLevelBasePathSand "")
  /\ apiLevelBasePathSand' = apiLevelBasePathSand.
Proof.
  intros Hprod Hsand. unfold planResource, resourceProd, resourceSand.
  cbv zeta. rewrite Hprod, Hsand.
  rewrite !bool_decide_eq_true_2 by done.
  rewrite orb_true_r. cbn [mbind exec_bind andb].
  intros H.
  repeat match type of H with
         | mbind _ ?m = _ =>
             destruct m as [[? ?]|]; [|discriminate H];
             cbn [mbind exec_bind] in H
         end.
  injection H as <- <- _.
  unfold reconcile, isEmpty.
  cbn [planClusterNameProd planClusterNameSand planResourceBasePath
       planResourceBasePathSand planSandbox].
  rewrite !String.eqb_refl.
  destruct (String.eqb apiLevelBasePathSand "") eqn:Es;
    destruct (String.eqb (apiLevelBasePathProd api) "") eqn:Ep;
    cbn [negb andb orb];
    rewrite ?String.eqb_refl, ?Es, ?Ep; cbn [negb andb orb];
    rewrite ?String.eqb_refl, ?Es, ?Ep, ?andb_false_r; cbn [negb andb orb].
  all: cbn [rcClusterNameProd rcClusterNameSand rcResourceBasePath
            rcResourceBasePathSand rcApiLevelBasePathSand];
       rewrite ?Es, ?Ep, ?orb_false_r, ?String.eqb_refl, ?andb_false_r;
       by repeat split.
Qed.

Lemma planResource_inherits_witness :
  let api :=
    {| apiLevelBasePathProd := "/v2"; strictBasePath := false;
       apiLevelClusterNameProd := "org_clusterProd_gw.example.com_petstorev1";
       apiLevelClusterNameSand := "org_clusterSand_gw.example.com_petstorev1";
       apiRequestInterceptor := InterceptEndpoint_zero;
       apiResponseInterceptor := InterceptEndpoint_zero |} in
  let out := {| outClusters := []; outEndpoints := []; outRegistry := ∅ |} in
  exists plan,
    planResource sample.env sample.petstore ∅ ∅ "gw.example.com" "org" api
      "/v2-sand" out (sample.resource "r1" "/pets" ["GET"] None None)
    = Return (plan, "/v2-sand", out)
    /\ planResourceBasePathSand plan = "/v2-sand"
    /\ planSandbox plan = true.
Proof.
  intros api out. eexists. split; [by vm_compute|].
  destruct (planResource_inherits sample.env sample.petstore ∅ ∅
              "gw.example.com" "org" api "/v2-sand" out
              (sample.resource "r1" "/pets" ["GET"] None None) _ _ _
              eq_refl eq_refl ltac:(by vm_compute))
    as (_ & _ & _ & Hsand & Hflag & _).
  split; [exact Hsand | exact Hflag].
Defined.

Import restserver.

(** *** The REST API of the adapter *)

Section rest_api.
Context {rt : Runtime}.

Lemma register_lookup (hs : gmap string (gmap string (Handler rt)))
    (m p : string) (h : Handler rt) (m' p' : string) :
  default ∅ (register hs m p h !! m') !! p'
  = if decide (m' = m /\ p' = p) then Some h
    else default ∅ (hs !! m') !! p'.
Proof.
  unfold register. destruct (decide (m' = m)) as [->|Hm].
  - rewrite (lookup_insert_eq hs m). cbn [from_option id].
    destruct (decide (p' = p)) as [->|Hp].
    + rewrite lookup_insert_eq. by rewrite decide_True.
    + rewrite lookup_insert_ne by done. rewrite decide_False; [done|].
      by intros [_ ?].
  - rewrite (lookup_insert_ne hs m m') by done.
    rewrite decide_False; [done|]. by intros [? _].
Qed.

Lemma HandlerFor_lookup (o : RestapiAPI rt) (method path : string) :
  HandlerFor o method path
  = default ∅ (default ∅ (handlers o)
                 !! ToUpper (unicodeToUpper rt) method)
      !! (if String.eqb path "/" then "" else path).
Proof.
  unfold HandlerFor. destruct (handlers o) as [hs|]; cbn [from_option id].
  - by destruct (hs !! _).
  - by rewrite lookup_empty.
Qed.

(** The handler cache [Init] builds on an API without handlers. *)
Lemma Init_fresh (o : RestapiAPI rt) :
  default ∅ (handlers o) = ∅ ->
  let c := snd (Context o) in
  default ∅ (handlers (Init o))
  = register
      (register
         (register
            (register ∅ "DELETE" "/apis"
               (NewDeleteApis rt c (APIIndividualDeleteApisHandler o)))
            "GET" "/apis" (NewGetApis rt c (APICollectionGetApisHandler o)))
         "POST" "/apis" (NewPostApis rt c (APIIndividualPostApisHandler o)))
      "POST" "/oauth2/token"
      (NewPostOauth2Token rt c (AuthorizationPostOauth2TokenHandler o)).
Proof.
  intros Hfresh. cbv zeta. unfold Init. rewrite Hfresh, map_size_empty.
  cbn [Nat.eqb]. unfold initHandlerCache, Context.
  by destruct (context o) as [c|]; cbn [snd handlers setHandlers setContext
    from_option id spec APIIndividualDeleteApisHandler APICollectionGetApisHandler
    APIIndividualPostApisHandler AuthorizationPostOauth2TokenHandler];
    rewrite ?Hfresh.
Qed.

Lemma ToUpper_key (method : string) :
  method ∈ ["DELETE"; "GET"; "POST"] ->
  ToUpper (unicodeToUpper rt) method = method.
Proof.
  intros H. repeat (apply elem_of_cons in H as [->|H]; [done|]).
  by apply elem_of_nil in H.
Qed.

End rest_api.

(** X28: on an API without handlers [Init] registers exactly the four
    operations of the adapter: a handler is found for a method and a
    path exactly when the upper-cased method and the path are DELETE,
    GET or POST on [/apis], or POST on [/oauth2/token]; the handler is
    the one of the operation, made with the context of the API and the
    registered operation handler.  No handler answers the path [/]. *)
Theorem Init_registers_operations (rt : Runtime) (o : RestapiAPI rt)
    (method path : string) :
  default ∅ (handlers o) = ∅ ->
  let um := ToUpper (unicodeToUpper rt) method in
  let c := snd (Context o) in
  (is_Some (HandlerFor (Init o) method path)
   <-> (um, path) ∈ [ ("DELETE", "/apis"); ("GET", "/apis");
                      ("POST", "/apis"); ("POST", "/oauth2/token") ])
  /\ (um = "DELETE" -> path = "/apis" ->
      HandlerFor (Init o) method path
      = Some (NewDeleteApis rt c (APIIndividualDeleteApisHandler o)))
  /\ (um = "GET" -> path = "/apis" ->
      HandlerFor (Init o) method path
      = Some (NewGetApis rt c (APICollectionGetApisHandler o)))
  /\ (um = "POST" -> path = "/apis" ->
      HandlerFor (Init o) method path
      = Some (NewPostApis rt c (APIIndividualPostApisHandler o)))
  /\ (um = "POST" -> path = "/oauth2/token" ->
      HandlerFor (Init o) method path
      = Some (NewPostOauth2Token rt c
                (AuthorizationPostOauth2TokenHandler o))).
Proof.
  intros Hfresh. cbv zeta.
  rewrite HandlerFor_lookup, (Init_fresh o Hfresh). cbv zeta.
  rewrite !register_lookup. rewrite lookup_empty. cbn [from_option id].
  rewrite lookup_empty.
  set (um := ToUpper (unicodeToUpper rt) method). clearbody um.
  rewrite !elem_of_cons, elem_of_nil.
  assert (Hcontra : forall (a b c d : string),
             ~ (a = c /\ b = d) -> (a, b) = (c, d) -> False).
  { intros a b c d Hn [= -> ->]. by apply Hn. }
  destruct (String.eqb_spec path "/") as [->|Hpath].
  - repeat case_decide; destruct_and?; try discriminate.
    split; [|by repeat split]. split; [by intros [? ?]|].
    intros Hin. decompose [or] Hin; by simplify_eq.
  - repeat case_decide; destruct_and?; subst; try discriminate.
    all: split;
      [ split;
        [ first [ by intros [? ?] | intros _; by auto 10 ]
        | first [ intros _; by eexists
                | intros Hin; decompose [or] Hin; try done;
                  exfalso; eauto using Hcontra ] ]
      | repeat split; intros; subst; first [ done | tauto ] ].
Qed.

Lemma Init_registers_operations_witness :
  HandlerFor (Init sampleAPI) "get" "/apis" = Some "GetApis"
  /\ HandlerFor (Init sampleAPI) "GET" "/" = None.
Proof.
  destruct (Init_registers_operations sampleRuntime sampleAPI "get" "/apis"
              eq_refl) as (_ & _ & Hget & _).
  destruct (Init_registers_operations sampleRuntime sampleAPI "GET" "/"
              eq_refl) as ([Hsome _] & _).
  split; [by apply Hget|].
  destruct (HandlerFor (Init sampleAPI) "GET" "/") as [h|]; [|done].
  specialize (Hsome ltac:(by eexists)).
  by repeat (apply elem_of_cons in Hsome as [Hsome|Hsome];
             [discriminate Hsome|]); apply elem_of_nil in Hsome.
Defined.

Section rest_middleware.
Context {rt : Runtime}.

Lemma register_keys (hs : gmap string (gmap string (Handler rt)))
    (m p : string) (h : Handler rt) (m' : string) :
  is_Some (register hs m p h !! m') <-> m' = m \/ is_Some (hs !! m').
Proof.
  unfold register. destruct (decide (m' = m)) as [->|Hm].
  - rewrite (lookup_insert_eq hs m). split; [by left | by eexists].
  - rewrite (lookup_insert_ne hs m m') by done. split; [by right|].
    by intros [?|?].
Qed.

(** The handler cache of a fresh API has the keys DELETE, GET and POST
    only. *)
Lemma Init_fresh_keys (o : RestapiAPI rt) (method : string) :
  default ∅ (handlers o) = ∅ ->
  is_Some (default ∅ (handlers (Init o)) !! method) ->
  method ∈ ["DELETE"; "GET"; "POST"].
Proof.
  intros Hfresh. rewrite (Init_fresh o Hfresh). cbv zeta.
  rewrite !register_keys, lookup_empty, !elem_of_cons, elem_of_nil.
  intros [->|[->|[->|[->|[? ?]]]]]; auto 10. done.
Qed.

End rest_middleware.

(** X29: [AddMiddlewareFor] on an API without handlers looks the handler
    up under the upper-cased method and stores the wrapped handler under
    the method as given.  For a registered operation whose method is
    written in upper case the call returns, and the handler found
    afterwards is the wrapped one; for a registered operation whose
    method is not written in upper case the call panics with an
    assignment to an entry in a nil map. *)
Theorem AddMiddlewareFor_method_case (rt : Runtime) (o : RestapiAPI rt)
    (method path : string) (builder : Handler rt -> Handler rt)
    (h : Handler rt) :
  default ∅ (handlers o) = ∅ ->
  HandlerFor (Init o) method path = Some h ->
  (ToUpper (unicodeToUpper rt) method = method ->
   exists o',
     AddMiddlewareFor o method path builder = Return o'
     /\ HandlerFor o' method path = Some (builder h))
  /\ (ToUpper (unicodeToUpper rt) method <> method ->
      AddMiddlewareFor o method path builder
      = Panic "assignment to entry in nil map").
Proof.
  intros Hfresh Hh. rewrite HandlerFor_lookup in Hh.
  unfold AddMiddlewareFor. cbv zeta. rewrite Hh. split.
  - intros Hupper. rewrite Hupper in Hh.
    destruct (default ∅ (handlers (Init o)) !! method) as [byPath|] eqn:Hm.
    + eexists. split; [reflexivity|].
      rewrite HandlerFor_lookup. cbn [handlers setHandlers from_option id].
      rewrite Hupper.
      rewrite (lookup_insert_eq (default ∅ (handlers (Init o))) method).
      cbn [from_option id]. by rewrite lookup_insert_eq.
    + cbn [from_option id] in Hh. by rewrite lookup_empty in Hh.
  - intros Hupper.
    destruct (default ∅ (handlers (Init o)) !! method) as [byPath|] eqn:Hm;
      [|done].
    exfalso. apply Hupper, ToUpper_key.
    apply (Init_fresh_keys o method Hfresh). by rewrite Hm.
Qed.

Lemma AddMiddlewareFor_method_case_witness :
  (exists o',
      AddMiddlewareFor sampleAPI "POST" "/apis" (fun h => "logged " ++ h)
      = Return o'
      /\ HandlerFor o' "POST" "/apis" = Some ("logged " ++ "PostApis"))
  /\ AddMiddlewareFor sampleAPI "post" "/apis" (fun h => "logged " ++ h)
     = Panic "assignment to entry in nil map".
Proof.
  split.
  - by apply (AddMiddlewareFor_method_case sampleRuntime sampleAPI "POST"
                "/apis" (fun h => "logged " ++ h) "PostApis" eq_refl).
  - apply (AddMiddlewareFor_method_case sampleRuntime sampleAPI "post"
             "/apis" (fun h => "logged " ++ h) "PostApis" eq_refl);
      [by vm_compute | discriminate].
Defined.

Section rest_consumers.
Context {rt : Runtime}.

(** What [ConsumersFor] stores for a media type it is asked for, if
    anything: the custom consumer when one is registered, else the
    built-in consumer of the two built-in media types. *)
Local Abbreviation entry o mt :=
  (match mapLookup (customConsumers o) mt with
   | Some c => Some c
   | None =>
       if String.eqb mt "application/json" then Some (JSONConsumer o)
       else if String.eqb mt "multipart/form-data"
            then Some (MultipartformConsumer o)
            else None
   end).

Lemma consumersStep_lookup (o : RestapiAPI rt)
    (r : gmap string (option (Consumer rt))) (mt k : string) :
  consumersStep o r mt !! k
  = if decide (k = mt)
    then match entry o mt with Some v => Some v | None => r !! k end
    else r !! k.
Proof.
  unfold consumersStep. cbv zeta.
  destruct (decide (k = mt)) as [->|Hk].
  - destruct (mapLookup (customConsumers o) mt) as [c|].
    + by rewrite lookup_insert_eq.
    + destruct (String.eqb_spec mt "application/json") as [->|];
        [by rewrite lookup_insert_eq|].
      destruct (String.eqb_spec mt "multipart/form-data") as [->|];
        [by rewrite lookup_insert_eq | done].
  - assert (forall v (m : gmap string (option (Consumer rt))),
               <[mt := v]> m !! k = m !! k) as Hne.
    { intros v m. by rewrite lookup_insert_ne. }
    destruct (mapLookup (customConsumers o) mt) as [c|]; rewrite ?Hne;
      destruct (String.eqb_spec mt "application/json") as [E|];
      try (rewrite <- E, Hne; done);
      destruct (String.eqb_spec mt "multipart/form-data") as [E|];
      try (rewrite <- E, Hne; done); done.
Qed.

Lemma ConsumersFor_lookup (o : RestapiAPI rt) (mediaTypes : list string)
    (k : string) : forall acc,
  fold_left (consumersStep o) mediaTypes acc !! k
  = if decide (k ∈ mediaTypes)
    then match entry o k with Some v => Some v | None => acc !! k end
    else acc !! k.
Proof.
  induction mediaTypes as [|mt mediaTypes IH]; intros acc.
  - cbn [fold_left]. rewrite decide_False; [done|]. apply not_elem_of_nil.
  - cbn [fold_left]. rewrite IH, consumersStep_lookup.
    destruct (decide (k = mt)) as [->|Hk].
    + rewrite (decide_True (P := mt ∈ mt :: mediaTypes)) by by left.
      destruct (decide (mt ∈ mediaTypes)); by destruct (entry o mt).
    + destruct (decide (k ∈ mediaTypes)) as [Hin|Hin].
      * rewrite decide_True; [done | by right].
      * rewrite decide_False; [done|]. by intros [?|?]%elem_of_cons.
Qed.

End rest_consumers.

(** X30: [ConsumersFor] answers only for the media types it is asked
    for; for such a media type a custom consumer, when one is
    registered, takes precedence over the built-in consumer of
    [application/json] and [multipart/form-data], and a media type that
    is neither registered nor built in gets no consumer.  After
    [RegisterConsumer] the consumer registered for a media type is the
    one [ConsumersFor] returns for it. *)
Theorem ConsumersFor_precedence (rt : Runtime) (o : RestapiAPI rt)
    (mediaTypes : list string) (mt : string) :
  (is_Some (ConsumersFor o mediaTypes !! mt) -> mt ∈ mediaTypes)
  /\ (mt ∈ mediaTypes ->
      ConsumersFor o mediaTypes !! mt
      = match mapLookup (customConsumers o) mt with
        | Some c => Some c
        | None =>
            if String.eqb mt "application/json" then Some (JSONConsumer o)
            else if String.eqb mt "multipart/form-data"
                 then Some (MultipartformConsumer o)
                 else None
        end)
  /\ (forall c o',
         mt ∈ mediaTypes ->
         RegisterConsumer o mt c = Return o' ->
         ConsumersFor o' mediaTypes !! mt = Some c).
Proof.
  unfold ConsumersFor. split; [|split].
  - rewrite ConsumersFor_lookup. destruct (decide (mt ∈ mediaTypes)); [done|].
    rewrite lookup_empty. by intros [? ?].
  - intros Hin. rewrite ConsumersFor_lookup, decide_True by done.
    rewrite lookup_empty.
    destruct (mapLookup (customConsumers o) mt); [done|].
    destruct (String.eqb mt "application/json"); [done|].
    by destruct (String.eqb mt "multipart/form-data").
  - intros c o' Hin Hreg. unfold RegisterConsumer in Hreg.
    destruct (customConsumers o) as [m|] eqn:Hm; [|discriminate Hreg].
    injection Hreg as <-.
    rewrite ConsumersFor_lookup, decide_True by done.
    cbn [customConsumers setCustomConsumers mapLookup].
    by rewrite lookup_insert_eq.
Qed.
